(** * SeismicMatch: the matched-filter detection engine

    A shallow embedding of [seismic_match/template_matching.py] (class
    [TemplateMatcher]) and the statements of its specification, and of
    what the matcher calls and is called by: [read_bulk_data] and
    [prepare_data_list] of [seismic_match/data_handling.py], [chunks]
    of [seismic_match/common.py], and the grouping and dispatch of
    [scripts/match_templates.py].

    Conventions of the embedding.
    - Python integers whose sign matters are [Z]: [a / b] is the double
      nearest to the quotient, [int] truncates a double towards zero,
      [a % b] is the floored remainder ([Z.modulo]), and both operators
      raise [ZeroDivisionError] on a zero divisor; a negative slice
      bound counts from the end.  Lengths and array indices are [nat].
    - Array samples and correlation values are rationals ([Q]) with exact
      arithmetic.  Rounding, NaN and Inf of the float32 and float64 arrays
      are outside the model (the NaN that the median of an empty array
      returns is [None]); the primitives that are not rational functions,
      and the division whose divisor may be zero, are fields of a
      [backend] and stay abstract in the general statements.
    - Code that can raise returns a [result]; code that also writes
      returns its output next to it. *)

From Stdlib Require Import Ascii String ZArith QArith Qabs Qminmax List Bool Lia Lqa Arith.
From Stdlib Require Import Sorted Permutation.
Import ListNotations.
Open Scope Z_scope.

(** ** Exceptions and results *)

Inductive exn : Type :=
| ZeroDivisionError
| ValueError
| IndexError
| UnboundLocalError
| AttributeError
| OverflowError
| OutOfMemoryError.

Inductive result (A : Type) : Type :=
| Ok (a : A)
| Raise (e : exn).

Arguments Ok {A} a.
Arguments Raise {A} e.

Definition bind {A B : Type} (r : result A) (k : A -> result B) : result B :=
  match r with
  | Ok a => k a
  | Raise e => Raise e
  end.

Notation "x <- r ;; k" := (bind r (fun x => k))
  (at level 61, r at next level, right associativity).

(** ** Python integer arithmetic *)

Module Py.

(** The integer nearest to [p / q] for [q > 0], a tie going to the even
    one. *)
Definition round_half_even (p q : Z) : Z :=
  let f := p / q in
  match 2 * (p mod q) ?= q with
  | Lt => f
  | Eq => if Z.even f then f else f + 1
  | Gt => f + 1
  end.

(** A finite double, as the integer [f_man] times [2 ^ f_exp]; the
    exponent is at least [min_exp]. *)
Record float : Type := {
  f_man : Z;
  f_exp : Z
}.

Definition min_exp : Z := -1074.

(** [p / (q * 2 ^ e)] as a fraction of integers. *)
Definition scale (p q e : Z) : Z * Z :=
  (p * 2 ^ Z.max 0 (- e), q * 2 ^ Z.max 0 e).

(** The exponent [e] at which [p / q] has a mantissa of 53 bits:
    [2^52 <= p / (q * 2^e) < 2^53], for [p, q > 0]. *)
Definition binade (p q : Z) : Z :=
  let e0 := Z.log2 p - Z.log2 q - 52 in
  if fst (scale p q e0) <? 2 ^ 52 * snd (scale p q e0) then e0 - 1 else e0.

(** The double nearest to [p / q] for [p >= 0] and [q > 0]: the mantissa
    is rounded once, at the exponent of the quotient or at the least
    exponent. *)
Definition nearest (p q : Z) : float :=
  let e := Z.max (binade p q) min_exp in
  {| f_man := round_half_even (fst (scale p q e)) (snd (scale p q e));
     f_exp := e |}.

(** [a / b] on two integers: the exact quotient is rounded once to a
    double; a quotient that rounds to 2^1024 or more has none. *)
Definition truediv (a b : Z) : result float :=
  if b =? 0 then Raise ZeroDivisionError
  else
    let x := nearest (Z.abs a) (Z.abs b) in
    if 2 ^ 1024 <=? f_man x * 2 ^ Z.max 0 (f_exp x) then Raise OverflowError
    else Ok {| f_man := Z.sgn a * Z.sgn b * f_man x; f_exp := f_exp x |}.

(** [x / 2] on a double: exact, but for the last bit at the least
    exponent. *)
Definition half (x : float) : float :=
  if min_exp <? f_exp x then {| f_man := f_man x; f_exp := f_exp x - 1 |}
  else {| f_man := Z.sgn (f_man x) * round_half_even (Z.abs (f_man x)) 2;
          f_exp := f_exp x |}.

(** [int(x)] on a double: truncation towards zero. *)
Definition int_ (x : float) : Z :=
  if 0 <=? f_exp x then f_man x * 2 ^ f_exp x
  else Z.quot (f_man x) (2 ^ (- f_exp x)).

(** [np.ceil(x)] on a double: the least integer not below it, which is
    a double again. *)
Definition ceil (x : float) : float :=
  if 0 <=? f_exp x then x
  else {| f_man := - ((- f_man x) / 2 ^ (- f_exp x)); f_exp := 0 |}.

(** [int(a / b)]. *)
Definition int_truediv (a b : Z) : result Z :=
  x <- truediv a b ;; Ok (int_ x).

(** [a % b]: the remainder takes the sign of the divisor. *)
Definition mod_ (a b : Z) : result Z :=
  if b =? 0 then Raise ZeroDivisionError else Ok (a mod b).

(** A [bool] used as a summand: [True] is 1 and [False] is 0. *)
Definition of_bool (b : bool) : Z := if b then 1 else 0.

(** A slice bound on a sequence of length [len]: a negative bound counts
    from the end, and the result is clipped to [0, len]. *)
Definition slice_index (len i : Z) : Z :=
  if i <? 0 then Z.max (i + len) 0 else Z.min i len.

End Py.

(** ** ChunkPlanner *)

(** [find_optimal_chunksize(self, chunk, N)], lines 66-76. *)
Definition find_optimal_chunksize (chunk N : Z) : result Z :=
  q <- Py.int_truediv N chunk ;;
  r <- Py.mod_ N chunk ;;
  let n_it := q + Py.of_bool (r >? 0) in
  q' <- Py.int_truediv N n_it ;;
  r' <- Py.mod_ N n_it ;;
  Ok (q' + Py.of_bool (r' >? 0)).

(** The mathematical ceiling of [a / b], for [b <> 0]. *)
Definition ceil_div (a b : Z) : Z := - ((- a) / b).

(** ** Arrays of samples *)

Module Arr.

Definition ltb (x y : Q) : bool := negb (Qle_bool y x).
Definition sq (x : Q) : Q := (x * x)%Q.
Definition sum (l : list Q) : Q := fold_left Qplus l 0%Q.
Definition zeros (n : nat) : list Q := repeat 0%Q n.
Definition ones (n : nat) : list Q := repeat 1%Q n.

(** [a[i:j]] for [0 <= i <= j]. *)
Definition slice {A : Type} (l : list A) (i j : nat) : list A :=
  firstn (j - i) (skipn i l).

(** The inner product of two arrays of one length. *)
Definition dot (a b : list Q) : Q :=
  sum (map (fun p => (fst p * snd p)%Q) (combine a b)).

(** [cp.max(a)]; a zero-size array has no maximum. *)
Definition max (a : list Q) : result Q :=
  match a with
  | [] => Raise ValueError
  | x :: l => Ok (fold_left (fun m y => if ltb m y then y else m) l x)
  end.

(** [cp.convolve(a, v, 'valid')]: the operands are swapped when [v] is the
    longer one, an empty operand is rejected, and entry [k] of the result
    is the sum of [a[k + j] * v[n - 1 - j]] over the [n] entries of [v]. *)
Definition convolve_valid (a v : list Q) : result (list Q) :=
  let '(a, v) := if (length a <? length v)%nat then (v, a) else (a, v) in
  match a, v with
  | [], _ => Raise ValueError
  | _, [] => Raise ValueError
  | _, _ =>
      let n := length v in
      Ok (map (fun k => dot (slice a k (k + n)) (rev v))
              (seq 0 (length a - n + 1)))
  end.

(** In-place update [a[i] = x] at an index in range. *)
Fixpoint upd {A : Type} (l : list A) (i : nat) (x : A) : list A :=
  match l, i with
  | [], _ => []
  | _ :: l', O => x :: l'
  | y :: l', S i' => y :: upd l' i' x
  end.

(** [cp.where(mask)[0]]: the indices of the true entries, ascending. *)
Definition where_ (mask : list bool) : list nat :=
  filter (fun i => nth i mask false) (seq 0 (length mask)).

(** [a[lo:hi] = x] by position. *)
Definition fill {A : Type} (l : list A) (lo hi : Z) (x : A) : list A :=
  map (fun p => if (lo <=? Z.of_nat (fst p)) && (Z.of_nat (fst p) <? hi)
                then x else snd p)
      (combine (seq 0 (length l)) l).

(** [a[start:stop] = x] with Python's treatment of the bounds. *)
Definition slice_assign {A : Type} (l : list A) (start stop : Z) (x : A)
  : list A :=
  let len := Z.of_nat (length l) in
  fill l (Py.slice_index len start) (Py.slice_index len stop) x.

Fixpoint insert_sorted (x : Q) (l : list Q) : list Q :=
  match l with
  | [] => [x]
  | y :: l' => if Qle_bool x y then x :: l else y :: insert_sorted x l'
  end.

Definition sort (l : list Q) : list Q := fold_right insert_sorted [] l.

(** [cp.median(a)]: the middle entry of the sorted array, or the mean of
    the two middle entries; [None] stands for the NaN of an empty array. *)
Definition median (a : list Q) : option Q :=
  let s := sort a in
  let n := length s in
  match n with
  | O => None
  | _ => if Nat.even n
         then Some ((nth (n / 2 - 1) s 0 + nth (n / 2) s 0) / 2)%Q
         else Some (nth (n / 2) s 0%Q)
  end.

End Arr.

(** ** Configuration and back end *)

Record config : Type := {
  cc_threshold : Q;
  mad_threshold : Q;
  combine_thresholds : bool;
  use_cupy : bool
}.

(** The numeric back end ([cp], that is cupy or numpy).  [b_sqrt] and
    [b_div] are the element-wise square root and division, [b_eps] is
    [cp.finfo(norm.dtype).eps], [b_cc_is_float] tells whether the inverse
    transform comes back as float64 ([cc.dtype == float]), and
    [b_xcorr t d L k] is sample [k] of the real part of the inverse
    transform of the product of the two length-[L] spectra of template
    [t] and trace [d]. *)
Record backend : Type := {
  b_sqrt : Q -> Q;
  b_div : Q -> Q -> Q;
  b_eps : Q;
  b_cc_is_float : bool;
  b_xcorr : list Q -> list Q -> nat -> nat -> Q
}.

(** ** Normalizer *)

(** [pad_zeros(self, a, M, num, num2=None)], lines 356-365.  In both
    branches of [if num2] the slice that receives [a] is the [M] entries
    after the first [num]; an array of another length does not fit (a
    single entry is broadcast). *)
Definition pad_zeros (a : list Q) (M num : nat) (num2 : option nat)
  : result (list Q) :=
  let num2 := match num2 with None => num | Some n => n end in
  match a with
  | [x] => Ok (Arr.zeros num ++ repeat x M ++ Arr.zeros num2)
  | _ => if (length a =? M)%nat
         then Ok (Arr.zeros num ++ a ++ Arr.zeros num2)
         else Raise ValueError
  end.

(** [window_sum(self, data, window_len)], lines 350-354. *)
Definition window_sum (data : list Q) (window_len : nat)
  : result (list Q) :=
  match Arr.convolve_valid data (Arr.ones window_len) with
  | Ok w => Ok (tl w)
  | Raise e => Raise e
  end.

(** ** PeakDetector *)

Definition water_level : Q := 1 # 1000000.

(** Lines 221-225: the daily MAD with its water level.  [None] is the NaN
    that the medians of an empty sequence produce. *)
Definition daily_mad (day_cc : list Q) : option Q :=
  match Arr.median day_cc with
  | None => None
  | Some med =>
      match Arr.median (map (fun c => Qabs (c - med)) day_cc) with
      | None => None
      | Some mad => Some (if Qeq_bool mad 0 then water_level else mad)
      end
  end.

(** [max([a, b])] and [min([a, b])]: the first operand stays unless the
    second one is strictly greater (smaller). *)
Definition max2 (a b : Q) : Q := if Arr.ltb a b then b else a.
Definition min2 (a b : Q) : Q := if Arr.ltb b a then b else a.

(** Lines 227-232.  A NaN product compares false both ways, so the first
    operand [cc_threshold] is returned. *)
Definition local_threshold (cfg : config) (mad : option Q) : Q :=
  match mad with
  | None => cc_threshold cfg
  | Some m =>
      if combine_thresholds cfg
      then max2 (cc_threshold cfg) (mad_threshold cfg * m)
      else min2 (cc_threshold cfg) (mad_threshold cfg * m)
  end.

(** Line 233: [cp.where(abs_cc >= local_threshold)[0]]. *)
Definition candidates (abs_cc : list Q) (thr : Q) : list nat :=
  Arr.where_ (map (fun a => Qle_bool thr a) abs_cc).

Section RunReduction.

Variable abs_cc : list Q.
Variable thr : Q.

Let at_ (x : nat) : Q := nth x abs_cc 0%Q.

(** Lines 237-255, inside the [while] loop at position [x] with the
    running maximum [p]; [it] is what the iterator over [tops] still
    holds.  Leaving the [while] loop resumes the [for] loop, which takes
    the next index from the same iterator. *)
Fixpoint scan (it : list nat) (x : nat) (p : Q) (peaks : list bool)
  : list bool :=
  let resume :=
    match it with
    | [] => peaks
    | y :: it' =>
        if Arr.ltb (at_ y) thr then peaks
        else scan it' y (at_ y) (Arr.upd peaks y true)
    end in
  if (x + 1 <? length abs_cc)%nat then
    if Arr.ltb (at_ (x + 1)) thr then resume
    else
      let p' := if Arr.ltb p (at_ (x + 1)) then at_ (x + 1) else p in
      let peaks' :=
        if Arr.ltb p (at_ (x + 1))
        then Arr.upd (Arr.upd peaks x false) (x + 1) true
        else peaks in
      match it with
      | [] => peaks'
      | _ :: it' => scan it' (x + 1) p' peaks'
      end
  else resume.

(** The [for x in it] loop from its start. *)
Definition reduce_runs (tops : list nat) (peaks : list bool) : list bool :=
  match tops with
  | [] => peaks
  | x :: it =>
      if Arr.ltb (at_ x) thr then peaks
      else scan it x (at_ x) (Arr.upd peaks x true)
  end.

(** [sorted(tops, key=lambda x: abs_cc[x], reverse=True)]: descending and
    stable. *)
Fixpoint insert_desc (x : nat) (l : list nat) : list nat :=
  match l with
  | [] => [x]
  | y :: l' =>
      if Arr.ltb (at_ x) (at_ y) then y :: insert_desc x l' else x :: l
  end.

Definition sort_desc (tops : list nat) : list nat :=
  fold_right insert_desc [] tops.

End RunReduction.

(** Lines 259-263, one turn of the exclusion loop. *)
Definition exclude (distance : nat) (peaks : list bool) (x : nat)
  : list bool :=
  if nth x peaks false then
    Arr.upd
      (Arr.slice_assign peaks (Z.of_nat x - Z.of_nat distance)
                        (Z.of_nat x + Z.of_nat distance) false)
      x true
  else peaks.

(** [find_peaks(self, day_cc, distance)], lines 211-267. *)
Definition find_peaks (cfg : config) (day_cc : list Q) (distance : nat)
  : list nat * list Q * list (option Q) :=
  let abs_cc := map Qabs day_cc in
  let cc_len := length day_cc in
  let mad := daily_mad day_cc in
  let thr := local_threshold cfg mad in
  let tops := candidates abs_cc thr in
  let peaks := repeat false cc_len in
  let peaks := reduce_runs abs_cc thr tops peaks in
  let tops := Arr.where_ peaks in
  let peaks := fold_left (exclude distance) (sort_desc abs_cc tops) peaks in
  let tops := Arr.where_ peaks in
  let cc_values := map (fun x => nth x day_cc 0%Q) tops in
  let mad_values :=
    map (fun c => match mad with Some m => Some (c / m)%Q | None => None end)
        cc_values in
  (tops, cc_values, mad_values).

(** ** SpectralCorrelator *)

(** [scipy.fftpack.next_fast_len]: the least 5-smooth size that is not
    below the target; sizes up to 6 are returned as they are. *)
Fixpoint strip (fuel p n : nat) : nat :=
  match fuel with
  | O => n
  | S fuel' =>
      if ((0 <? n) && (n mod p =? 0))%nat then strip fuel' p (n / p) else n
  end.

Definition is_regular (n : nat) : bool :=
  (strip n 5 (strip n 3 (strip n 2 n)) =? 1)%nat.

Fixpoint search_regular (fuel n : nat) : nat :=
  match fuel with
  | O => n
  | S fuel' => if is_regular n then n else search_regular fuel' (S n)
  end.

Definition next_fast_len (target : nat) : nat :=
  if (target <=? 6)%nat then target else search_regular target target.

(** One line of a match file, as [process_matches] writes it: the file of
    the template, and the detection time as the start of the data trace
    and the lag in samples. *)
Record detection : Type := {
  det_file : string;
  det_start : Q;
  det_lag : nat;
  det_cc : Q;
  det_mad : option Q;
  det_amp : Q
}.

(** What a computation leaves behind: the lines appended to the match
    files and the lines printed. *)
Record output : Type := {
  matches : list detection;
  stdout : list string
}.

Definition silent : output := {| matches := []; stdout := [] |}.

Definition out_app (a b : output) : output :=
  {| matches := matches a ++ matches b; stdout := stdout a ++ stdout b |}.

(** Computations that write and may raise; what was written before an
    exception stays written. *)
Definition io (A : Type) : Type := (output * result A)%type.

Definition ret {A : Type} (a : A) : io A := (silent, Ok a).

Definition lift {A : Type} (r : result A) : io A := (silent, r).

Definition iobind {A B : Type} (m : io A) (k : A -> io B) : io B :=
  match m with
  | (o, Ok a) => (out_app o (fst (k a)), snd (k a))
  | (o, Raise e) => (o, Raise e)
  end.

Notation "x <-- m ;; k" := (iobind m (fun x => k))
  (at level 61, m at next level, right associativity).

Definition print (s : string) : io unit :=
  ({| matches := []; stdout := [s] |}, Ok tt).

Definition append_lines (l : list detection) : io unit :=
  ({| matches := l; stdout := [] |}, Ok tt).

Definition index {A : Type} (l : list A) (i : nat) : result A :=
  match nth_error l i with
  | Some a => Ok a
  | None => Raise IndexError
  end.

(** [process_matches], lines 269-282: one line per peak. *)
Definition process_matches (peaks : list nat) (cc : list Q)
  (mad : list (option Q)) (amps : list Q) (data_start : Q)
  (template_file : string) : io Z :=
  let lines :=
    map (fun r =>
           match r with
           | (x, cc_c, x_mad, amp) =>
               {| det_file := template_file; det_start := data_start;
                  det_lag := x; det_cc := cc_c; det_mad := x_mad;
                  det_amp := amp |}
           end)
        (combine (combine (combine peaks cc) mad) amps) in
  _ <-- append_lines lines ;;
  ret (Z.of_nat (length lines)).

(** A two-dimensional array: [shape] is [(length a_rows, a_cols)]. *)
Record array2 : Type := {
  a_cols : nat;
  a_rows : list (list Q)
}.

(** Line 324: [(cp.finfo(norm.dtype).eps * N) ** .5]. *)
Definition energy_floor (be : backend) (N : nat) : Q :=
  b_sqrt be (b_eps be * inject_Z (Z.of_nat N)).

Definition map2 {A B C : Type} (f : A -> B -> C) (a : list A) (b : list B)
  : list C :=
  map (fun p => f (fst p) (snd p)) (combine a b).

(** Lines 321-330: the normalisation of one correlation sequence. *)
Definition normalize (be : backend) (cc data_norm : list Q) (temp_tr : list Q)
  (N : nat) : list Q :=
  let norm := map (fun e => e * Arr.sum (map Arr.sq temp_tr))%Q data_norm in
  let norm := map (b_sqrt be) norm in
  let mask := map (fun e => Qle_bool e (energy_floor be N)) data_norm in
  if b_cc_is_float be then
    map2 (fun c (nm : Q * bool) => if snd nm then c else b_div be c (fst nm))
         cc (combine norm mask)
  else
    let cc := map2 (b_div be) cc norm in
    map2 (fun c (m : bool) => if m then 0%Q else c) cc mask.

(** Lines 333-337: magnitudes above 1.01 are zeroed, with a warning. *)
Definition corrupt_mask (cc : list Q) : list bool :=
  map (fun c => Arr.ltb (101 # 100) (Qabs c)) cc.

Definition clip_corrupt (cc : list Q) : io (list Q) :=
  let mask := corrupt_mask cc in
  if existsb (fun m => m) mask then
    _ <-- print "Warning: cc > 1.0" ;;
    ret (map2 (fun c (m : bool) => if m then 0%Q else c) cc mask)
  else ret cc.

Fixpoint mapM {A B : Type} (f : A -> result B) (l : list A)
  : result (list B) :=
  match l with
  | [] => Ok []
  | a :: l' =>
      match f a with
      | Raise e => Raise e
      | Ok b =>
          match mapM f l' with
          | Raise e => Raise e
          | Ok bs => Ok (b :: bs)
          end
      end
  end.

Section MatrixCC.

Variable be : backend.
Variable cfg : config.

(** The correlation sequence of one pair as it reaches [find_peaks]
    (lines 319-337). *)
Definition pair_cc (temp_tr data_tr data_norm : list Q) (cc_len N : nat)
  : io (list Q) :=
  let M := length data_tr in
  let cc := map (b_xcorr be temp_tr data_tr cc_len) (seq 0 (M - N + 1)) in
  clip_corrupt (normalize be cc data_norm temp_tr N).

(** The body of the inner loop, lines 319-346; it returns the number of
    lines written. *)
Definition pair_body (temp_files : list string) (t_data : list Q)
  (cc_len N j : nat) (data_tr data_abs data_norm : list Q)
  (i : nat) (temp_tr : list Q) : io Z :=
  temp_amp <-- lift (Arr.max (map Qabs temp_tr)) ;;
  cc <-- pair_cc temp_tr data_tr data_norm cc_len N ;;
  match find_peaks cfg cc N with
  | (peaks, cc_vals, mad_vals) =>
      if (length peaks =? 0)%nat then ret 0
      else
        amp_ratios <-- lift (mapM (fun idx =>
                         match Arr.max (Arr.slice data_abs idx (idx + N)) with
                         | Ok m => Ok (b_div be m temp_amp)
                         | Raise e => Raise e
                         end) peaks) ;;
        start <-- lift (index t_data j) ;;
        file <-- lift (index temp_files i) ;;
        process_matches peaks cc_vals mad_vals amp_ratios start file
  end.

Fixpoint for_templates (body : nat -> list Q -> io Z)
  (rows : list (nat * list Q)) (n_matches : Z) : io Z :=
  match rows with
  | [] => ret n_matches
  | (i, temp_tr) :: rows' =>
      n <-- body i temp_tr ;;
      for_templates body rows' (n_matches + n)
  end.

Definition enumerate {A : Type} (l : list A) : list (nat * A) :=
  combine (seq 0 (length l)) l.

(** The body of the outer loop, lines 309-346; [pad1, pad2] are
    [(1 + 1) // 2, 1 // 2], that is 1 and 0. *)
Definition trace_body (templates : array2) (temp_files : list string)
  (t_data : list Q) (cc_len : nat) (j : nat) (data_tr : list Q)
  (n_matches : Z) : io Z :=
  let N := a_cols templates in
  let M := length data_tr in
  if (M <? N)%nat then ret n_matches
  else
    padded_tr <-- lift (pad_zeros data_tr M 1 (Some 0%nat)) ;;
    let data_abs := map Qabs data_tr in
    data_norm <-- lift (window_sum (map Arr.sq padded_tr) N) ;;
    for_templates
      (pair_body temp_files t_data cc_len N j data_tr data_abs data_norm)
      (enumerate (a_rows templates)) n_matches.

Fixpoint for_data (body : nat -> list Q -> Z -> io Z)
  (traces : list (nat * list Q)) (n_matches : Z) : io Z :=
  match traces with
  | [] => ret n_matches
  | (j, data_tr) :: traces' =>
      n <-- body j data_tr n_matches ;;
      for_data body traces' n
  end.

(** [matrix_cc], lines 284-348.  The transforms [temp_fft] and [data_fft]
    are functions of the traces and of [cc_len]; they enter through
    [b_xcorr]. *)
Definition matrix_cc (templates : array2) (data : list (list Q))
  (temp_files : list string) (t_data : list Q) : io Z :=
  let N := a_cols templates in
  match data with
  | [] => lift (Raise ValueError)
  | _ =>
      let data_len := map (@length Q) data in
      let cc_len := next_fast_len (list_max data_len) in
      if (cc_len <? N)%nat then
        _ <-- print "data traces must be longer than templates" ;;
        ret 0
      else
        for_data (trace_body templates temp_files t_data cc_len)
                 (enumerate data) 0
  end.

End MatrixCC.

(** The lines that the loops of [matrix_cc] write for the pair of trace
    [j] and template [i], when the pair is processed. *)
Definition pair_lines (be : backend) (cfg : config)
  (temp_files : list string) (t_data : list Q) (cc_len N : nat)
  (j : nat) (data_tr : list Q) (i : nat) (temp_tr : list Q)
  : list detection :=
  match pad_zeros data_tr (length data_tr) 1 (Some 0%nat) with
  | Ok padded_tr =>
      match window_sum (map Arr.sq padded_tr) N with
      | Ok data_norm =>
          matches (fst (pair_body be cfg temp_files t_data cc_len N j
                          data_tr (map Qabs data_tr) data_norm i temp_tr))
      | Raise _ => []
      end
  | Raise _ => []
  end.

(** ** Orchestrator *)

(** A local variable that [del] can unbind. *)
Inductive binding (A : Type) : Type :=
| Unbound
| Bound (a : A).

Arguments Unbound {A}.
Arguments Bound {A} a.

(** The local variables of [match_templates] that the loop reads and
    writes, the lines written so far, and the number of calls of
    [matrix_cc] so far.  [data] and [templates] are the file names of the
    cached chunks; [data_st] and [temp_st] are the loaded traces, by the
    names of the files that could be read.  The transforms [data_fft] and
    [temp_fft] are assigned with the traces and read by [matrix_cc] only,
    so the traces stand for them (the handler deletes the traces and
    leaves the transforms to the next load). *)
Record state : Type := {
  N_MAX : Z;
  di : Z;
  ti : Z;
  data : list string;
  templates : list string;
  cc_len : nat;
  data_st : binding (option (list string));
  temp_st : binding (option (list string));
  n_detections : Z;
  written : list detection;
  calls : nat
}.

(** How a run of [match_templates] ends. *)
Inductive outcome : Type :=
| Returned (s : state)
| SysExit (code : Z) (s : state)
| Uncaught (e : exn) (lines : list detection)
| OutOfFuel.

(** The exit status of the process when the run is all it does: an
    exception that nothing catches ends the interpreter with status 1. *)
Definition exit_status (o : outcome) : option Z :=
  match o with
  | Returned _ => Some 0
  | SysExit code _ => Some code
  | Uncaught _ _ => Some 1
  | OutOfFuel => None
  end.

(** [l[start:stop]] on a list. *)
Definition py_slice {A : Type} (l : list A) (start stop : Z) : list A :=
  let len := Z.of_nat (length l) in
  Arr.slice l (Z.to_nat (Py.slice_index len start))
              (Z.to_nat (Py.slice_index len stop)).

(** Lines 96-100: the chunk size that the loop starts with,
    [int(N_MAX**2 / n_templates / 2)] when there are fewer templates than
    the capacity, balanced over the day files. *)
Definition first_chunk_size (n_max n_templates n_data : Z) : result Z :=
  n_max <- (if n_templates <? n_max
            then x <- Py.truediv (n_max * n_max) n_templates ;;
                 Ok (Py.int_ (Py.half x))
            else Ok n_max) ;;
  find_optimal_chunksize n_max n_data.

Section Orchestrator.

Variable cfg : config.

(** What the probing loop of [estimate_gpu_capacity] returns on the
    device at hand. *)
Variable gpu_capacity : Z.

(** Whether [read_trace] returns a trace for a file, and the number of
    samples of that trace. *)
Variable readable : string -> bool.
Variable trace_len : string -> nat.

(** [hits file template trace]: the lines that [matrix_cc] writes for one
    pair, for the template read from [template] and filed under [file],
    in the chunk in which the run processes the pair.  The statements on
    this state machine are about the pointers and the caches of the
    loop, which the lines do not enter, or about runs that process
    every pair in one chunk only.  What another chunk does to the lines
    of a pair (the transform length of the chunk enters the correlation
    at lines 120, 145 and 319) is not a matter of this state machine: it
    is read off [matrix_cc] itself. *)
Variable hits : string -> string -> string -> list detection.

(** The device: [oom k] tells whether call [k] of [matrix_cc] runs out of
    device memory, and after how many written lines. *)
Variable oom : nat -> option nat.

Variable all_templates : list string.
Variable all_data : list string.

Let n_data : Z := Z.of_nat (length all_data).
Let n_templates : Z := Z.of_nat (length all_templates).

(** Lines 46-64. *)
Definition estimate_gpu_capacity : Z :=
  if use_cupy cfg then gpu_capacity else 30.

(** [read_bulk_data], the part the loop depends on: the traces that could
    not be read are dropped, and [None] is returned when none is left. *)
Definition read_bulk_data (files : list string) : option (list string) :=
  match filter readable files with
  | [] => None
  | l => Some l
  end.

(** The lines of one call of [matrix_cc] that runs to its end: for each
    trace, for each row of [temp_st], filed under the name at the row's
    position in [names]. *)
Definition chunk_lines (names tst dst : list string) : list detection :=
  flat_map (fun d =>
    flat_map (fun it =>
      match nth_error names (fst it) with
      | Some file => hits file (snd it) d
      | None => []
      end) (enumerate tst)) dst.

(** Lines 113-129. *)
Definition load_data (s : state) : state :=
  let want := py_slice all_data (di s) (di s + N_MAX s) in
  if list_eq_dec string_dec (data s) want then s
  else
    let dst := read_bulk_data want in
    let reset :=
      match dst with
      | Some st =>
          negb (next_fast_len (list_max (map trace_len st)) =? cc_len s)%nat
      | None => false
      end in
    {| N_MAX := N_MAX s; di := di s; ti := ti s; data := want;
       templates := if reset then [] else templates s;
       cc_len := match dst with
                 | Some st => next_fast_len (list_max (map trace_len st))
                 | None => cc_len s
                 end;
       data_st := Bound dst; temp_st := temp_st s;
       n_detections := n_detections s; written := written s;
       calls := calls s |}.

(** Lines 133-146. *)
Definition load_templates (s : state) : state * result unit :=
  let stale :=
    match templates s with
    | [] => Ok true
    | t0 :: _ =>
        match index all_templates (Z.to_nat (ti s)) with
        | Ok t => Ok (negb (String.eqb t0 t))
        | Raise e => Raise e
        end
    end in
  match stale with
  | Raise e => (s, Raise e)
  | Ok false => (s, Ok tt)
  | Ok true =>
      let want := py_slice all_templates (ti s) (ti s + N_MAX s) in
      let tst := read_bulk_data want in
      let s' :=
        {| N_MAX := N_MAX s; di := di s; ti := ti s; data := data s;
           templates := want; cc_len := cc_len s; data_st := data_st s;
           temp_st := Bound tst; n_detections := n_detections s;
           written := written s; calls := calls s |} in
      match tst with
      | None => (s', Raise AttributeError)
      | Some _ => (s', Ok tt)
      end
  end.

(** Lines 149-151: the call of [matrix_cc] on the loaded chunks. *)
Definition compute (s : state) (dst : list string) : state * result unit :=
  match temp_st s with
  | Unbound => (s, Raise UnboundLocalError)
  | Bound None => (s, Raise AttributeError)
  | Bound (Some tst) =>
      let lines := chunk_lines (templates s) tst dst in
      let count (s : state) (l : list detection) (n : Z) : state :=
        {| N_MAX := N_MAX s; di := di s; ti := ti s; data := data s;
           templates := templates s; cc_len := cc_len s;
           data_st := data_st s; temp_st := temp_st s;
           n_detections := n_detections s + n;
           written := written s ++ l; calls := S (calls s) |} in
      match oom (calls s) with
      | None => (count s lines (Z.of_nat (length lines)), Ok tt)
      | Some k => (count s (firstn k lines) 0, Raise OutOfMemoryError)
      end
  end.

(** Lines 159-177; [true] stands for [break]. *)
Definition advance (s : state) : state * bool :=
  let ti' := ti s + N_MAX s in
  if ti' >=? n_templates then
    let di' := di s + N_MAX s in
    if di' >=? n_data then
      ({| N_MAX := N_MAX s; di := di'; ti := ti'; data := data s;
          templates := templates s; cc_len := cc_len s;
          data_st := data_st s; temp_st := temp_st s;
          n_detections := n_detections s; written := written s;
          calls := calls s |}, true)
    else
      ({| N_MAX := N_MAX s; di := di'; ti := 0; data := data s;
          templates := templates s; cc_len := cc_len s;
          data_st := Unbound; temp_st := temp_st s;
          n_detections := n_detections s; written := written s;
          calls := calls s |}, false)
  else
    ({| N_MAX := N_MAX s; di := di s; ti := ti'; data := data s;
        templates := templates s; cc_len := cc_len s;
        data_st := data_st s; temp_st := Unbound;
        n_detections := n_detections s; written := written s;
        calls := calls s |}, false).

(** Lines 110-177, the body of the [try]: the state when it is left, and
    either whether the loop ends or the exception raised. *)
Definition try_body (s : state) : state * result bool :=
  let s := load_data s in
  match data_st s with
  | Unbound => (s, Raise UnboundLocalError)
  | Bound None => (fst (advance s), Ok (snd (advance s)))
  | Bound (Some dst) =>
      match load_templates s with
      | (s, Raise e) => (s, Raise e)
      | (s, Ok _) =>
          match compute s dst with
          | (s, Raise e) => (s, Raise e)
          | (s, Ok _) => (fst (advance s), Ok (snd (advance s)))
          end
      end
  end.

Inductive step_result : Type :=
| Continue (s : state)
| Stop (o : outcome).

(** Lines 180-200, the handler. *)
Definition recover (s : state) (e : exn) : step_result :=
  match e with
  | OutOfMemoryError =>
      if use_cupy cfg then
        match find_optimal_chunksize (N_MAX s - 1) (n_data - di s) with
        | Raise e' => Stop (Uncaught e' (written s))
        | Ok c =>
            let s' (tst : binding (option (list string))) :=
              {| N_MAX := c; di := di s; ti := ti s; data := [];
                 templates := []; cc_len := cc_len s; data_st := Unbound;
                 temp_st := tst; n_detections := n_detections s;
                 written := written s; calls := calls s |} in
            if c =? 0 then Stop (SysExit 1 (s' (temp_st s)))
            else
              match data_st s with
              | Unbound => Continue (s' (temp_st s))
              | Bound _ => Continue (s' Unbound)
              end
        end
      else Stop (Uncaught e (written s))
  | _ => Stop (Uncaught e (written s))
  end.

(** One turn of the [while True] loop. *)
Definition iteration (s : state) : step_result :=
  match try_body s with
  | (s', Ok true) => Stop (Returned s')
  | (s', Ok false) => Continue s'
  | (s', Raise e) => recover s' e
  end.

Fixpoint run (fuel : nat) (s : state) : outcome :=
  match fuel with
  | O => OutOfFuel
  | S fuel' =>
      match iteration s with
      | Continue s' => run fuel' s'
      | Stop o => o
      end
  end.

Definition initial (n_max : Z) : state :=
  {| N_MAX := n_max; di := 0; ti := 0; data := []; templates := [];
     cc_len := 0; data_st := Unbound; temp_st := Unbound;
     n_detections := 0; written := []; calls := 0 |}.

(** [match_templates], lines 78-209, on the list of template files and
    the list of day files that [prepare_data_list] found. *)
Definition match_templates (fuel : nat) : outcome :=
  match all_templates with
  | [] => Uncaught IndexError []
  | _ =>
      match all_data with
      | [] => Returned (initial 0)
      | _ =>
          match first_chunk_size estimate_gpu_capacity n_templates n_data
          with
          | Raise e => Uncaught e []
          | Ok n_max => run fuel (initial n_max)
          end
      end
  end.

End Orchestrator.


(** The lines of all pairs of a template and a readable day file, with
    every template filed under its own name. *)
Definition all_pair_lines (readable : string -> bool)
  (hits : string -> string -> string -> list detection)
  (all_templates all_data : list string) : list detection :=
  flat_map (fun d => flat_map (fun t => hits t t d) all_templates)
           (filter readable all_data).

(** ** What the orchestrator loop maintains *)

(** The chunk of [n] files that starts at pointer [p]. *)
Definition chunk_at (files : list string) (n p : Z) : list string :=
  py_slice files p (p + n).

Section LoopInvariant.

Variable readable : string -> bool.
Variable hits : string -> string -> string -> list detection.
Variable oom : nat -> option nat.
Variable all_templates : list string.
Variable all_data : list string.

(** What the loop knows about the cached template chunk [tm] and its
    loaded form [tst]: the cache is empty, or it is the chunk that starts
    at some [t0] and either it is still loaded and a row starts, or the
    row in progress is readable and [t0] is the chunk before the current
    one, or [t0] is not the first chunk and no call of [matrix_cc] comes
    before the next row. *)
Definition temp_inv (N d t : Z) (tm : list string)
  (tst : binding (option (list string))) : Prop :=
  tm = [] \/
  exists t0,
    0 <= t0 < Z.of_nat (length all_templates) /\
    tm = chunk_at all_templates N t0 /\
    ((tst = Bound (read_bulk_data readable tm) /\ t = 0 /\
      (t0 = 0 -> Z.of_nat (length all_templates) <= N)) \/
     (0 < t /\ t0 + N = t /\
      read_bulk_data readable (chunk_at all_data N d) <> None) \/
     (0 < t0 /\
      (t = 0 \/ read_bulk_data readable (chunk_at all_data N d) = None))).

(** What holds whenever the loop starts a turn: the pointers are in
    range, the caches are what they are taken for, every written line
    belongs to a pair, and the lines of every pair that the pointers have
    passed are written. *)
Record Inv (s : state) : Prop := {
  inv_nmax : 1 <= N_MAX s;
  inv_di : 0 <= di s < Z.of_nat (length all_data);
  inv_ti : 0 <= ti s < Z.of_nat (length all_templates);
  inv_data :
    data s = [] \/
    exists d0,
      0 <= d0 < Z.of_nat (length all_data) /\
      data s = chunk_at all_data (N_MAX s) d0 /\
      (d0 = di s -> data_st s = Bound (read_bulk_data readable (data s)));
  inv_temp : temp_inv (N_MAX s) (di s) (ti s) (templates s) (temp_st s);
  inv_sound :
    forall x, In x (written s) ->
              In x (all_pair_lines readable hits all_templates all_data);
  inv_cover :
    forall a b t d,
      nth_error all_templates a = Some t ->
      nth_error all_data b = Some d ->
      readable d = true ->
      Z.of_nat b < di s \/
      (di s <= Z.of_nat b < di s + N_MAX s /\ Z.of_nat a < ti s) ->
      incl (hits t t d) (written s)
}.

(** The measure that every turn decreases. *)
Definition fuel_of (s : state) : Z :=
  N_MAX s * ((Z.of_nat (length all_data) + 1)
             * (Z.of_nat (length all_templates) + 1))
  + (Z.of_nat (length all_data) - di s)
    * (Z.of_nat (length all_templates) + 1)
  + (Z.of_nat (length all_templates) - ti s).

(** The written lines are those of all pairs, as sets. *)
Definition complete (s : state) : Prop :=
  forall x, In x (written s) <->
            In x (all_pair_lines readable hits all_templates all_data).

(** The three ways a turn that starts with the invariant can end. *)
Inductive turn (s : state) : step_result -> Prop :=
| turn_continue (s' : state) :
    Inv s' -> fuel_of s' < fuel_of s -> turn s (Continue s')
| turn_return (s' : state) :
    complete s' -> turn s (Stop (Returned s'))
| turn_exhausted (w : list detection) :
    oom (calls s) <> None ->
    turn s (Stop (Uncaught ZeroDivisionError w)).

End LoopInvariant.

Arguments inv_nmax {readable hits all_templates all_data s} _.
Arguments inv_di {readable hits all_templates all_data s} _.
Arguments inv_ti {readable hits all_templates all_data s} _.
Arguments inv_data {readable hits all_templates all_data s} _.
Arguments inv_temp {readable hits all_templates all_data s} _.
Arguments inv_sound {readable hits all_templates all_data s} _ x _.
Arguments inv_cover {readable hits all_templates all_data s} _ a b t d _ _ _ _.

(** A day file contributes one line per template; the start time tells
    the day files apart. *)
Definition one_line_per_pair (file template trace : string)
  : list detection :=
  [ {| det_file := file;
       det_start := inject_Z (Z.of_nat (String.length trace));
       det_lag := 0; det_cc := 1; det_mad := None; det_amp := 1 |} ].

(** ** A reference back end *)

(** A square root on the rationals, rounded down to a multiple of
    [2^-30 / den]; it is exact on the squares of rationals. *)
Definition qsqrt (x : Q) : Q :=
  Z.sqrt (Qnum x * Zpos (Qden x) * 2 ^ 60) # (Qden x * 2 ^ 30).

(** [sin(pi * y)] for [0 <= y <= 1] by Bhaskara's rational formula: it
    is exact at the multiples of a sixth and of a half, where the sine is
    rational, and within 0.002 of the sine elsewhere. *)
Definition sin_pi (y : Q) : Q :=
  (16 * y * (1 - y) / (5 - 4 * y * (1 - y)))%Q.

(** [cos(2 * pi * n / L)], through [cos(2 pi g) = sin(pi (1/2 - 2 g))]
    for [g] up to half a turn: exact at the multiples of a quarter and of
    a sixth of a turn. *)
Definition cos_turn (L n : nat) : Q :=
  match L with
  | O => 1%Q
  | _ =>
      let f := (Z.of_nat (n mod L) # Pos.of_nat L)%Q in
      let g := if Qle_bool f (1 # 2) then f else (1 - f)%Q in
      let y := ((1 # 2) - 2 * g)%Q in
      if Qle_bool 0 y then sin_pi y else (- sin_pi (- y))%Q
  end.

(** Lines 145-146 and 319.  The spectrum of the template is reversed,
    [fft(t, n=L)[::-1]], which puts the entry of frequency [-(j + 1)] at
    position [j]; with the spectrum of the trace, the inverse transform
    of the product is the sliding inner product of the trace with the
    template times [exp(2 pi i n / L)].  Sample [k] of its real part is
    the sum of [t[n] * cos(2 pi n / L) * d[(n + k) mod L]], on the trace
    padded with zeros to [L] samples. *)
Definition circular_xcorr (t d : list Q) (L k : nat) : Q :=
  Arr.sum (map (fun n => nth n t 0 * cos_turn L n
                         * nth ((n + k) mod L) d 0)%Q
               (seq 0 (length t))).

(** A device with the machine epsilon of float32 ([2^-23]), exact
    division, an inverse transform that comes back in single precision,
    and the correlation of the source with the rational cosines. *)
Definition reference_backend : backend :=
  {| b_sqrt := qsqrt;
     b_div := Qdiv;
     b_eps := 1 # (2 ^ 23);
     b_cc_is_float := false;
     b_xcorr := circular_xcorr |}.

(** ** Reference quantities of the statements *)

(** The sum of the squares of the [N] samples from [k] on. *)
Definition energy (data : list Q) (k N : nat) : Q :=
  fold_right Qplus 0%Q (map (fun i => (nth i data 0%Q) ^ 2)%Q (seq k N)).

(** A lag after the check of lines 333-337. *)
Definition clipped (c : Q) : Q :=
  if Arr.ltb (101 # 100) (Qabs c) then 0%Q else c.

(** A computation that returns the number of lines it wrote. *)
Definition counted (m : io Z) : Prop :=
  snd m = Ok (Z.of_nat (length (matches (fst m)))).

(** What one turn of the outer loop of [matrix_cc] writes. *)
Definition trace_lines (be : backend) (cfg : config) (templates : array2)
  (temp_files : list string) (t_data : list Q) (cc_len : nat)
  (jd : nat * list Q) : list detection :=
  flat_map (fun it =>
              if (length (snd jd) <? a_cols templates)%nat then []
              else pair_lines be cfg temp_files t_data cc_len
                     (a_cols templates) (fst jd) (snd jd) (fst it) (snd it))
           (enumerate (a_rows templates)).

(** ** Run reduction: what a flag stands for *)

(** Every lag from [w] to [z] reaches the threshold: the two lags are in
    one run. *)
Definition in_run (abs_cc : list Q) (thr : Q) (w z : nat) : Prop :=
  forall v, (w <= v <= z)%nat -> (thr <= nth v abs_cc 0)%Q.

(** Lag [z] reaches the threshold and exceeds every earlier lag of its
    run. *)
Definition run_record (abs_cc : list Q) (thr : Q) (z : nat) : Prop :=
  (z < length abs_cc)%nat /\ (thr <= nth z abs_cc 0)%Q /\
  forall w, (w < z)%nat -> in_run abs_cc thr w z ->
            (nth w abs_cc 0 < nth z abs_cc 0)%Q.

(** A record that the next lag does not exceed. *)
Definition run_flag (abs_cc : list Q) (thr : Q) (z : nat) : Prop :=
  run_record abs_cc thr z /\
  ~ ((z + 1 < length abs_cc)%nat /\
     (nth z abs_cc 0 < nth (z + 1) abs_cc 0)%Q).

(** ** The padding, statement by statement *)

Module Slices.

(** [a[start:stop] = v] on a one-dimensional array: the slice takes an
    array of its own length or a single entry, which is broadcast.  No
    [stop] stands for the end of the array. *)
Definition set_slice (a : list Q) (start : Z) (stop : option Z)
  (v : list Q) : result (list Q) :=
  let len := Z.of_nat (length a) in
  let lo := Z.to_nat (Py.slice_index len start) in
  let hi := match stop with
            | Some s => Z.to_nat (Py.slice_index len s)
            | None => length a
            end in
  let n := (hi - lo)%nat in
  if (length v =? n)%nat then Ok (firstn lo a ++ v ++ skipn (lo + n) a)
  else match v with
       | [x] => Ok (firstn lo a ++ repeat x n ++ skipn (lo + n) a)
       | _ => Raise ValueError
       end.

(** [pad_zeros], lines 356-365, with its two branches: the slice ends
    [num2] entries before the end of the array, or at the end when
    [num2] is zero. *)
Definition pad_zeros (a : list Q) (M num : nat) (num2 : option nat)
  : result (list Q) :=
  let num2 := match num2 with None => num | Some n => n end in
  let padded := Arr.zeros (M + num + num2) in
  if (num2 =? 0)%nat
  then set_slice padded (Z.of_nat num) None a
  else set_slice padded (Z.of_nat num) (Some (- Z.of_nat num2)) a.

End Slices.

(** ** The capacity probe *)

(** Lines 55-64 of [estimate_gpu_capacity], the probing loop.  [alloc n]
    tells whether the device grants the array that the turn with
    [N_MAX = n] asks for.  The loop has no bound of its own; [None]
    stands for a run that has not ended after [fuel] turns. *)
Fixpoint probe (alloc : Z -> bool) (fuel : nat) (N_MAX : Z) : option Z :=
  match fuel with
  | O => None
  | S fuel' =>
      if alloc N_MAX then probe alloc fuel' (N_MAX + 1)
      else Some (N_MAX - 1)
  end.

(** [int(x)] on a float: truncation towards zero. *)
Definition int_of_Q (x : Q) : Z := Z.quot (Qnum x) (Zpos (Qden x)).

(** [estimate_gpu_capacity(self, sample_rate)], lines 46-64, for a
    sample rate that is not negative, on a device that grants the array
    of [cc_len * n * n] complex entries when [alloc cc_len n] holds. *)
Definition probe_gpu_capacity (cfg : config) (alloc : nat -> Z -> bool)
  (sample_rate : Q) (fuel : nat) : option Z :=
  if negb (use_cupy cfg) then Some 30
  else
    let n_samples := int_of_Q (sample_rate * 86400) in
    let cc_len := next_fast_len (Z.to_nat n_samples) in
    probe (alloc cc_len) fuel 1.

(** ** The pointers of the orchestrator loop *)

(** Two states with the same chunk size and pointers. *)
Definition same_pointers (s s' : state) : Prop :=
  N_MAX s' = N_MAX s /\ di s' = di s /\ ti s' = ti s.

(** What the pointers satisfy whenever the loop starts a turn. *)
Definition in_range (all_templates all_data : list string) (s : state)
  : Prop :=
  1 <= N_MAX s /\
  0 <= di s < Z.of_nat (length all_data) /\
  0 <= ti s < Z.of_nat (length all_templates).

(** The lines of the pairs that lie behind the pointers: all templates
    against the day files before [d], and the templates before [t]
    against the chunk of day files at [d]. *)
Definition lines_behind (readable : string -> bool)
  (hits : string -> string -> string -> list detection)
  (all_templates all_data : list string) (N d t : Z) : list detection :=
  all_pair_lines readable hits all_templates
                 (firstn (Z.to_nat d) all_data) ++
  all_pair_lines readable hits (firstn (Z.to_nat t) all_templates)
                 (chunk_at all_data N d).

(** The log holds the lines of the pairs behind the pointers, once each,
    and the counter is its length. *)
Definition logged_once (readable : string -> bool)
  (hits : string -> string -> string -> list detection)
  (all_templates all_data : list string) (s : state) : Prop :=
  Permutation (written s)
    (lines_behind readable hits all_templates all_data
                  (N_MAX s) (di s) (ti s)) /\
  n_detections s = Z.of_nat (length (written s)).

(** * data_handling.py: the files of a chunk *)

Module DataHandler.

(** What the matcher uses of an ObsPy trace: the samples, the start time
    and the sample count of the header. *)
Record trace : Type := {
  tr_data : list Q;
  starttime : Q;
  npts : nat
}.

(** What [read_bulk_data] returns next to the start times: a list of
    arrays, or one two-dimensional array. *)
Inductive bulk : Type :=
| Arrays (l : list (list Q))
| Matrix (a : array2).

Section Reading.

(** [read_trace(f)]: the first trace of the file, or [None] when reading
    raised; [filter_trace(tr)]: the trace after detrending, band-pass
    and decimation. *)
Variable read_trace : string -> option trace.
Variable filter_trace : trace -> trace.

(** [read_and_filter_trace], lines 282-286. *)
Definition read_and_filter_trace (f : string) : option trace :=
  option_map filter_trace (read_trace f).

(** Lines 237-250: the files are read in order, with or without a pool,
    and the traces that could not be read are dropped. *)
Definition read_all (files : list string) (bandpass : bool) : list trace :=
  let data_tr :=
    if bandpass then map read_and_filter_trace files
    else map read_trace files in
  flat_map (fun tr => match tr with Some t => [t] | None => [] end) data_tr.

(** One row of the [make_equal_length] array, lines 261-263: the samples
    are written one by one into a row of [max_len] zeros. *)
Definition fill_row (max_len : nat) (samples : list Q)
  : result (list Q) :=
  if (length samples <=? max_len)%nat
  then Ok (samples ++ Arr.zeros (max_len - length samples))
  else Raise IndexError.

(** [read_bulk_data(self, files, pool, method, bandpass)], lines
    233-269.  The result [None] stands for the pair [(None, None)]; a
    method that assigns no [data] leaves the [return] without its
    variable. *)
Definition read_bulk_data (files : list string) (method : string)
  (bandpass : bool) : result (option (bulk * list Q)) :=
  let data_tr := read_all files bandpass in
  match data_tr with
  | [] => Ok None
  | _ =>
      if String.eqb method "assume_equal_length" then
        Ok (Some (Arrays (map tr_data data_tr), map starttime data_tr))
      else if String.eqb method "make_equal_length" then
        let max_len := list_max (map npts data_tr) in
        rows <- mapM (fun tr => fill_row max_len (tr_data tr)) data_tr ;;
        Ok (Some (Matrix {| a_cols := max_len; a_rows := rows |},
                  map starttime data_tr))
      else Raise UnboundLocalError
  end.

End Reading.

Section DataList.

(** [regex.match(fname)] for the pattern of one day, which
    [construct_data_path] builds from the year and the day of the year;
    a day is its number in the calendar. *)
Variable day_matches : Z -> string -> bool.

(** Lines 220-223: the first file of the listing that matches the day. *)
Definition first_match (d_files : list string) (date : Z) : list string :=
  match find (day_matches date) d_files with
  | Some fname => [fname]
  | None => []
  end.

(** [prepare_data_list], lines 202-231, on the listing [d_files] that
    [glob] returns: the [while] loop visits the days from [start] to
    [end], here [stop]. *)
Definition prepare_data_list (d_files : list string) (start stop : Z)
  : list string :=
  flat_map (first_match d_files)
           (map (fun i => start + Z.of_nat i)
                (seq 0 (Z.to_nat (stop - start + 1)))).

End DataList.

End DataHandler.

(** * common.py and scripts/match_templates.py *)

(** The [while True] loop of [chunks], common.py lines 48-52: [islice]
    takes the next [N] items, and the first empty chunk ends the loop.
    [fuel] bounds the number of turns. *)
Fixpoint chunks_loop {A : Type} (fuel : nat) (data : list A) (N : nat)
  : list (list A) :=
  match fuel with
  | O => []
  | S fuel' =>
      match firstn N data with
      | [] => []
      | chunk => chunk :: chunks_loop fuel' (skipn N data) N
      end
  end.

(** [chunks(data, N)], common.py lines 44-52, consumed to its end.
    [islice] rejects a negative count; one turn more than there are
    items lets the loop reach its end. *)
Definition chunks {A : Type} (data : list A) (N : Z)
  : result (list (list A)) :=
  if N <? 0 then Raise ValueError
  else Ok (chunks_loop (S (length data)) data (Z.to_nat N)).

(** [main] of match_templates.py, lines 50-56: the groups of templates
    are split into chunks of [int(np.ceil(len(template_groups) / n_gpu))]
    groups, and [zip] pairs the chunks with the devices. *)
Definition assign_devices {A : Type} (template_groups : list A)
  (n_gpu : Z) (cuda_devices : list Z) : result (list (list A * Z)) :=
  x <- Py.truediv (Z.of_nat (length template_groups)) n_gpu ;;
  let chunksize := Py.int_ (Py.ceil x) in
  temp_lists <- chunks template_groups chunksize ;;
  Ok (combine temp_lists cuda_devices).

Module Str.

(** [s.split(sep)] for a separator of one character: the pieces between
    the separators, empty ones included. *)
Fixpoint split (sep : ascii) (s : string) : list string :=
  match s with
  | EmptyString => [EmptyString]
  | String c s' =>
      if Ascii.eqb c sep then EmptyString :: split sep s'
      else match split sep s' with
           | [] => [String c EmptyString]
           | p :: ps => String c p :: ps
           end
  end.

(** [sep.join(parts)]. *)
Fixpoint join (sep : ascii) (parts : list string) : string :=
  match parts with
  | [] => EmptyString
  | [p] => p
  | p :: ps => (p ++ String sep (join sep ps))%string
  end.

End Str.

(** [list.sort()] on times. *)
Fixpoint insert_asc (t : Z) (l : list Z) : list Z :=
  match l with
  | [] => [t]
  | x :: l' => if t <=? x then t :: l else x :: insert_asc t l'
  end.

Definition sort_asc (l : list Z) : list Z := fold_right insert_asc [] l.

(** [sort_unique(times)], match_templates.py lines 80-87; a time is a
    number. *)
Definition sort_unique (times : list Z) : list Z :=
  let list_out :=
    fold_left (fun out t => if existsb (Z.eqb t) out then out
                            else out ++ [t]) times [] in
  sort_asc list_out.

Section Grouping.

(** The order in which a [set] of strings is iterated: some order
    without repetition. *)
Variable set_order : list string -> list string.

(** Column [i] of the array of name parts. *)
Definition column (i : nat) (rows : list (list string)) : list string :=
  map (fun r => nth i r EmptyString) rows.

(** [rows[np.where(rows[:, i] == v)]]. *)
Definition select (i : nat) (v : string) (rows : list (list string))
  : list (list string) :=
  filter (fun r => String.eqb (nth i r EmptyString) v) rows.

(** [group_by_channel_length(template_files)], match_templates.py lines
    101-116, consumed to its end.  The names are split at the
    underscores into a two-dimensional array, which needs as many parts
    in every name (a ragged list is refused, as an inhomogeneous shape
    or at the first column index); the groups come in the order of the
    two sets. *)
Definition group_by_channel_length (template_files : list string)
  : result (list (list string)) :=
  let rows := map (Str.split "_") template_files in
  match rows with
  | [] => Raise IndexError
  | r0 :: _ =>
      if negb (forallb (fun r => (length r =? length r0)%nat) rows)
      then Raise ValueError
      else if (length r0 <? 3)%nat then Raise IndexError
      else
        Ok (flat_map
              (fun cha =>
                 let cha_temps := select 0 cha rows in
                 map (fun temp_len =>
                        map (Str.join "_") (select 2 temp_len cha_temps))
                     (set_order (column 2 cha_temps)))
              (set_order (column 0 rows)))
  end.

End Grouping.

(** Line 80 of [match_templates]: the channel that the day files are
    listed for, [all_templates[0].split('_')[0]]. *)
Definition waveform_id (all_templates : list string) : result string :=
  match all_templates with
  | [] => Raise IndexError
  | t :: _ => Ok (nth 0 (Str.split "_" t) EmptyString)
  end.

(** ** Instances for the examples *)

(** Two template files and one file that cannot be read. *)
Definition sample_read (f : string) : option DataHandler.trace :=
  if String.eqb f "a" then
    Some {| DataHandler.tr_data := [1; 2]%Q;
            DataHandler.starttime := 0;
            DataHandler.npts := 2 |}
  else if String.eqb f "b" then
    Some {| DataHandler.tr_data := [3]%Q;
            DataHandler.starttime := 10;
            DataHandler.npts := 1 |}
  else if String.eqb f "day" then
    Some {| DataHandler.tr_data := [0; 1; 2; 0; 0]%Q;
            DataHandler.starttime := 86400;
            DataHandler.npts := 5 |}
  else None.

(** * Proofs *)

(** ** ChunkPlanner *)

Lemma ceil_div_spec (a b : Z) :
  0 < b -> b * (ceil_div a b - 1) < a <= b * ceil_div a b.
Proof.
  intros Hb. unfold ceil_div.
  pose proof (Z.div_mod (- a) b ltac:(lia)) as E.
  pose proof (Z.mod_pos_bound (- a) b Hb) as B.
  nia.
Qed.

Lemma ceil_div_unique (a b c : Z) :
  0 < b -> b * (c - 1) < a <= b * c -> ceil_div a b = c.
Proof.
  intros Hb H. pose proof (ceil_div_spec a b Hb) as S. nia.
Qed.

(** *** The double quotient of two integers *)

Lemma scale_up (p q e : Z) : 0 <= e -> Py.scale p q e = (p, q * 2 ^ e).
Proof.
  intros H. unfold Py.scale. rewrite (Z.max_l 0 (- e)) by lia.
  rewrite (Z.max_r 0 e) by lia. now rewrite Z.mul_1_r.
Qed.

Lemma scale_down (p q e : Z) : e <= 0 -> Py.scale p q e = (p * 2 ^ (- e), q).
Proof.
  intros H. unfold Py.scale. rewrite (Z.max_r 0 (- e)) by lia.
  rewrite (Z.max_l 0 e) by lia. now rewrite Z.mul_1_r.
Qed.

Lemma pow2_pos (e : Z) : 0 <= e -> 0 < 2 ^ e.
Proof. intros. apply Z.pow_pos_nonneg; lia. Qed.

Lemma binade_spec (p q : Z) :
  0 < p -> 0 < q ->
  2 ^ 52 * snd (Py.scale p q (Py.binade p q))
    <= fst (Py.scale p q (Py.binade p q))
    < 2 ^ 53 * snd (Py.scale p q (Py.binade p q)).
Proof.
  intros Hp Hq. unfold Py.binade.
  pose proof (Z.log2_spec p Hp) as Lp. pose proof (Z.log2_spec q Hq) as Lq.
  pose proof (Z.log2_nonneg p) as Np. pose proof (Z.log2_nonneg q) as Nq.
  rewrite Z.pow_succ_r in Lp, Lq by assumption.
  set (lp := Z.log2 p) in *. set (lq := Z.log2 q) in *.
  set (e0 := lp - lq - 52).
  assert (P52 : 2 ^ 52 = 2 * 2 ^ 51) by reflexivity.
  assert (P53 : 2 ^ 53 = 4 * 2 ^ 51) by reflexivity.
  assert (P51 : 0 < 2 ^ 51) by reflexivity.
  pose proof (pow2_pos lq Nq) as Plq.
  destruct (Z.le_gt_cases 0 e0) as [E|E].
  - assert (Y : 2 ^ lp = 2 ^ lq * 2 ^ e0 * 2 ^ 52).
    { rewrite <- !Z.pow_add_r by lia. f_equal. unfold e0. lia. }
    pose proof (pow2_pos e0 E) as Pe.
    rewrite (scale_up p q e0 E). cbn [fst snd].
    destruct (p <? 2 ^ 52 * (q * 2 ^ e0)) eqn:T.
    + apply Z.ltb_lt in T.
      destruct (Z.eq_dec e0 0) as [Z0|Z0].
      * rewrite (scale_down p q (e0 - 1)) by lia. cbn [fst snd].
        replace (- (e0 - 1)) with 1 by lia. rewrite Z0 in *.
        change (2 ^ 0) with 1 in *. change (2 ^ 1) with 2. nia.
      * rewrite (scale_up p q (e0 - 1)) by lia. cbn [fst snd].
        assert (D : 2 ^ e0 = 2 * 2 ^ (e0 - 1)).
        { rewrite <- Z.pow_succ_r by lia. f_equal. lia. }
        pose proof (pow2_pos (e0 - 1) ltac:(lia)) as Pe1.
        set (u := 2 ^ (e0 - 1)) in *. set (v := 2 ^ e0) in *.
        set (w := 2 ^ lq) in *. set (x := 2 ^ lp) in *. nia.
    + apply Z.ltb_ge in T. rewrite (scale_up p q e0 E). cbn [fst snd].
      split; [exact T|].
      set (v := 2 ^ e0) in *. set (w := 2 ^ lq) in *. set (x := 2 ^ lp) in *.
      nia.
  - assert (Y : 2 ^ lp * 2 ^ (- e0) = 2 ^ lq * 2 ^ 52).
    { rewrite <- !Z.pow_add_r by lia. f_equal. unfold e0. lia. }
    pose proof (pow2_pos (- e0) ltac:(lia)) as Pe.
    rewrite (scale_down p q e0) by lia. cbn [fst snd].
    destruct (p * 2 ^ (- e0) <? 2 ^ 52 * q) eqn:T.
    + apply Z.ltb_lt in T.
      rewrite (scale_down p q (e0 - 1)) by lia. cbn [fst snd].
      assert (D : 2 ^ (- (e0 - 1)) = 2 * 2 ^ (- e0)).
      { rewrite <- Z.pow_succ_r by lia. f_equal. lia. }
      rewrite D.
      set (v := 2 ^ (- e0)) in *. set (w := 2 ^ lq) in *.
      set (x := 2 ^ lp) in *. nia.
    + apply Z.ltb_ge in T. rewrite (scale_down p q e0) by lia.
      cbn [fst snd]. split; [exact T|].
      set (v := 2 ^ (- e0)) in *. set (w := 2 ^ lq) in *.
      set (x := 2 ^ lp) in *. nia.
Qed.

Lemma round_half_even_cases (n q : Z) :
  0 < q ->
  Py.round_half_even n q = n / q \/
  (Py.round_half_even n q = n / q + 1 /\ q <= 2 * (n mod q)).
Proof.
  intros Hq. unfold Py.round_half_even.
  destruct (2 * (n mod q) ?= q) eqn:C.
  - apply Z.compare_eq in C. destruct (Z.even (n / q)); [now left|].
    right. split; [reflexivity | lia].
  - now left.
  - right. split; [reflexivity|]. apply Z.compare_gt_iff in C. lia.
Qed.

Lemma round_half_even_nonneg (n q : Z) :
  0 <= n -> 0 < q -> 0 <= Py.round_half_even n q.
Proof.
  intros Hn Hq. pose proof (Z.div_pos n q Hn Hq).
  destruct (round_half_even_cases n q Hq) as [->|(-> & _)]; lia.
Qed.

(** Rounding the scaled quotient and dropping [w + j] bits is the floor
    of the quotient by [q * 2^j], as long as [q] is below [2 * 2^w]. *)
Lemma round_then_floor (p q W J : Z) :
  0 <= p -> 0 < q -> 0 < W -> 0 < J -> q < 2 * W ->
  Py.round_half_even (p * W) q / (W * J) = p / (q * J).
Proof.
  intros Hp Hq HW HJ B.
  set (n := p * W). set (k := p / (q * J)).
  pose proof (Z.div_mod p (q * J) ltac:(nia)) as E.
  pose proof (Z.mod_pos_bound p (q * J) ltac:(nia)) as R. fold k in E.
  pose proof (Z.div_mod n q ltac:(lia)) as En.
  pose proof (Z.mod_pos_bound n q Hq) as Rn.
  assert (0 <= k) by (apply Z.div_pos; nia).
  symmetry. apply Z.div_unique with
    (r := Py.round_half_even n q - (W * J) * k).
  - left.
    destruct (round_half_even_cases n q Hq) as [->|(-> & Half)].
    + split.
      * assert (k * (W * J) <= n / q); [|lia].
        apply Z.div_le_lower_bound; [lia|]. unfold n. nia.
      * assert (n / q < (k + 1) * (W * J)); [|lia].
        apply Z.div_lt_upper_bound; [lia|]. unfold n. nia.
    + split.
      * assert (k * (W * J) <= n / q); [|lia].
        apply Z.div_le_lower_bound; [lia|]. unfold n. nia.
      * assert (n / q + 1 < (k + 1) * (W * J)); [|lia].
        destruct (Z.lt_ge_cases (n / q + 1) ((k + 1) * (W * J))) as [L|L];
          [exact L|exfalso].
        assert (q * ((k + 1) * (W * J)) <= q * (n / q) + q) by nia.
        assert (n + W <= q * ((k + 1) * (W * J))) by (unfold n; nia).
        lia.
  - lia.
Qed.

Lemma pow2_ge_2 (e : Z) : 1 <= e -> 2 <= 2 ^ e.
Proof.
  intros H. replace e with (Z.succ (e - 1)) by lia.
  rewrite Z.pow_succ_r by lia. pose proof (pow2_pos (e - 1) ltac:(lia)). lia.
Qed.

(** The double nearest to [p / q], for a dividend below 2^53: it is
    finite, its integer part is the floor of the quotient, and so is the
    integer part of its half when the quotient is at least 1. *)
Lemma nearest_floor (p q : Z) :
  0 < p < 2 ^ 53 -> 0 < q ->
  let x := Py.nearest p q in
  0 <= Py.f_man x /\
  Py.f_man x * 2 ^ Z.max 0 (Py.f_exp x) < 2 ^ 1024 /\
  Py.int_ x = p / q /\
  (q <= p -> Py.int_ (Py.half x) = p / (2 * q)).
Proof.
  intros Hp Hq. cbn zeta.
  pose proof (binade_spec p q ltac:(lia) Hq) as B.
  unfold Py.nearest, Py.int_, Py.half. cbn [Py.f_man Py.f_exp].
  set (b := Py.binade p q) in *.
  assert (Big : 2 ^ 53 < 2 ^ 1024) by (apply Z.pow_lt_mono_r; lia).
  destruct (Z.le_gt_cases 0 b) as [E|E].
  - (* the quotient is at least 2^52: the divisor is 1 *)
    rewrite (Z.max_l b Py.min_exp) by (unfold Py.min_exp; lia).
    rewrite (scale_up p q b E) in *. cbn [fst snd] in *.
    assert (b = 0) as ->.
    { destruct (Z.eq_dec b 0) as [|N]; [assumption|exfalso].
      pose proof (pow2_ge_2 b ltac:(lia)).
      change (2 ^ 52) with 4503599627370496 in B.
      change (2 ^ 53) with 9007199254740992 in Hp. nia. }
    change (2 ^ 0) with 1 in *. rewrite Z.mul_1_r in *.
    assert (q = 1) as ->.
    { change (2 ^ 52) with 4503599627370496 in B.
      change (2 ^ 53) with 9007199254740992 in Hp. nia. }
    assert (Py.round_half_even p 1 = p) as ->.
    { unfold Py.round_half_even. rewrite Z.mod_1_r, Z.div_1_r. reflexivity. }
    change (Z.max 0 0) with 0. change (2 ^ 0) with 1.
    rewrite !Z.mul_1_r. cbn [Z.leb Z.compare].
    split; [lia|]. split; [lia|]. split; [now rewrite Z.div_1_r|].
    intros _. change (Py.min_exp <? 0) with true. cbn [Py.f_man Py.f_exp].
    change (0 <=? 0 - 1) with false. change (2 ^ (- (0 - 1))) with 2.
    rewrite Z.quot_div_nonneg by lia. reflexivity.
  - destruct (Z.le_gt_cases Py.min_exp b) as [M|M].
    + (* a normal quotient below 2^52 *)
      rewrite (Z.max_l b Py.min_exp) by lia.
      rewrite (scale_down p q b) in * by lia. cbn [fst snd] in *.
      pose proof (pow2_pos (- b) ltac:(lia)) as PW.
      set (W := 2 ^ (- b)) in *.
      assert (q < 2 * W).
      { change (2 ^ 52) with 4503599627370496 in B.
        change (2 ^ 53) with 9007199254740992 in *. nia. }
      pose proof (round_half_even_nonneg (p * W) q ltac:(nia) Hq) as Nn.
      assert ((0 <=? b) = false) as -> by (apply Z.leb_gt; lia).
      rewrite (Z.max_l 0 b) by lia. change (2 ^ 0) with 1.
      rewrite Z.mul_1_r.
      split; [exact Nn|]. split.
      { destruct (round_half_even_cases (p * W) q Hq) as [->|(-> & _)].
        - assert (p * W / q < 2 ^ 53); [|lia].
          apply Z.div_lt_upper_bound; lia.
        - assert (p * W / q < 2 ^ 53); [|lia].
          apply Z.div_lt_upper_bound; lia. }
      split.
      { rewrite Z.quot_div_nonneg by lia.
        pose proof (round_then_floor p q W 1 ltac:(lia) Hq PW ltac:(lia)
                                      ltac:(lia)) as R.
        now rewrite !Z.mul_1_r in R. }
      intros Le.
      assert (- b < 53).
      { destruct (Z.lt_ge_cases (- b) 53) as [|G]; [assumption|exfalso].
        assert (2 ^ 53 <= W)
          by (unfold W; apply Z.pow_le_mono_r; lia).
        nia. }
      assert ((Py.min_exp <? b) = true) as ->
        by (apply Z.ltb_lt; unfold Py.min_exp; lia).
      cbn [Py.f_man Py.f_exp].
      assert ((0 <=? b - 1) = false) as -> by (apply Z.leb_gt; lia).
      replace (- (b - 1)) with (Z.succ (- b)) by lia.
      rewrite Z.pow_succ_r by lia. fold W.
      rewrite Z.quot_div_nonneg by lia.
      rewrite (Z.mul_comm 2 W), (Z.mul_comm 2 q).
      apply round_then_floor; lia.
    + (* below the least normal double: the integer part is 0 *)
      rewrite (Z.max_r b Py.min_exp) by lia.
      rewrite (scale_down p q b) in B by lia. cbn [fst snd] in B.
      rewrite (scale_down p q Py.min_exp) by (unfold Py.min_exp; lia).
      cbn [fst snd].
      pose proof (pow2_pos (- Py.min_exp) ltac:(unfold Py.min_exp; lia))
        as PW.
      set (W := 2 ^ (- Py.min_exp)) in *.
      assert (Wb : 2 ^ (- b) = W * 2 ^ (- b + Py.min_exp)).
      { unfold W. rewrite <- Z.pow_add_r by (unfold Py.min_exp in *; lia).
        f_equal. lia. }
      pose proof (pow2_ge_2 (- b + Py.min_exp) ltac:(lia)) as G2.
      assert (W52 : 2 ^ 53 < W)
        by (unfold W; apply Z.pow_lt_mono_r; unfold Py.min_exp; lia).
      assert (Sm : 2 * (p * W) < 2 ^ 53 * q).
      { rewrite Wb in B. set (v := 2 ^ (- b + Py.min_exp)) in *. nia. }
      pose proof (round_half_even_nonneg (p * W) q ltac:(nia) Hq) as Nn.
      assert (Up : Py.round_half_even (p * W) q < 2 ^ 53).
      { assert (p * W / q < 2 ^ 52).
        { apply Z.div_lt_upper_bound; [lia|].
          change (2 ^ 53) with (2 * 2 ^ 52) in Sm. lia. }
        change (2 ^ 53) with (2 ^ 52 + 2 ^ 52).
        assert (0 < 2 ^ 52) by reflexivity.
        destruct (round_half_even_cases (p * W) q Hq) as [->|(-> & _)]; lia. }
      assert ((0 <=? Py.min_exp) = false) as -> by reflexivity.
      rewrite (Z.max_l 0 Py.min_exp) by (unfold Py.min_exp; lia).
      change (2 ^ 0) with 1. rewrite Z.mul_1_r.
      split; [exact Nn|]. split; [lia|].
      assert (p < q).
      { change (2 ^ 53) with 9007199254740992 in *. nia. }
      split; [|intros; lia].
      rewrite Z.quot_div_nonneg by lia.
      rewrite (Z.div_small p q) by lia. apply Z.div_small. lia.
Qed.

Lemma scale_pos (p q e : Z) :
  0 <= p -> 0 < q -> 0 <= fst (Py.scale p q e) /\ 0 < snd (Py.scale p q e).
Proof.
  intros Hp Hq. unfold Py.scale. cbn [fst snd].
  pose proof (pow2_pos (Z.max 0 (- e)) ltac:(lia)).
  pose proof (pow2_pos (Z.max 0 e) ltac:(lia)). nia.
Qed.

Lemma nearest_nonneg (p q : Z) :
  0 <= p -> 0 < q -> 0 <= Py.f_man (Py.nearest p q).
Proof.
  intros Hp Hq. unfold Py.nearest. cbn [Py.f_man].
  destruct (scale_pos p q (Z.max (Py.binade p q) Py.min_exp) Hp Hq).
  now apply round_half_even_nonneg.
Qed.

Lemma nearest_zero (q : Z) : 0 < q -> Py.f_man (Py.nearest 0 q) = 0.
Proof.
  intros Hq. unfold Py.nearest. cbn [Py.f_man].
  destruct (scale_pos 0 q (Z.max (Py.binade 0 q) Py.min_exp) ltac:(lia) Hq)
    as (_ & D).
  unfold Py.scale in *. cbn [fst snd] in *. rewrite Z.mul_0_l.
  unfold Py.round_half_even. rewrite Z.mod_0_l, Z.div_0_l by lia.
  rewrite Z.mul_0_r.
  now destruct (Z.compare_spec
                  0 (q * 2 ^ Z.max 0 (Z.max (Py.binade 0 q) Py.min_exp)));
    try lia.
Qed.

Lemma int_zero (e : Z) : Py.int_ {| Py.f_man := 0; Py.f_exp := e |} = 0.
Proof.
  unfold Py.int_. cbn [Py.f_man Py.f_exp].
  destruct (0 <=? e) eqn:E; [apply Z.mul_0_l|].
  apply Z.leb_gt in E. apply Z.quot_0_l.
  pose proof (pow2_pos (- e) ltac:(lia)). lia.
Qed.

Lemma int_truediv_floor (a b : Z) :
  0 <= a < 2 ^ 53 -> 0 < b -> Py.int_truediv a b = Ok (a / b).
Proof.
  intros Ha Hb. unfold Py.int_truediv, Py.truediv.
  assert ((b =? 0) = false) as -> by (apply Z.eqb_neq; lia).
  rewrite (Z.abs_eq a), (Z.abs_eq b) by lia.
  rewrite (Z.sgn_pos b) by lia. rewrite Z.mul_1_r.
  destruct (Z.eq_dec a 0) as [->|N].
  - rewrite (nearest_zero b Hb). cbn [Z.sgn Z.mul].
    assert ((2 ^ 1024 <=? 0) = false) as -> by reflexivity.
    cbn [bind]. rewrite int_zero. now rewrite Z.div_0_l by lia.
  - destruct (nearest_floor a b ltac:(lia) Hb) as (M & F & I & _).
    assert ((2 ^ 1024 <=?
             Py.f_man (Py.nearest a b)
             * 2 ^ Z.max 0 (Py.f_exp (Py.nearest a b))) = false) as ->
      by (apply Z.leb_gt; exact F).
    rewrite (Z.sgn_pos a) by lia. rewrite Z.mul_1_l. cbn [bind].
    rewrite <- I. destruct (Py.nearest a b); reflexivity.
Qed.

Lemma truediv_half_floor (a b : Z) :
  0 < b <= a -> a < 2 ^ 53 ->
  exists x, Py.truediv a b = Ok x /\ Py.int_ (Py.half x) = a / (2 * b).
Proof.
  intros Hb Ha. unfold Py.truediv.
  assert ((b =? 0) = false) as -> by (apply Z.eqb_neq; lia).
  rewrite (Z.abs_eq a), (Z.abs_eq b) by lia.
  rewrite (Z.sgn_pos b), (Z.sgn_pos a) by lia.
  destruct (nearest_floor a b ltac:(lia) ltac:(lia)) as (M & F & _ & H).
  assert ((2 ^ 1024 <=?
           Py.f_man (Py.nearest a b)
           * 2 ^ Z.max 0 (Py.f_exp (Py.nearest a b))) = false) as ->
    by (apply Z.leb_gt; exact F).
  eexists. split; [reflexivity|]. rewrite <- H by lia.
  change (1 * 1) with 1. rewrite Z.mul_1_l.
  destruct (Py.nearest a b); reflexivity.
Qed.

Lemma round_half_even_up (n q : Z) :
  0 < q -> q < 2 * (n mod q) -> Py.round_half_even n q = n / q + 1.
Proof.
  intros Hq H. unfold Py.round_half_even.
  destruct (Z.compare_spec (2 * (n mod q)) q); try lia.
Qed.

Lemma int_ceil (m e : Z) :
  e < 0 ->
  Py.int_ (Py.ceil {| Py.f_man := m; Py.f_exp := e |})
  = ceil_div m (2 ^ (- e)).
Proof.
  intros E. unfold Py.ceil, Py.int_. cbn [Py.f_man Py.f_exp].
  assert ((0 <=? e) = false) as -> by (apply Z.leb_gt; lia).
  cbn [Py.f_man Py.f_exp]. change (0 <=? 0) with true.
  change (2 ^ 0) with 1. rewrite Z.mul_1_r. reflexivity.
Qed.

(** Rounding the scaled quotient and taking the ceiling after dropping
    the [w] bits is the ceiling of the quotient. *)
Lemma round_then_ceil (p q W : Z) :
  0 < p -> 0 < q -> 0 < W -> q < 2 * W ->
  ceil_div (Py.round_half_even (p * W) q) W = ceil_div p q.
Proof.
  intros Hp Hq HW B.
  pose proof (ceil_div_spec p q Hq) as K. set (k := ceil_div p q) in *.
  set (n := p * W).
  pose proof (Z.div_mod n q ltac:(lia)) as En.
  pose proof (Z.mod_pos_bound n q Hq) as Rn.
  apply ceil_div_unique; [exact HW|].
  assert (Lo : W * (k - 1) <= n / q)
    by (apply Z.div_le_lower_bound; [lia | unfold n; nia]).
  assert (Hi : n <= q * (W * k)) by (unfold n; nia).
  split.
  - destruct (Z.eq_dec (n / q) (W * (k - 1))) as [E|N].
    + rewrite round_half_even_up; [lia | exact Hq |].
      assert (n mod q = n - q * (W * (k - 1))) as -> by lia.
      unfold n. nia.
    + set (f := n / q) in *. set (c := W * (k - 1)) in *.
      destruct (round_half_even_cases n q Hq) as [->|(-> & _)];
        fold f; clearbody f c; lia.
  - destruct (round_half_even_cases n q Hq) as [->|(-> & Half)].
    + apply Z.div_le_upper_bound; lia.
    + assert (n / q < W * k); [|lia].
      apply Z.div_lt_upper_bound; [lia|].
      destruct (Z.eq_dec n (q * (W * k))) as [X|X]; [exfalso|lia].
      rewrite X, (Z.mul_comm q), Z.mod_mul in Half by lia. lia.
Qed.

Lemma nearest_ceil (p q : Z) :
  0 < p < 2 ^ 53 -> 0 < q < 2 ^ 53 ->
  Py.int_ (Py.ceil (Py.nearest p q)) = ceil_div p q.
Proof.
  intros Hp Hq.
  pose proof (binade_spec p q ltac:(lia) ltac:(lia)) as B.
  unfold Py.nearest.
  set (b := Py.binade p q) in *.
  destruct (Z.le_gt_cases 0 b) as [E|E].
  - rewrite (Z.max_l b Py.min_exp) by (unfold Py.min_exp; lia).
    rewrite (scale_up p q b E) in *. cbn [fst snd] in *.
    assert (b = 0) as ->.
    { destruct (Z.eq_dec b 0) as [|N]; [assumption|exfalso].
      pose proof (pow2_ge_2 b ltac:(lia)).
      change (2 ^ 52) with 4503599627370496 in B.
      change (2 ^ 53) with 9007199254740992 in Hp. nia. }
    change (2 ^ 0) with 1 in *. rewrite Z.mul_1_r in *.
    assert (q = 1) as ->.
    { change (2 ^ 52) with 4503599627370496 in B.
      change (2 ^ 53) with 9007199254740992 in Hp. nia. }
    assert (Py.round_half_even p 1 = p) as ->.
    { unfold Py.round_half_even. rewrite Z.mod_1_r, Z.div_1_r. reflexivity. }
    unfold Py.ceil, Py.int_. cbn [Py.f_man Py.f_exp Z.leb Z.compare].
    change (2 ^ 0) with 1. rewrite Z.mul_1_r.
    symmetry. apply ceil_div_unique; lia.
  - assert (M : - 105 <= b).
    { destruct (Z.le_gt_cases (- 105) b) as [|G]; [assumption|exfalso].
      rewrite (scale_down p q b) in B by lia. cbn [fst snd] in B.
      assert (2 ^ 106 <= 2 ^ (- b)) by (apply Z.pow_le_mono_r; lia).
      change (2 ^ 106) with (2 ^ 53 * 2 ^ 53) in *.
      change (2 ^ 53) with 9007199254740992 in *. nia. }
    rewrite (Z.max_l b Py.min_exp) by (unfold Py.min_exp; lia).
    rewrite (scale_down p q b) in * by lia. cbn [fst snd] in *.
    pose proof (pow2_pos (- b) ltac:(lia)) as PW.
    rewrite int_ceil by exact E.
    set (W := 2 ^ (- b)) in *.
    apply round_then_ceil; try lia.
    change (2 ^ 52) with 4503599627370496 in B.
    change (2 ^ 53) with 9007199254740992 in *. nia.
Qed.

Lemma truediv_ceil (a b : Z) :
  0 <= a < 2 ^ 53 -> 0 < b < 2 ^ 53 ->
  exists x, Py.truediv a b = Ok x /\ Py.int_ (Py.ceil x) = ceil_div a b.
Proof.
  intros Ha Hb. unfold Py.truediv.
  assert ((b =? 0) = false) as -> by (apply Z.eqb_neq; lia).
  rewrite (Z.abs_eq a), (Z.abs_eq b) by lia.
  rewrite (Z.sgn_pos b) by lia. rewrite Z.mul_1_r.
  destruct (Z.eq_dec a 0) as [->|N].
  - rewrite (nearest_zero b ltac:(lia)). cbn [Z.sgn Z.mul].
    assert ((2 ^ 1024 <=? 0) = false) as -> by reflexivity.
    eexists. split; [reflexivity|].
    unfold Py.ceil, Py.int_. cbn [Py.f_man Py.f_exp].
    assert (ceil_div 0 b = 0) as ->
      by (apply ceil_div_unique; lia).
    destruct (0 <=? Py.f_exp (Py.nearest 0 b)) eqn:E;
      cbn [Py.f_man Py.f_exp]; rewrite ?E; [apply Z.mul_0_l|].
    change (0 <=? 0) with true. cbn [Z.opp].
    rewrite Z.div_0_l; [reflexivity|].
    apply Z.leb_gt in E.
    pose proof (pow2_pos (- Py.f_exp (Py.nearest 0 b)) ltac:(lia)). lia.
  - destruct (nearest_floor a b ltac:(lia) ltac:(lia)) as (M & F & _ & _).
    assert ((2 ^ 1024 <=?
             Py.f_man (Py.nearest a b)
             * 2 ^ Z.max 0 (Py.f_exp (Py.nearest a b))) = false) as ->
      by (apply Z.leb_gt; exact F).
    rewrite (Z.sgn_pos a) by lia. rewrite Z.mul_1_l.
    eexists. split; [reflexivity|].
    rewrite <- (nearest_ceil a b) by lia.
    destruct (Py.nearest a b); reflexivity.
Qed.

Lemma half_nonneg (x : Py.float) :
  0 <= Py.f_man x -> 0 <= Py.int_ (Py.half x).
Proof.
  intros M. unfold Py.half.
  assert (N : 0 <= Z.sgn (Py.f_man x)
                   * Py.round_half_even (Z.abs (Py.f_man x)) 2).
  { pose proof (round_half_even_nonneg (Z.abs (Py.f_man x)) 2
                  ltac:(lia) ltac:(lia)).
    pose proof (Z.sgn_nonneg (Py.f_man x)). nia. }
  assert (G : forall m e, 0 <= m ->
                0 <= Py.int_ {| Py.f_man := m; Py.f_exp := e |}).
  { intros m e Hm. unfold Py.int_. cbn [Py.f_man Py.f_exp].
    destruct (0 <=? e) eqn:E.
    - apply Z.leb_le in E. pose proof (pow2_pos e E). nia.
    - apply Z.leb_gt in E. apply Z.quot_pos; [exact Hm|].
      apply pow2_pos. lia. }
  destruct (Py.min_exp <? Py.f_exp x); now apply G.
Qed.

Lemma truediv_nonneg (a b : Z) (x : Py.float) :
  0 <= a -> 0 < b -> Py.truediv a b = Ok x -> 0 <= Py.f_man x.
Proof.
  intros Ha Hb. unfold Py.truediv.
  assert ((b =? 0) = false) as -> by (apply Z.eqb_neq; lia).
  destruct (_ <=? _); [discriminate|].
  intros E. injection E as <-. cbn [Py.f_man].
  rewrite (Z.abs_eq a), (Z.abs_eq b) by lia.
  pose proof (nearest_nonneg a b Ha Hb).
  repeat apply Z.mul_nonneg_nonneg; try assumption; apply Z.sgn_nonneg; lia.
Qed.

(** The quotient-plus-carry of the source is the ceiling on a positive
    divisor and a non-negative dividend. *)
Lemma quot_carry_ceil (a b : Z) :
  0 <= a -> 0 < b ->
  a / b + Py.of_bool (a mod b >? 0) = ceil_div a b.
Proof.
  intros Ha Hb. symmetry. apply ceil_div_unique; [assumption|].
  pose proof (Z.div_mod a b ltac:(lia)) as E.
  pose proof (Z.mod_pos_bound a b Hb) as B.
  unfold Py.of_bool. destruct (a mod b >? 0) eqn:G.
  - apply Z.gtb_lt in G. nia.
  - assert (a mod b = 0) by (rewrite Z.gtb_ltb in G; apply Z.ltb_ge in G; lia).
    nia.
Qed.

(** Below 2^53 items the two quotients are exact, and the balance
    function is the ceiling of the ceiling. *)
Lemma find_optimal_chunksize_pos (chunk N : Z) :
  1 <= chunk -> 1 <= N < 2 ^ 53 ->
  find_optimal_chunksize chunk N = Ok (ceil_div N (ceil_div N chunk)).
Proof.
  intros Hc HN. unfold find_optimal_chunksize, Py.mod_.
  rewrite int_truediv_floor by lia.
  assert ((chunk =? 0) = false) as -> by (apply Z.eqb_neq; lia).
  cbn [bind].
  rewrite quot_carry_ceil by lia.
  pose proof (ceil_div_spec N chunk ltac:(lia)) as S.
  assert (1 <= ceil_div N chunk) as Hn by nia.
  rewrite int_truediv_floor by lia.
  assert ((ceil_div N chunk =? 0) = false) as -> by (apply Z.eqb_neq; lia).
  cbn [bind]. rewrite quot_carry_ceil by lia. reflexivity.
Qed.

(** C2 (as amended).  For every capacity >= 1 and every total with
    1 <= total < 2^53 the balance function returns a chunk size in
    [1, capacity] that needs exactly as many iterations as the capacity
    itself: ceil(total / chunk_size) = ceil(total / capacity). *)
Theorem find_optimal_chunksize_balanced (capacity total : Z) :
  1 <= capacity -> 1 <= total < 2 ^ 53 ->
  exists chunk_size,
    find_optimal_chunksize capacity total = Ok chunk_size /\
    1 <= chunk_size <= capacity /\
    ceil_div total chunk_size = ceil_div total capacity.
Proof.
  intros Hc Ht. eexists. split; [apply find_optimal_chunksize_pos; assumption|].
  pose proof (ceil_div_spec total capacity ltac:(lia)) as S.
  set (n := ceil_div total capacity) in *.
  assert (1 <= n) as Hn by nia.
  pose proof (ceil_div_spec total n ltac:(lia)) as T.
  set (c := ceil_div total n) in *.
  assert (1 <= c) as Hc1 by nia.
  assert (c <= capacity) as Hc2 by nia.
  split; [lia|].
  apply ceil_div_unique; [lia|]. nia.
Qed.

Lemma find_optimal_chunksize_balanced_witness :
  exists chunk_size,
    find_optimal_chunksize 30 31 = Ok chunk_size /\
    1 <= chunk_size <= 30 /\
    ceil_div 31 chunk_size = ceil_div 31 30.
Proof.
  apply (find_optimal_chunksize_balanced 30 31); [lia|].
  split; [lia | reflexivity].
Defined.

(** C2 (as stated) fails: with no item left the iteration count is 0 and
    the second division raises; with capacity 0 the first one does, and no
    value lies in [1, 0]; and with 2^53 + 1 items the double quotient
    [N / chunk] drops the last item, so that capacity 1 is answered by a
    chunk size of 2. *)
Lemma find_optimal_chunksize_unguarded :
  find_optimal_chunksize 4 0 = Raise ZeroDivisionError /\
  find_optimal_chunksize 0 3 = Raise ZeroDivisionError /\
  find_optimal_chunksize 1 (2 ^ 53 + 1) = Ok 2 /\
  ~ (forall capacity total, exists chunk_size,
        find_optimal_chunksize capacity total = Ok chunk_size /\
        1 <= chunk_size <= capacity /\
        ceil_div total chunk_size = ceil_div total capacity).
Proof.
  split; [reflexivity|]. split; [reflexivity|].
  split; [vm_compute; reflexivity|].
  intros H. destruct (H 4 0) as (c & E & _). discriminate E.
Qed.

(** C10 (as amended).  When the capacity already covers all items
    (1 <= total <= capacity) and there are fewer than 2^53 of them, the
    planned chunk size is exactly the item count. *)
Theorem find_optimal_chunksize_collapses (capacity total : Z) :
  1 <= total <= capacity -> total < 2 ^ 53 ->
  find_optimal_chunksize capacity total = Ok total.
Proof.
  intros H B. rewrite find_optimal_chunksize_pos by lia.
  f_equal.
  assert (ceil_div total capacity = 1) as ->
    by (apply ceil_div_unique; lia).
  apply ceil_div_unique; lia.
Qed.

Lemma find_optimal_chunksize_collapses_witness :
  find_optimal_chunksize 30 7 = Ok 7.
Proof.
  apply (find_optimal_chunksize_collapses 30 7); [lia | reflexivity].
Defined.

(** C10 (as stated) fails: 2^53 + 1 items under a capacity of as many are
    planned as one chunk of 2^53 items, because the double quotient
    [N / n_it] cannot hold the odd count. *)
Lemma find_optimal_chunksize_drops_an_item :
  1 <= 2 ^ 53 + 1 <= 2 ^ 53 + 1 /\
  find_optimal_chunksize (2 ^ 53 + 1) (2 ^ 53 + 1) = Ok (2 ^ 53) /\
  2 ^ 53 <> 2 ^ 53 + 1.
Proof.
  split; [split; apply Z.leb_le; reflexivity|].
  split; [vm_compute; reflexivity | discriminate].
Qed.

(** ** Lists and rational sums *)

Lemma fold_left_Qplus (l : list Q) (a : Q) :
  (fold_left Qplus l a == a + fold_right Qplus 0 l)%Q.
Proof.
  revert a. induction l as [|x l IH]; intros a; cbn [fold_left fold_right].
  - ring.
  - rewrite IH. ring.
Qed.

Lemma sum_fold_right (l : list Q) :
  (Arr.sum l == fold_right Qplus 0 l)%Q.
Proof. unfold Arr.sum. rewrite fold_left_Qplus. ring. Qed.

Lemma dot_ones (l : list Q) :
  (Arr.dot l (Arr.ones (length l)) == fold_right Qplus 0 l)%Q.
Proof.
  unfold Arr.dot. rewrite sum_fold_right.
  induction l as [|x l IH]; [reflexivity|].
  cbn [length Arr.ones repeat combine map fold_right fst snd].
  unfold Arr.ones in IH. rewrite IH. ring.
Qed.

Lemma rev_repeat {A : Type} (x : A) (n : nat) : rev (repeat x n) = repeat x n.
Proof.
  induction n as [|n IH]; [reflexivity|].
  simpl. rewrite IH. clear IH.
  induction n as [|n IH]; [reflexivity|]. simpl. now rewrite IH.
Qed.

Lemma slice_window {A : Type} (l : list A) (k n : nat) (d : A) :
  (k + n <= length l)%nat ->
  Arr.slice l k (k + n) = map (fun i => nth i l d) (seq k n).
Proof.
  unfold Arr.slice. replace (k + n - k)%nat with n by lia.
  revert k l. induction n as [|n IH]; intros k l H.
  - reflexivity.
  - destruct (skipn k l) as [|x r] eqn:E.
    + apply (f_equal (@length A)) in E. rewrite length_skipn in E.
      simpl in E. lia.
    + simpl. f_equal.
      * pose proof (nth_skipn_0 := @nth_error_skipn A k l 0).
        rewrite <- (firstn_skipn k l) at 1.
        rewrite app_nth2; rewrite length_firstn; [|lia].
        replace (k - Nat.min k (length l))%nat with 0%nat by lia.
        now rewrite E.
      * rewrite <- IH by lia. f_equal.
        replace (S k) with (1 + k)%nat by lia.
        rewrite <- skipn_skipn. now rewrite E.
Qed.

Lemma nth_map_seq {A : Type} (f : nat -> A) (a n k : nat) (d : A) :
  (k < n)%nat -> nth k (map f (seq a n)) d = f (a + k)%nat.
Proof.
  intros H. rewrite nth_indep with (d' := f 0%nat)
    by (rewrite length_map, length_seq; exact H).
  rewrite (map_nth f (seq a n) 0%nat k). now rewrite seq_nth.
Qed.

Lemma nth_map_in {A B : Type} (f : A -> B) (l : list A) (k : nat)
  (d : A) (e : B) :
  (k < length l)%nat -> nth k (map f l) e = f (nth k l d).
Proof.
  intros H. rewrite nth_indep with (d' := f d) by (rewrite length_map; exact H).
  apply map_nth.
Qed.

Lemma pad_zeros_own_length (a : list Q) (num num2 : nat) :
  pad_zeros a (length a) num (Some num2) =
  Ok (Arr.zeros num ++ a ++ Arr.zeros num2).
Proof.
  unfold pad_zeros. destruct a as [|x [|y a]]; simpl.
  - reflexivity.
  - reflexivity.
  - now rewrite Nat.eqb_refl.
Qed.

Lemma convolve_valid_ones (a : list Q) (n : nat) :
  (1 <= n <= length a)%nat ->
  Arr.convolve_valid a (Arr.ones n) =
  Ok (map (fun k => Arr.dot (Arr.slice a k (k + n)) (Arr.ones n))
          (seq 0 (length a - n + 1))).
Proof.
  intros H. unfold Arr.convolve_valid, Arr.ones.
  rewrite (repeat_length 1%Q n).
  assert ((length a <? n)%nat = false) as -> by (apply Nat.ltb_ge; lia).
  destruct a as [|x a]; [simpl in H; lia|].
  destruct n as [|n]; [lia|].
  rewrite rev_repeat, (repeat_length 1%Q (S n)). reflexivity.
Qed.

Lemma window_sum_spec (data : list Q) (n : nat) :
  (1 <= n <= length data)%nat ->
  exists w,
    window_sum data n = Ok w /\
    length w = (length data - n)%nat /\
    forall k, (k < length data - n)%nat ->
      (nth k w 0 ==
       fold_right Qplus 0 (map (fun i => nth i data 0) (seq (S k) n)))%Q.
Proof.
  intros H. unfold window_sum. rewrite convolve_valid_ones by assumption.
  eexists. split; [reflexivity|].
  replace (length data - n + 1)%nat with (S (length data - n)) by lia.
  cbn [seq map tl]. split.
  - now rewrite length_map, length_seq.
  - intros k Hk.
    rewrite nth_map_seq by lia.
    rewrite (slice_window data (1 + k) n 0%Q) by lia.
    assert (E : n = length (map (fun i => nth i data 0%Q) (seq (1 + k) n)))
      by now rewrite length_map, length_seq.
    rewrite E at 2. apply dot_ones.
Qed.

Lemma local_energy_aligned_gen (data_tr : list Q) (N : nat) :
  (1 <= N <= length data_tr)%nat ->
  exists padded_tr data_norm,
    pad_zeros data_tr (length data_tr) 1 (Some 0%nat) = Ok padded_tr /\
    window_sum (map Arr.sq padded_tr) N = Ok data_norm /\
    length data_norm = (length data_tr - N + 1)%nat /\
    forall k, (k <= length data_tr - N)%nat ->
      (nth k data_norm 0 == energy data_tr k N)%Q.
Proof.
  intros H. rewrite pad_zeros_own_length.
  set (padded := (Arr.zeros 1 ++ data_tr ++ Arr.zeros 0)%list).
  assert (L : length padded = S (length data_tr)).
  { unfold padded. cbn. rewrite length_app. simpl. lia. }
  destruct (window_sum_spec (map Arr.sq padded) N) as (w & E & Lw & V).
  { rewrite length_map. lia. }
  exists padded, w. split; [reflexivity|]. split; [exact E|].
  rewrite length_map, L in Lw. split; [lia|].
  intros k Hk. rewrite V by (rewrite length_map; lia).
  unfold energy. rewrite <- seq_shift, map_map.
  assert (G : forall i, (i < length data_tr)%nat ->
              (nth (S i) (map Arr.sq padded) 0 == nth i data_tr 0 ^ 2)%Q).
  { intros i Hi. unfold padded. cbn [Arr.zeros repeat app map nth].
    rewrite app_nil_r.
    rewrite (nth_map_in Arr.sq data_tr i 0%Q) by lia.
    unfold Arr.sq. simpl. reflexivity. }
  assert (R : forall l, Forall (fun i => (i < length data_tr)%nat) l ->
      (fold_right Qplus 0 (map (fun i => nth (S i) (map Arr.sq padded) 0) l) ==
       fold_right Qplus 0 (map (fun i => nth i data_tr 0 ^ 2) l))%Q).
  { induction 1 as [|i l Hi _ IH]; cbn [map fold_right]; [reflexivity|].
    rewrite IH, (G i Hi). reflexivity. }
  apply R. apply Forall_forall. intros i Hi. apply in_seq in Hi. lia.
Qed.

(** C6.  For a trace of length M and a template length 1 <= N <= M, the
    local-energy computation (the trace padded by [pad_zeros], squared, and
    summed by [window_sum] over windows of length N) returns a sequence of
    length exactly M - N + 1 whose entry k is the sum of the squares of the
    samples k .. k + N - 1. *)
Theorem local_energy_aligned (data_tr : list Q) (N : nat) :
  (1 <= N <= length data_tr)%nat ->
  exists padded_tr data_norm,
    pad_zeros data_tr (length data_tr) 1 (Some 0%nat) = Ok padded_tr /\
    window_sum (map Arr.sq padded_tr) N = Ok data_norm /\
    length data_norm = (length data_tr - N + 1)%nat /\
    forall k, (k <= length data_tr - N)%nat ->
      (nth k data_norm 0 == energy data_tr k N)%Q.
Proof. exact (local_energy_aligned_gen data_tr N). Qed.

Lemma local_energy_aligned_witness :
  exists padded_tr data_norm,
    pad_zeros [3; 4; 5]%Q 3 1 (Some 0%nat) = Ok padded_tr /\
    window_sum (map Arr.sq padded_tr) 2 = Ok data_norm /\
    length data_norm = 2%nat /\
    forall k, (k <= 1)%nat ->
      (nth k data_norm 0 == energy [3; 4; 5]%Q k 2)%Q.
Proof. apply (local_energy_aligned [3; 4; 5]%Q 2). simpl. lia. Defined.

(** ** Comparisons on rationals *)

Lemma ltb_lt (a b : Q) : Arr.ltb a b = true <-> (a < b)%Q.
Proof.
  unfold Arr.ltb. rewrite negb_true_iff.
  destruct (Qle_bool b a) eqn:E.
  - apply Qle_bool_iff in E. split; [discriminate | lra].
  - split; [intros _ | reflexivity].
    apply Qnot_le_lt. intros H. apply Qle_bool_iff in H. congruence.
Qed.

Lemma ltb_ge (a b : Q) : Arr.ltb a b = false <-> (b <= a)%Q.
Proof.
  pose proof (ltb_lt a b) as H. destruct (Arr.ltb a b).
  - split; [discriminate|]. intros G. assert (a < b)%Q by now apply H. lra.
  - split; [intros _ | reflexivity].
    apply Qnot_lt_le. intros G. apply H in G. discriminate.
Qed.

Lemma max2_Qmax (a b : Q) : (max2 a b == Qmax a b)%Q.
Proof.
  unfold max2. destruct (Arr.ltb a b) eqn:E.
  - apply ltb_lt in E. rewrite Q.max_r by lra. reflexivity.
  - apply ltb_ge in E. rewrite Q.max_l by lra. reflexivity.
Qed.

Lemma min2_Qmin (a b : Q) : (min2 a b == Qmin a b)%Q.
Proof.
  unfold min2. destruct (Arr.ltb b a) eqn:E.
  - apply ltb_lt in E. rewrite Q.min_r by lra. reflexivity.
  - apply ltb_ge in E. rewrite Q.min_l by lra. reflexivity.
Qed.

(** ** Masks and index lists *)

Lemma where_spec (mask : list bool) (x : nat) :
  In x (Arr.where_ mask) <-> nth x mask false = true.
Proof.
  unfold Arr.where_. rewrite filter_In, in_seq. split; [tauto|].
  intros H. split; [|exact H].
  destruct (Nat.lt_ge_cases x (length mask)) as [L|L]; [lia|].
  rewrite nth_overflow in H by exact L. discriminate.
Qed.

Lemma where_bound (mask : list bool) (x : nat) :
  In x (Arr.where_ mask) -> (x < length mask)%nat.
Proof.
  unfold Arr.where_. rewrite filter_In, in_seq. lia.
Qed.

Lemma where_all_false (n : nat) : Arr.where_ (repeat false n) = [].
Proof.
  destruct (Arr.where_ (repeat false n)) as [|x l] eqn:E; [reflexivity|].
  assert (H : In x (Arr.where_ (repeat false n))) by (rewrite E; now left).
  apply where_spec in H.
  destruct (Nat.lt_ge_cases x n) as [L|L].
  - rewrite nth_repeat_lt in H by exact L. discriminate.
  - rewrite nth_overflow in H by (rewrite repeat_length; exact L).
    discriminate.
Qed.

Lemma candidates_spec (day_cc : list Q) (thr : Q) (x : nat) :
  (x < length day_cc)%nat ->
  In x (candidates (map Qabs day_cc) thr) <->
  (thr <= Qabs (nth x day_cc 0))%Q.
Proof.
  intros L. unfold candidates. rewrite where_spec.
  rewrite (nth_map_in _ (map Qabs day_cc) x 0%Q) by (rewrite length_map; exact L).
  rewrite (nth_map_in Qabs day_cc x 0%Q) by exact L.
  apply Qle_bool_iff.
Qed.

Lemma candidates_bound (abs_cc : list Q) (thr : Q) (x : nat) :
  In x (candidates abs_cc thr) -> (x < length abs_cc)%nat.
Proof.
  intros H. apply where_bound in H. now rewrite length_map in H.
Qed.

(** ** The median *)

Lemma insert_sorted_length (x : Q) (l : list Q) :
  length (Arr.insert_sorted x l) = S (length l).
Proof.
  induction l as [|y l IH]; [reflexivity|].
  cbn [Arr.insert_sorted]. destruct (Qle_bool x y); cbn [length]; lia.
Qed.

Lemma sort_length (l : list Q) : length (Arr.sort l) = length l.
Proof.
  induction l as [|x l IH]; [reflexivity|].
  cbn [Arr.sort fold_right]. rewrite insert_sorted_length.
  unfold Arr.sort in IH. rewrite IH. reflexivity.
Qed.

Lemma median_some (l : list Q) :
  l <> [] -> exists m, Arr.median l = Some m.
Proof.
  intros H. unfold Arr.median. rewrite sort_length.
  destruct l as [|x l]; [contradiction|].
  cbn [length]. destruct (Nat.even (S (length l))); eexists; reflexivity.
Qed.

Lemma daily_mad_some (day_cc : list Q) :
  day_cc <> [] -> exists mad, daily_mad day_cc = Some mad.
Proof.
  intros H. unfold daily_mad.
  destruct (median_some day_cc H) as (med & ->).
  destruct (median_some (map (fun c => Qabs (c - med)) day_cc)) as (m & ->).
  - destruct day_cc; [contradiction | discriminate].
  - eexists. reflexivity.
Qed.

Lemma daily_mad_nonzero (day_cc : list Q) (mad : Q) :
  daily_mad day_cc = Some mad -> ~ (mad == 0)%Q.
Proof.
  unfold daily_mad. destruct (Arr.median day_cc) as [med|]; [|discriminate].
  destruct (Arr.median _) as [m|]; [|discriminate].
  intros E. injection E as <-.
  destruct (Qeq_bool m 0) eqn:G.
  - unfold water_level. intros H. discriminate H.
  - intros H. apply Qeq_bool_iff in H. congruence.
Qed.

(** C5.  For every lag of a correlation sequence, candidacy (line 233) is
    decided by comparing the absolute correlation to the effective local
    threshold, which is max(cc_threshold, mad_threshold * MAD) when the
    thresholds are combined (AND: both criteria must hold) and
    min(cc_threshold, mad_threshold * MAD) otherwise (OR: either one
    suffices). *)
Theorem threshold_combination (cfg : config) (day_cc : list Q) (x : nat) :
  (x < length day_cc)%nat ->
  exists mad,
    daily_mad day_cc = Some mad /\
    let a := Qabs (nth x day_cc 0%Q) in
    let thr := local_threshold cfg (daily_mad day_cc) in
    let candidate := In x (candidates (map Qabs day_cc) thr) in
    (candidate <-> thr <= a)%Q /\
    (combine_thresholds cfg = true ->
       (thr == Qmax (cc_threshold cfg) (mad_threshold cfg * mad))%Q /\
       (candidate <->
        cc_threshold cfg <= a /\ mad_threshold cfg * mad <= a)%Q) /\
    (combine_thresholds cfg = false ->
       (thr == Qmin (cc_threshold cfg) (mad_threshold cfg * mad))%Q /\
       (candidate <->
        cc_threshold cfg <= a \/ mad_threshold cfg * mad <= a)%Q).
Proof.
  intros L.
  destruct (daily_mad_some day_cc) as (mad & E).
  { destruct day_cc; [simpl in L; lia | discriminate]. }
  exists mad. split; [exact E|]. rewrite E. cbn zeta.
  pose proof (candidates_spec day_cc (local_threshold cfg (Some mad)) x L) as C.
  split; [exact C|]. split; intros M; unfold local_threshold in *; rewrite M in *.
  - split; [apply max2_Qmax|]. rewrite C, max2_Qmax. apply Q.max_lub_iff.
  - split; [apply min2_Qmin|]. rewrite C, min2_Qmin. apply Q.min_le_iff.
Qed.

Lemma threshold_combination_witness :
  exists mad,
    daily_mad [0; 9 # 10; 0; 0; 1 # 100]%Q = Some mad /\
    let a := Qabs (nth 1 [0; 9 # 10; 0; 0; 1 # 100]%Q 0%Q) in
    let thr :=
      local_threshold
        {| cc_threshold := 7 # 10; mad_threshold := 8;
           combine_thresholds := true; use_cupy := false |}
        (daily_mad [0; 9 # 10; 0; 0; 1 # 100]%Q) in
    let candidate :=
      In 1%nat (candidates (map Qabs [0; 9 # 10; 0; 0; 1 # 100]%Q) thr) in
    (candidate <-> thr <= a)%Q /\
    (true = true ->
       (thr == Qmax (7 # 10) (8 * mad))%Q /\
       (candidate <-> 7 # 10 <= a /\ 8 * mad <= a)%Q) /\
    (true = false ->
       (thr == Qmin (7 # 10) (8 * mad))%Q /\
       (candidate <-> 7 # 10 <= a \/ 8 * mad <= a)%Q).
Proof.
  apply (threshold_combination
           {| cc_threshold := 7 # 10; mad_threshold := 8;
              combine_thresholds := true; use_cupy := false |}
           [0; 9 # 10; 0; 0; 1 # 100]%Q 1).
  simpl. lia.
Defined.

Lemma where_nil (mask : list bool) :
  (forall x, (x < length mask)%nat -> nth x mask false = false) ->
  Arr.where_ mask = [].
Proof.
  intros H. destruct (Arr.where_ mask) as [|x l] eqn:E; [reflexivity|].
  assert (I : In x (Arr.where_ mask)) by (rewrite E; now left).
  pose proof (where_bound _ _ I) as B. apply where_spec in I.
  rewrite (H x B) in I. discriminate.
Qed.

Lemma find_peaks_no_candidate (cfg : config) (day_cc : list Q)
  (distance : nat) :
  candidates (map Qabs day_cc) (local_threshold cfg (daily_mad day_cc)) = [] ->
  find_peaks cfg day_cc distance = ([], [], []).
Proof.
  intros H. unfold find_peaks. rewrite H.
  cbn [reduce_runs]. rewrite where_all_false.
  cbn [sort_desc fold_right fold_left]. rewrite where_all_false. reflexivity.
Qed.

Lemma find_peaks_below (cfg : config) (day_cc : list Q) (distance : nat) :
  (forall c, In c day_cc ->
     (Qabs c < local_threshold cfg (daily_mad day_cc))%Q) ->
  find_peaks cfg day_cc distance = ([], [], []).
Proof.
  intros H. apply find_peaks_no_candidate. apply where_nil.
  intros x L. rewrite length_map, length_map in L.
  rewrite (nth_map_in _ (map Qabs day_cc) x 0%Q) by (rewrite length_map; exact L).
  rewrite (nth_map_in Qabs day_cc x 0%Q) by exact L.
  destruct (Qle_bool _ _) eqn:E; [|reflexivity].
  apply Qle_bool_iff in E.
  pose proof (H (nth x day_cc 0%Q) (nth_In day_cc 0%Q L)). lra.
Qed.

Lemma sort_repeat (v : Q) (n : nat) : Arr.sort (repeat v n) = repeat v n.
Proof.
  induction n as [|n IH]; [reflexivity|].
  cbn [repeat Arr.sort fold_right]. unfold Arr.sort in IH. rewrite IH.
  destruct n as [|n]; [reflexivity|].
  cbn [repeat Arr.insert_sorted].
  assert (Qle_bool v v = true) as -> by (apply Qle_bool_iff; lra).
  reflexivity.
Qed.

Lemma median_repeat (v : Q) (n : nat) :
  (1 <= n)%nat -> exists m, Arr.median (repeat v n) = Some m /\ (m == v)%Q.
Proof.
  intros H. unfold Arr.median. rewrite sort_repeat, repeat_length.
  destruct n as [|n]; [lia|].
  assert (D : (S n / 2 < S n)%nat) by (apply Nat.div_lt; lia).
  destruct (Nat.even (S n)); eexists; (split; [reflexivity|]).
  - rewrite !nth_repeat_lt by lia. field.
  - rewrite nth_repeat_lt by lia. reflexivity.
Qed.

Lemma daily_mad_zeros (n : nat) :
  (1 <= n)%nat -> daily_mad (repeat 0%Q n) = Some water_level.
Proof.
  intros H. unfold daily_mad.
  destruct (median_repeat 0 n H) as (med & -> & Hm).
  rewrite map_repeat.
  destruct (median_repeat (Qabs (0 - med)) n H) as (m & -> & Hm').
  assert (Qeq_bool m 0 = true) as ->; [|reflexivity].
  apply Qeq_bool_iff. rewrite Hm', Hm. reflexivity.
Qed.

(** C8 (as amended).  [find_peaks] returns the empty result, and raises
    nothing, on a zero-length sequence and on a sequence that is entirely
    below the effective local threshold.  On an all-zero sequence the MAD
    of zero is replaced by the positive water level 1e-6 (the MAD that
    divides the returned values is never zero), and the result is empty when
    cc_threshold is positive and, if the thresholds are not combined,
    mad_threshold is positive too. *)
Theorem find_peaks_degenerate (cfg : config) (distance : nat) :
  find_peaks cfg [] distance = ([], [], []) /\
  (forall day_cc,
     (forall c, In c day_cc ->
        (Qabs c < local_threshold cfg (daily_mad day_cc))%Q) ->
     find_peaks cfg day_cc distance = ([], [], [])) /\
  (forall day_cc mad, daily_mad day_cc = Some mad -> ~ (mad == 0)%Q) /\
  (forall n, (1 <= n)%nat ->
     daily_mad (repeat 0%Q n) = Some water_level /\
     (water_level == 1 / 1000000)%Q /\
     ((0 < cc_threshold cfg)%Q ->
      combine_thresholds cfg = true \/ (0 < mad_threshold cfg)%Q ->
      find_peaks cfg (repeat 0%Q n) distance = ([], [], []))).
Proof.
  split; [reflexivity|]. split; [intros; now apply find_peaks_below|].
  split; [apply daily_mad_nonzero|].
  intros n H. split; [now apply daily_mad_zeros|]. split; [reflexivity|].
  intros Hcc Hmode. apply find_peaks_below.
  intros c Hc. apply repeat_spec in Hc. subst c.
  rewrite daily_mad_zeros by exact H.
  unfold local_threshold.
  assert (W : (0 < water_level)%Q) by reflexivity.
  change (Qabs 0) with 0%Q.
  destruct (combine_thresholds cfg).
  - rewrite max2_Qmax. apply Q.max_lt_iff. now left.
  - destruct Hmode as [Hmode|Hmode]; [discriminate|].
    rewrite min2_Qmin. apply Q.min_glb_lt_iff. split; [exact Hcc|].
    apply Qmult_lt_0_compat; assumption.
Qed.

Lemma find_peaks_degenerate_witness :
  find_peaks
    {| cc_threshold := 7 # 10; mad_threshold := 8;
       combine_thresholds := false; use_cupy := false |}
    [1 # 1000000; 0; 0]%Q 5 = ([], [], []) /\
  find_peaks
    {| cc_threshold := 7 # 10; mad_threshold := 8;
       combine_thresholds := false; use_cupy := false |}
    (repeat 0%Q 4) 5 = ([], [], []).
Proof.
  pose proof (find_peaks_degenerate
                {| cc_threshold := 7 # 10; mad_threshold := 8;
                   combine_thresholds := false; use_cupy := false |} 5)
    as (_ & Below & _ & Zeros).
  split.
  - apply Below. intros c Hc. simpl in Hc.
    destruct Hc as [<-|[<-|[<-|[]]]]; reflexivity.
  - destruct (Zeros 4%nat) as (_ & _ & Z); [lia|].
    apply Z; [reflexivity | right; reflexivity].
Defined.

(** C8 (as stated) fails when the thresholds are not combined and
    mad_threshold is 0: the effective threshold is min(0.7, 0) = 0, every
    lag of an all-zero sequence reaches it, and lag 0 is reported although
    cc_threshold is not met. *)
Lemma find_peaks_zero_mad_threshold :
  let cfg := {| cc_threshold := 7 # 10; mad_threshold := 0;
                combine_thresholds := false; use_cupy := false |} in
  (Qabs 0 < cc_threshold cfg)%Q /\
  fst (fst (find_peaks cfg [0; 0; 0]%Q 5)) = [0%nat] /\
  find_peaks cfg [0; 0; 0]%Q 5 <> ([], [], []).
Proof.
  cbn zeta. split; [reflexivity|]. split; [reflexivity|]. discriminate.
Qed.

(** ** Element-wise operations *)

Lemma map2_length {A B C : Type} (f : A -> B -> C) (a : list A) (b : list B) :
  length (map2 f a b) = Nat.min (length a) (length b).
Proof. unfold map2. now rewrite length_map, length_combine. Qed.

Lemma nth_combine {A B : Type} (a : list A) (b : list B) (k : nat)
  (da : A) (db : B) :
  (k < length a)%nat -> (k < length b)%nat ->
  nth k (combine a b) (da, db) = (nth k a da, nth k b db).
Proof.
  revert b k. induction a as [|x a IH]; intros [|y b] [|k] Ha Hb;
    simpl in *; try lia; [reflexivity|].
  apply IH; lia.
Qed.

Lemma nth_map2 {A B C : Type} (f : A -> B -> C) (a : list A) (b : list B)
  (k : nat) (da : A) (db : B) (dc : C) :
  (k < length a)%nat -> (k < length b)%nat ->
  nth k (map2 f a b) dc = f (nth k a da) (nth k b db).
Proof.
  intros Ha Hb. unfold map2.
  rewrite (nth_map_in _ (combine a b) k (da, db))
    by (rewrite length_combine; lia).
  now rewrite nth_combine.
Qed.

Lemma normalize_length (be : backend) (cc data_norm temp_tr : list Q)
  (N : nat) :
  length (normalize be cc data_norm temp_tr N) =
  Nat.min (length cc) (length data_norm).
Proof.
  unfold normalize. destruct (b_cc_is_float be);
    rewrite ?map2_length, ?length_combine, ?length_map; lia.
Qed.

(** The value of one lag after lines 321-330, in either branch. *)
Lemma normalize_nth (be : backend) (cc data_norm temp_tr : list Q)
  (N k : nat) :
  (k < length cc)%nat -> (k < length data_norm)%nat ->
  nth k (normalize be cc data_norm temp_tr N) 0%Q =
  let e := nth k data_norm 0%Q in
  let c := nth k cc 0%Q in
  if Qle_bool e (energy_floor be N)
  then (if b_cc_is_float be then c else 0%Q)
  else b_div be c (b_sqrt be (e * Arr.sum (map Arr.sq temp_tr))).
Proof.
  intros Hc Hn. unfold normalize. cbn zeta.
  set (norm := map (b_sqrt be) (map _ data_norm)).
  set (mask := map _ data_norm).
  assert (Ln : length norm = length data_norm)
    by (unfold norm; now rewrite !length_map).
  assert (Lm : length mask = length data_norm)
    by (unfold mask; now rewrite length_map).
  assert (En : nth k norm 0%Q =
               b_sqrt be (nth k data_norm 0%Q * Arr.sum (map Arr.sq temp_tr))%Q).
  { unfold norm. rewrite (nth_map_in _ _ k 0%Q) by (rewrite length_map; lia).
    now rewrite (nth_map_in _ data_norm k 0%Q) by lia. }
  assert (Em : nth k mask false =
               Qle_bool (nth k data_norm 0%Q) (energy_floor be N)).
  { unfold mask. now rewrite (nth_map_in _ data_norm k 0%Q) by lia. }
  destruct (b_cc_is_float be).
  - rewrite (nth_map2 _ cc (combine norm mask) k 0%Q (0%Q, false))
      by (rewrite ?length_combine; lia).
    rewrite nth_combine by lia. cbn [fst snd]. rewrite En, Em.
    now destruct (Qle_bool _ _).
  - rewrite (nth_map2 _ (map2 (b_div be) cc norm) mask k 0%Q false)
      by (rewrite ?map2_length; lia).
    rewrite (nth_map2 _ cc norm k 0%Q 0%Q) by lia.
    rewrite En, Em. now destruct (Qle_bool _ _).
Qed.

(** In the double-precision branch the lags under the energy floor are
    not divided and not zeroed: they keep the raw correlation. *)
Lemma float64_branch_keeps_raw (be : backend) (cc data_norm temp_tr : list Q)
  (N k : nat) :
  b_cc_is_float be = true ->
  (k < length cc)%nat -> (k < length data_norm)%nat ->
  (nth k data_norm 0%Q <= energy_floor be N)%Q ->
  nth k (normalize be cc data_norm temp_tr N) 0%Q = nth k cc 0%Q.
Proof.
  intros F Hc Hn G. rewrite normalize_nth by assumption. cbn zeta.
  apply Qle_bool_iff in G. now rewrite G, F.
Qed.

Lemma zero_where_masked (cc : list Q) :
  map2 (fun c (m : bool) => if m then 0%Q else c) cc (corrupt_mask cc) =
  map clipped cc.
Proof.
  unfold map2, corrupt_mask.
  induction cc as [|c cc IH]; [reflexivity|].
  cbn [map combine fst snd]. now rewrite IH.
Qed.

Lemma clip_corrupt_spec (cc : list Q) :
  exists o,
    clip_corrupt cc = (o, Ok (map clipped cc)) /\
    matches o = [] /\
    stdout o =
      if existsb (fun c => Arr.ltb (101 # 100) (Qabs c)) cc
      then ["Warning: cc > 1.0"%string] else [].
Proof.
  unfold clip_corrupt.
  assert (E : existsb (fun m : bool => m) (corrupt_mask cc) =
              existsb (fun c => Arr.ltb (101 # 100) (Qabs c)) cc).
  { unfold corrupt_mask. induction cc as [|c cc IH]; [reflexivity|].
    cbn [map existsb]. now rewrite IH. }
  rewrite E. destruct (existsb _ cc) eqn:X.
  - eexists. unfold iobind, print, ret. cbn [fst snd].
    rewrite zero_where_masked. split; [reflexivity|]. split; reflexivity.
  - exists silent. unfold ret. split; [|split; reflexivity].
    f_equal. f_equal. symmetry.
    rewrite <- (map_id cc) at 2. apply map_ext_in. intros c Hc.
    unfold clipped.
    destruct (Arr.ltb (101 # 100) (Qabs c)) eqn:G; [|reflexivity].
    assert (existsb (fun c => Arr.ltb (101 # 100) (Qabs c)) cc = true)
      by (apply existsb_exists; eauto).
    congruence.
Qed.

Lemma clipped_bound (c : Q) : (Qabs (clipped c) <= 101 # 100)%Q.
Proof.
  unfold clipped. destruct (Arr.ltb _ _) eqn:G.
  - discriminate.
  - now apply ltb_ge in G.
Qed.

Lemma pair_cc_spec (be : backend) (temp_tr data_tr data_norm : list Q)
  (cc_len N : nat) :
  let raw := map (b_xcorr be temp_tr data_tr cc_len)
                 (seq 0 (length data_tr - N + 1)) in
  let normed := normalize be raw data_norm temp_tr N in
  exists o,
    pair_cc be temp_tr data_tr data_norm cc_len N =
      (o, Ok (map clipped normed)) /\
    matches o = [] /\
    stdout o =
      if existsb (fun c => Arr.ltb (101 # 100) (Qabs c)) normed
      then ["Warning: cc > 1.0"%string] else [].
Proof. cbn zeta. unfold pair_cc. apply clip_corrupt_spec. Qed.

(** C1 (as amended).  In the single-precision branch of [matrix_cc], for a
    trace of length M and a template of length 1 <= N <= M, every lag k in
    [0, M - N] whose local window energy is at or below
    sqrt(machine_epsilon * N) holds exactly 0 in the correlation sequence,
    whatever the division produced there; every other lag holds the raw
    correlation divided by sqrt(window energy * template energy), or 0 when
    that quotient exceeds 1.01 in magnitude. *)
Theorem low_energy_lags_masked (be : backend)
  (temp_tr data_tr : list Q) (N cc_len : nat) :
  b_cc_is_float be = false ->
  (1 <= N <= length data_tr)%nat ->
  exists padded_tr data_norm o cc,
    pad_zeros data_tr (length data_tr) 1 (Some 0%nat) = Ok padded_tr /\
    window_sum (map Arr.sq padded_tr) N = Ok data_norm /\
    pair_cc be temp_tr data_tr data_norm cc_len N = (o, Ok cc) /\
    length cc = (length data_tr - N + 1)%nat /\
    forall k, (k <= length data_tr - N)%nat ->
      let e := nth k data_norm 0%Q in
      (e == energy data_tr k N)%Q /\
      ((e <= energy_floor be N)%Q -> nth k cc 0%Q = 0%Q) /\
      ((energy_floor be N < e)%Q ->
         nth k cc 0%Q =
         clipped (b_div be (b_xcorr be temp_tr data_tr cc_len k)
                    (b_sqrt be (e * Arr.sum (map Arr.sq temp_tr))))).
Proof.
  intros F H.
  destruct (local_energy_aligned_gen data_tr N H) as (p & dn & Ep & Ew & Ldn & V).
  destruct (pair_cc_spec be temp_tr data_tr dn cc_len N) as (o & Ec & _).
  exists p, dn, o. eexists. split; [exact Ep|]. split; [exact Ew|].
  split; [exact Ec|].
  set (raw := map (b_xcorr be temp_tr data_tr cc_len)
                  (seq 0 (length data_tr - N + 1))).
  assert (Lr : length raw = (length data_tr - N + 1)%nat)
    by (unfold raw; now rewrite length_map, length_seq).
  split.
  { rewrite length_map, normalize_length, Lr, Ldn. lia. }
  intros k Hk. cbn zeta. split; [apply V; exact Hk|].
  rewrite (nth_map_in clipped _ k 0%Q)
    by (rewrite normalize_length, Lr, Ldn; lia).
  rewrite normalize_nth by lia. cbn zeta. rewrite F.
  assert (Er : nth k raw 0%Q = b_xcorr be temp_tr data_tr cc_len k).
  { unfold raw. rewrite nth_map_seq by lia. reflexivity. }
  rewrite Er. split; intros G.
  - apply Qle_bool_iff in G. rewrite G. reflexivity.
  - destruct (Qle_bool _ _) eqn:B; [|reflexivity].
    apply Qle_bool_iff in B. lra.
Qed.

Lemma low_energy_lags_masked_witness :
  exists padded_tr data_norm o cc,
    pad_zeros [0; 0; 1; 1]%Q 4 1 (Some 0%nat) = Ok padded_tr /\
    window_sum (map Arr.sq padded_tr) 2 = Ok data_norm /\
    pair_cc reference_backend [1; 1]%Q [0; 0; 1; 1]%Q data_norm 4 2 =
      (o, Ok cc) /\
    length cc = 3%nat /\
    forall k, (k <= 2)%nat ->
      let e := nth k data_norm 0%Q in
      (e == energy [0; 0; 1; 1]%Q k 2)%Q /\
      ((e <= energy_floor reference_backend 2)%Q -> nth k cc 0%Q = 0%Q) /\
      ((energy_floor reference_backend 2 < e)%Q ->
         nth k cc 0%Q =
         clipped (Qdiv (circular_xcorr [1; 1]%Q [0; 0; 1; 1]%Q 4 k)
                    (qsqrt (e * Arr.sum (map Arr.sq [1; 1]%Q))))).
Proof.
  apply (low_energy_lags_masked reference_backend [1; 1]%Q [0; 0; 1; 1]%Q 2 4).
  - reflexivity.
  - simpl. lia.
Defined.

(** C1 (as stated) fails: the floor of the code is sqrt(eps * N), not
    sqrt(eps) * N.  With N = 2 the window [3/128, 0] has energy 9/16384,
    which is below sqrt(2^-23) * 2 but above sqrt(2^-23 * 2) = 2^-11; the
    lag is not masked and holds the correlation 1. *)
Lemma floor_is_sqrt_of_eps_times_N :
  let be := reference_backend in
  let data_tr := [3 # 128; 0]%Q in
  let temp_tr := [1; 0]%Q in
  exists padded_tr data_norm o cc,
    pad_zeros data_tr 2 1 (Some 0%nat) = Ok padded_tr /\
    window_sum (map Arr.sq padded_tr) 2 = Ok data_norm /\
    pair_cc be temp_tr data_tr data_norm 2 2 = (o, Ok cc) /\
    (nth 0 data_norm 0 == energy data_tr 0 2)%Q /\
    (nth 0 data_norm 0 < b_sqrt be (b_eps be) * 2)%Q /\
    (nth 0 cc 0 == 1)%Q /\
    ~ (nth 0 cc 0 == 0)%Q.
Proof.
  cbn zeta. do 4 eexists.
  split; [reflexivity|]. split; [reflexivity|]. split; [reflexivity|].
  split; [reflexivity|]. split; [reflexivity|]. split; [reflexivity|].
  discriminate.
Qed.

(** ** Shapes in [find_peaks] *)

Lemma upd_length {A : Type} (l : list A) (i : nat) (x : A) :
  length (Arr.upd l i x) = length l.
Proof.
  revert i. induction l as [|y l IH]; intros [|i]; simpl; auto.
Qed.

Lemma fill_length {A : Type} (l : list A) (lo hi : Z) (x : A) :
  length (Arr.fill l lo hi x) = length l.
Proof.
  unfold Arr.fill. rewrite length_map, length_combine, length_seq. lia.
Qed.

Lemma exclude_length (distance : nat) (peaks : list bool) (x : nat) :
  length (exclude distance peaks x) = length peaks.
Proof.
  unfold exclude, Arr.slice_assign. destruct (nth x peaks false); [|reflexivity].
  now rewrite upd_length, fill_length.
Qed.

Lemma fold_exclude_length (distance : nat) (order : list nat)
  (peaks : list bool) :
  length (fold_left (exclude distance) order peaks) = length peaks.
Proof.
  revert peaks. induction order as [|x order IH]; intros peaks; [reflexivity|].
  cbn [fold_left]. now rewrite IH, exclude_length.
Qed.

Lemma scan_length (abs_cc : list Q) (thr : Q) (it : list nat) :
  forall x p peaks, length (scan abs_cc thr it x p peaks) = length peaks.
Proof.
  induction it as [|y it IH]; intros x p peaks; cbn [scan].
  - repeat match goal with
           | |- context [if ?b then _ else _] => destruct b
           end; rewrite ?upd_length; reflexivity.
  - repeat match goal with
           | |- context [if ?b then _ else _] => destruct b
           end; rewrite ?IH, ?upd_length; reflexivity.
Qed.

Lemma reduce_runs_length (abs_cc : list Q) (thr : Q) (tops : list nat)
  (peaks : list bool) :
  length (reduce_runs abs_cc thr tops peaks) = length peaks.
Proof.
  unfold reduce_runs. destruct tops as [|x it]; [reflexivity|].
  destruct (Arr.ltb _ _); [reflexivity|].
  now rewrite scan_length, upd_length.
Qed.

(** The three arrays that [find_peaks] returns, in terms of the first. *)
Lemma find_peaks_shape (cfg : config) (day_cc : list Q) (distance : nat) :
  exists tops,
    find_peaks cfg day_cc distance =
      (tops,
       map (fun x => nth x day_cc 0%Q) tops,
       map (fun c => match daily_mad day_cc with
                     | Some m => Some (c / m)%Q
                     | None => None
                     end)
           (map (fun x => nth x day_cc 0%Q) tops)) /\
    Forall (fun x => (x < length day_cc)%nat) tops.
Proof.
  unfold find_peaks. eexists. split; [reflexivity|].
  apply Forall_forall. intros x H. apply where_bound in H.
  now rewrite fold_exclude_length, reduce_runs_length, repeat_length in H.
Qed.

(** ** Writing computations *)

Lemma iobind_matches {A B : Type} (m : io A) (k : A -> io B) :
  matches (fst (iobind m k)) =
  (matches (fst m) ++
   match snd m with
   | Ok a => matches (fst (k a))
   | Raise _ => []
   end)%list.
Proof.
  unfold iobind. destruct m as [o [a|e]]; cbn [fst snd out_app matches].
  - reflexivity.
  - now rewrite app_nil_r.
Qed.

Lemma iobind_ok {A B : Type} (m : io A) (k : A -> io B) (o : output) (a : A) :
  m = (o, Ok a) -> iobind m k = (out_app o (fst (k a)), snd (k a)).
Proof. intros ->. reflexivity. Qed.

Lemma lift_bind {A B : Type} (a : A) (k : A -> io B) :
  matches (fst (iobind (lift (Ok a)) k)) = matches (fst (k a)) /\
  snd (iobind (lift (Ok a)) k) = snd (k a).
Proof. split; reflexivity. Qed.

Lemma process_matches_spec (peaks : list nat) (cc : list Q)
  (mad : list (option Q)) (amps : list Q) (start : Q) (file : string) :
  exists o,
    process_matches peaks cc mad amps start file =
      (o, Ok (Z.of_nat (length (matches o)))) /\
    Forall (fun d => In (det_cc d) cc /\ In (det_lag d) peaks /\
                     det_file d = file /\ det_start d = start)
           (matches o).
Proof.
  unfold process_matches. set (lines := map _ _).
  assert (F : Forall (fun d => In (det_cc d) cc /\ In (det_lag d) peaks /\
                        det_file d = file /\ det_start d = start) lines).
  { apply Forall_forall. intros d H. apply in_map_iff in H.
    destruct H as ([[[x c] m] a] & <- & H). cbn.
    apply in_combine_l in H. apply in_combine_l in H.
    split; [now apply in_combine_r in H|].
    split; [now apply in_combine_l in H|]. split; reflexivity. }
  exists {| matches := lines; stdout := [] |}.
  unfold iobind, append_lines, ret, out_app, silent. cbn [fst snd matches stdout].
  rewrite app_nil_r. split; [reflexivity | exact F].
Qed.

Lemma mapM_ok {A B : Type} (f : A -> result B) (l : list A) :
  Forall (fun a => exists b, f a = Ok b) l ->
  exists bs, mapM f l = Ok bs.
Proof.
  induction 1 as [|a l (b & E) _ (bs & IH)]; cbn [mapM].
  - eexists; reflexivity.
  - rewrite E, IH. eexists; reflexivity.
Qed.

Lemma max_ok (a : list Q) : a <> [] -> exists m, Arr.max a = Ok m.
Proof. destruct a; [contradiction|]. intros _. eexists; reflexivity. Qed.

Lemma in_combine_seq {A : Type} (l : list A) (s i : nat) (a : A) :
  In (i, a) (combine (seq s (length l)) l) ->
  (s <= i)%nat /\ nth_error l (i - s) = Some a.
Proof.
  revert s. induction l as [|x l IH]; intros s H; [destruct H|].
  cbn [length seq combine] in H. destruct H as [H|H].
  - injection H as <- <-. rewrite Nat.sub_diag. split; [lia | reflexivity].
  - apply IH in H. destruct H as (L & H). split; [lia|].
    replace (i - s)%nat with (S (i - S s)) by lia. exact H.
Qed.

Lemma in_enumerate {A : Type} (l : list A) (i : nat) (a : A) :
  In (i, a) (enumerate l) -> nth_error l i = Some a.
Proof.
  intros H. apply in_combine_seq in H. destruct H as (_ & H).
  now rewrite Nat.sub_0_r in H.
Qed.

(** ** The loops of [matrix_cc] *)

Lemma counted_bind_silent {A : Type} (m : io A) (k : A -> io Z)
  (o : output) (a : A) :
  m = (o, Ok a) -> matches o = [] -> counted (k a) -> counted (iobind m k).
Proof.
  intros -> S C. unfold counted, iobind in *.
  cbn [fst snd out_app matches]. rewrite S. exact C.
Qed.

Lemma pair_body_cc_bound (be : backend) (cfg : config)
  (temp_files : list string) (t_data : list Q) (cc_len N j : nat)
  (data_tr data_abs data_norm : list Q) (i : nat) (temp_tr : list Q) :
  Forall (fun d => (Qabs (det_cc d) <= 101 # 100)%Q)
    (matches (fst (pair_body be cfg temp_files t_data cc_len N j
                     data_tr data_abs data_norm i temp_tr))).
Proof.
  unfold pair_body. rewrite iobind_matches.
  destruct (Arr.max (map Qabs temp_tr)) as [temp_amp|e]; cbn [lift fst snd matches silent app];
    [|constructor].
  rewrite iobind_matches.
  destruct (pair_cc_spec be temp_tr data_tr data_norm cc_len N) as (o & -> & S & _).
  cbn [fst snd]. rewrite S. cbn [app].
  set (cc := map clipped _).
  destruct (find_peaks_shape cfg cc N) as (tops & -> & B).
  destruct (length tops =? 0)%nat; [constructor|].
  rewrite iobind_matches.
  destruct (mapM _ tops) as [amps|e]; cbn [lift fst snd matches silent app];
    [|constructor].
  rewrite iobind_matches.
  destruct (index t_data j) as [start|e]; cbn [lift fst snd matches silent app];
    [|constructor].
  rewrite iobind_matches.
  destruct (index temp_files i) as [file|e]; cbn [lift fst snd matches silent app];
    [|constructor].
  match goal with
  | |- context [process_matches ?p ?c ?m ?a ?s ?f] =>
      destruct (process_matches_spec p c m a s f) as (o' & -> & F)
  end.
  cbn [fst]. eapply Forall_impl; [|exact F].
  intros d (H & _). apply in_map_iff in H. destruct H as (x & <- & Hx).
  rewrite Forall_forall in B. specialize (B x Hx).
  unfold cc in *. rewrite length_map in B.
  rewrite (nth_map_in clipped _ x 0%Q) by exact B. apply clipped_bound.
Qed.

Lemma pair_body_counted (be : backend) (cfg : config)
  (temp_files : list string) (t_data : list Q) (cc_len N j : nat)
  (data_tr data_norm : list Q) (i : nat) (temp_tr : list Q) :
  (1 <= N <= length data_tr)%nat ->
  length temp_tr = N ->
  length data_norm = (length data_tr - N + 1)%nat ->
  (j < length t_data)%nat ->
  (i < length temp_files)%nat ->
  counted (pair_body be cfg temp_files t_data cc_len N j
             data_tr (map Qabs data_tr) data_norm i temp_tr).
Proof.
  intros HN Ht Hn Hj Hi. unfold pair_body.
  destruct (max_ok (map Qabs temp_tr)) as (temp_amp & Ea).
  { destruct temp_tr; [simpl in Ht; lia | discriminate]. }
  rewrite Ea. eapply counted_bind_silent; [reflexivity..|].
  destruct (pair_cc_spec be temp_tr data_tr data_norm cc_len N) as (o & Ec & S & _).
  eapply counted_bind_silent; [exact Ec | exact S|].
  set (cc := map clipped _).
  assert (Lc : (length cc <= length data_tr - N + 1)%nat).
  { unfold cc. rewrite length_map, normalize_length, length_map, length_seq. lia. }
  destruct (find_peaks_shape cfg cc N) as (tops & -> & B).
  destruct (length tops =? 0)%nat; [reflexivity|].
  match goal with
  | |- context [mapM ?f tops] => destruct (mapM_ok f tops) as (amps & Em)
  end.
  { eapply Forall_impl; [|exact B]. intros x Hx. cbv beta in Hx |- *.
    destruct (max_ok (Arr.slice (map Qabs data_tr) x (x + N))) as (m & ->);
      [|eexists; reflexivity].
    unfold Arr.slice. replace (x + N - x)%nat with N by lia.
    intros E. apply (f_equal (@length Q)) in E.
    rewrite length_firstn, length_skipn, length_map in E. cbn [length] in E. lia. }
  rewrite Em. eapply counted_bind_silent; [reflexivity..|].
  unfold index.
  destruct (nth_error t_data j) as [start|] eqn:Es;
    [|apply nth_error_None in Es; lia].
  eapply counted_bind_silent; [reflexivity..|].
  destruct (nth_error temp_files i) as [file|] eqn:Ef;
    [|apply nth_error_None in Ef; lia].
  eapply counted_bind_silent; [reflexivity..|].
  match goal with
  | |- context [process_matches ?p ?c ?m ?a ?s ?f] =>
      destruct (process_matches_spec p c m a s f) as (o' & E' & _)
  end.
  unfold counted. rewrite E'. reflexivity.
Qed.

Lemma for_templates_spec (body : nat -> list Q -> io Z)
  (rows : list (nat * list Q)) (n0 : Z) :
  Forall (fun it => counted (body (fst it) (snd it))) rows ->
  let m := for_templates body rows n0 in
  matches (fst m) =
    flat_map (fun it => matches (fst (body (fst it) (snd it)))) rows /\
  snd m = Ok (n0 + Z.of_nat (length (matches (fst m)))).
Proof.
  cbn zeta. intros H. revert n0.
  induction H as [|[i t] rows C _ IH]; intros n0; cbn [for_templates].
  - unfold ret. cbn. split; [reflexivity | f_equal; lia].
  - cbn [fst snd] in C. unfold counted in C.
    destruct (body i t) as [o r] eqn:E. cbn [fst snd] in C. subst r.
    unfold iobind. cbn [fst snd out_app matches flat_map].
    rewrite E. cbn [fst].
    destruct (IH (n0 + Z.of_nat (length (matches o)))) as (M & R).
    rewrite M, R. split; [reflexivity|].
    f_equal. rewrite M, !length_app. lia.
Qed.

Lemma for_data_spec (body : nat -> list Q -> Z -> io Z)
  (lines : nat * list Q -> list detection)
  (traces : list (nat * list Q)) (n0 : Z) :
  Forall (fun jd => forall n,
            matches (fst (body (fst jd) (snd jd) n)) = lines jd /\
            snd (body (fst jd) (snd jd) n) =
              Ok (n + Z.of_nat (length (lines jd)))) traces ->
  let m := for_data body traces n0 in
  matches (fst m) = flat_map lines traces /\
  snd m = Ok (n0 + Z.of_nat (length (matches (fst m)))).
Proof.
  cbn zeta. intros H. revert n0.
  induction H as [|[j d] traces C _ IH]; intros n0; cbn [for_data].
  - unfold ret. cbn. split; [reflexivity | f_equal; lia].
  - cbn [fst snd] in C. destruct (C n0) as (M & R).
    destruct (body j d n0) as [o r] eqn:E. cbn [fst snd] in M, R. subst r.
    unfold iobind. cbn [fst snd out_app matches flat_map].
    destruct (IH (n0 + Z.of_nat (length (lines (j, d))))) as (M' & R').
    rewrite M, M', R'. split; [reflexivity|].
    f_equal. rewrite M', !length_app. lia.
Qed.

Lemma flat_map_nil {A B : Type} (f : A -> list B) (l : list A) :
  (forall a, In a l -> f a = []) -> flat_map f l = [].
Proof.
  induction l as [|a l IH]; intros H; [reflexivity|].
  cbn [flat_map]. rewrite (H a) by now left.
  apply IH. intros b Hb. apply H. now right.
Qed.

Lemma search_regular_ge (fuel n : nat) : (n <= search_regular fuel n)%nat.
Proof.
  revert n. induction fuel as [|fuel IH]; intros n; cbn [search_regular].
  - lia.
  - destruct (is_regular n); [lia|]. specialize (IH (S n)). lia.
Qed.

Lemma next_fast_len_ge (n : nat) : (n <= next_fast_len n)%nat.
Proof.
  unfold next_fast_len. destruct (n <=? 6)%nat; [lia|].
  apply search_regular_ge.
Qed.

Lemma list_max_ge (l : list nat) (x : nat) :
  In x l -> (x <= list_max l)%nat.
Proof.
  intros H. pose proof (list_max_le l (list_max l)) as [F _].
  specialize (F (Nat.le_refl _)). rewrite Forall_forall in F. now apply F.
Qed.

Section Skipping.

Variable be : backend.
Variable cfg : config.
Variable templates : array2.
Variable temp_files : list string.
Variable t_data : list Q.
Variable cc_len : nat.

Local Abbreviation N := (a_cols templates).

Hypothesis rows_shape : Forall (fun r => length r = N) (a_rows templates).
Hypothesis files_shape : (length (a_rows templates) <= length temp_files)%nat.
Hypothesis N_pos : (1 <= N)%nat.

Lemma trace_body_spec (j : nat) (data_tr : list Q) (n : Z) :
  (j < length t_data)%nat ->
  let m := trace_body be cfg templates temp_files t_data cc_len j data_tr n in
  matches (fst m) =
    trace_lines be cfg templates temp_files t_data cc_len (j, data_tr) /\
  snd m =
    Ok (n + Z.of_nat (length (trace_lines be cfg templates temp_files
                                          t_data cc_len (j, data_tr)))).
Proof.
  intros Hj. cbn zeta. unfold trace_body, trace_lines. cbn [fst snd].
  destruct (length data_tr <? N)%nat eqn:Short.
  - rewrite flat_map_nil by reflexivity. unfold ret. cbn.
    split; [reflexivity | f_equal; lia].
  - apply Nat.ltb_ge in Short. unfold pair_lines.
    destruct (local_energy_aligned_gen data_tr N) as (p & dn & -> & Ew & Ldn & _);
      [lia|].
    rewrite Ew. unfold iobind, lift. cbn [fst snd]. rewrite Ew. cbn [fst snd].
    match goal with
    | |- context [for_templates ?b ?r n] =>
        destruct (for_templates_spec b r n) as (M & R)
    end.
    { apply Forall_forall. intros [i t] Hit. cbn [fst snd].
      pose proof (in_enumerate _ _ _ Hit) as Ei.
      assert (Li : (i < length (a_rows templates))%nat)
        by (apply nth_error_Some; congruence).
      apply nth_error_In in Ei. rewrite Forall_forall in rows_shape.
      apply pair_body_counted; auto; lia. }
    cbn [out_app matches silent app].
    split; [exact M|]. rewrite R, M. reflexivity.
Qed.

End Skipping.

(** What a call of [matrix_cc] on a well-shaped chunk writes and returns:
    for each trace, for each template, the lines of the pair when the
    trace is long enough. *)
Lemma matrix_cc_lines (be : backend) (cfg : config)
  (templates : array2) (data : list (list Q))
  (temp_files : list string) (t_data : list Q) :
  let N := a_cols templates in
  let cc_len := next_fast_len (list_max (map (@length Q) data)) in
  Forall (fun r => length r = N) (a_rows templates) ->
  (length (a_rows templates) <= length temp_files)%nat ->
  length t_data = length data ->
  (1 <= N)%nat ->
  data <> [] ->
  exists o n,
    matrix_cc be cfg templates data temp_files t_data = (o, Ok n) /\
    n = Z.of_nat (length (matches o)) /\
    matches o =
      flat_map (fun jd =>
        flat_map (fun it =>
          if (length (snd jd) <? N)%nat then []
          else pair_lines be cfg temp_files t_data cc_len N
                 (fst jd) (snd jd) (fst it) (snd it))
          (enumerate (a_rows templates)))
        (enumerate data).
Proof.
  cbn zeta. intros Hrows Hfiles Htimes Npos Hdata.
  set (N := a_cols templates) in *.
  set (cc_len := next_fast_len _).
  unfold matrix_cc. fold N. fold cc_len.
  destruct data as [|d0 data']; [contradiction|].
  set (data := d0 :: data') in *.
  destruct (cc_len <? N)%nat eqn:Tiny.
  - apply Nat.ltb_lt in Tiny. do 2 eexists. split; [reflexivity|].
    cbn [fst snd out_app matches print ret silent app length].
    split; [reflexivity|]. symmetry. apply flat_map_nil.
    intros [j d] Hjd. apply flat_map_nil. intros it _. cbn [fst snd].
    apply in_enumerate, nth_error_In in Hjd.
    assert (length d <= list_max (map (@length Q) data))%nat
      by (apply list_max_ge, in_map, Hjd).
    pose proof (next_fast_len_ge (list_max (map (@length Q) data))).
    fold cc_len in H0.
    assert ((length d <? N)%nat = true) as -> by (apply Nat.ltb_lt; lia).
    reflexivity.
  - match goal with
    | |- context [for_data ?b ?l 0] =>
        destruct (for_data_spec b
                    (trace_lines be cfg templates temp_files t_data cc_len)
                    l 0) as (M & R)
    end.
    { apply Forall_forall. intros [j d] Hjd n. cbn [fst snd].
      apply trace_body_spec; auto.
      apply in_enumerate in Hjd. rewrite Htimes.
      apply nth_error_Some. congruence. }
    destruct (for_data _ _ 0) as [o r]. cbn [fst snd] in M, R.
    exists o. eexists. split; [rewrite R; reflexivity|].
    split; [lia|]. exact M.
Qed.

(** C7.  When the template length N exceeds the length M of some trace of
    the chunk, [matrix_cc] raises nothing, the pairs of every trace with
    N > M contribute no line, and the other pairs of the chunk are still
    processed: each of them contributes the lines of its own correlation
    sequence. *)
Theorem short_traces_skipped (be : backend) (cfg : config)
  (templates : array2) (data : list (list Q))
  (temp_files : list string) (t_data : list Q) :
  let N := a_cols templates in
  let cc_len := next_fast_len (list_max (map (@length Q) data)) in
  Forall (fun r => length r = N) (a_rows templates) ->
  (length (a_rows templates) <= length temp_files)%nat ->
  length t_data = length data ->
  (exists data_tr, In data_tr data /\ (length data_tr < N)%nat) ->
  exists o n,
    matrix_cc be cfg templates data temp_files t_data = (o, Ok n) /\
    n = Z.of_nat (length (matches o)) /\
    matches o =
      flat_map (fun jd =>
        flat_map (fun it =>
          if (length (snd jd) <? N)%nat then []
          else pair_lines be cfg temp_files t_data cc_len N
                 (fst jd) (snd jd) (fst it) (snd it))
          (enumerate (a_rows templates)))
        (enumerate data).
Proof.
  cbn zeta. intros Hrows Hfiles Htimes (short & Hin & Hshort).
  apply matrix_cc_lines; auto; [lia|].
  destruct data; [destruct Hin | discriminate].
Qed.

Lemma short_traces_skipped_witness :
  exists o n,
    matrix_cc reference_backend
      {| cc_threshold := 7 # 10; mad_threshold := 8;
         combine_thresholds := true; use_cupy := false |}
      {| a_cols := 2; a_rows := [[1; 1]%Q] |}
      [[1]%Q; [0; 0; 0; 1; 1; 0; 0; 0]%Q] ["t"%string] [0; 86400]%Q
      = (o, Ok n) /\
    n = Z.of_nat (length (matches o)) /\
    matches o =
      flat_map (fun jd =>
        flat_map (fun it =>
          if (length (snd jd) <? 2)%nat then []
          else pair_lines reference_backend
                 {| cc_threshold := 7 # 10; mad_threshold := 8;
                    combine_thresholds := true; use_cupy := false |}
                 ["t"%string] [0; 86400]%Q
                 (next_fast_len
                    (list_max (map (@length Q)
                       [[1]%Q; [0; 0; 0; 1; 1; 0; 0; 0]%Q])))
                 2 (fst jd) (snd jd) (fst it) (snd it))
          (enumerate [[1; 1]%Q]))
        (enumerate [[1]%Q; [0; 0; 0; 1; 1; 0; 0; 0]%Q]).
Proof.
  apply (short_traces_skipped reference_backend
           {| cc_threshold := 7 # 10; mad_threshold := 8;
              combine_thresholds := true; use_cupy := false |}
           {| a_cols := 2; a_rows := [[1; 1]%Q] |}
           [[1]%Q; [0; 0; 0; 1; 1; 0; 0; 0]%Q] ["t"%string] [0; 86400]%Q).
  - repeat constructor.
  - simpl. lia.
  - reflexivity.
  - exists [1]%Q. split; [now left | simpl; lia].
Defined.

Lemma for_templates_all (P : detection -> Prop)
  (body : nat -> list Q -> io Z) (rows : list (nat * list Q)) (n : Z) :
  (forall i t, Forall P (matches (fst (body i t)))) ->
  Forall P (matches (fst (for_templates body rows n))).
Proof.
  intros H. revert n. induction rows as [|[i t] rows IH]; intros n;
    cbn [for_templates].
  - constructor.
  - rewrite iobind_matches. apply Forall_app. split; [apply H|].
    destruct (snd (body i t)); [apply IH | constructor].
Qed.

Lemma for_data_all (P : detection -> Prop)
  (body : nat -> list Q -> Z -> io Z) (traces : list (nat * list Q)) (n : Z) :
  (forall j d n, Forall P (matches (fst (body j d n)))) ->
  Forall P (matches (fst (for_data body traces n))).
Proof.
  intros H. revert n. induction traces as [|[j d] traces IH]; intros n;
    cbn [for_data].
  - constructor.
  - rewrite iobind_matches. apply Forall_app. split; [apply H|].
    destruct (snd (body j d n)); [apply IH | constructor].
Qed.

Lemma matrix_cc_cc_bound (be : backend) (cfg : config) (templates : array2)
  (data : list (list Q)) (temp_files : list string) (t_data : list Q) :
  Forall (fun d => (Qabs (det_cc d) <= 101 # 100)%Q)
    (matches (fst (matrix_cc be cfg templates data temp_files t_data))).
Proof.
  unfold matrix_cc. destruct data as [|d0 data]; [constructor|].
  destruct (_ <? _)%nat; [constructor|].
  apply for_data_all. intros j d n. unfold trace_body.
  destruct (_ <? _)%nat; [constructor|].
  rewrite iobind_matches. cbn [lift fst snd matches silent app].
  destruct (pad_zeros _ _ _ _); [|constructor].
  rewrite iobind_matches. cbn [lift fst snd matches silent app].
  destruct (window_sum _ _); [|constructor].
  apply for_templates_all. intros i t. apply pair_body_cc_bound.
Qed.

(** C4.  In the correlation sequence that [matrix_cc] hands to
    [find_peaks], every lag whose normalised magnitude exceeds 1.01 holds
    0 and the warning is printed; the other lags are unchanged.  No value
    of the sequence, no value that [find_peaks] returns from it, and no
    line that [matrix_cc] writes has an absolute correlation above 1.01. *)
Theorem corrupt_lags_never_detected (be : backend) (cfg : config)
  (temp_tr data_tr data_norm : list Q) (cc_len N : nat)
  (templates : array2) (data : list (list Q))
  (temp_files : list string) (t_data : list Q) :
  let normed :=
    normalize be (map (b_xcorr be temp_tr data_tr cc_len)
                      (seq 0 (length data_tr - N + 1)))
              data_norm temp_tr N in
  (exists o cc,
     pair_cc be temp_tr data_tr data_norm cc_len N = (o, Ok cc) /\
     length cc = length normed /\
     (forall k, (k < length normed)%nat ->
        ((101 # 100 < Qabs (nth k normed 0%Q))%Q ->
           nth k cc 0%Q = 0%Q /\ stdout o = ["Warning: cc > 1.0"%string]) /\
        ((Qabs (nth k normed 0%Q) <= 101 # 100)%Q ->
           nth k cc 0%Q = nth k normed 0%Q)) /\
     Forall (fun c => (Qabs c <= 101 # 100)%Q) cc /\
     Forall (fun c => (Qabs c <= 101 # 100)%Q)
            (snd (fst (find_peaks cfg cc N)))) /\
  Forall (fun d => (Qabs (det_cc d) <= 101 # 100)%Q)
    (matches (fst (matrix_cc be cfg templates data temp_files t_data))).
Proof.
  cbn zeta. split; [|apply matrix_cc_cc_bound].
  destruct (pair_cc_spec be temp_tr data_tr data_norm cc_len N)
    as (o & E & _ & W).
  set (normed := normalize _ _ _ _ _) in *.
  exists o, (map clipped normed). split; [exact E|].
  split; [apply length_map|].
  assert (B : Forall (fun c => (Qabs c <= 101 # 100)%Q) (map clipped normed)).
  { apply Forall_forall. intros c Hc. apply in_map_iff in Hc.
    destruct Hc as (v & <- & _). apply clipped_bound. }
  split; [|split; [exact B|]].
  - intros k Hk. rewrite (nth_map_in clipped normed k 0%Q) by exact Hk.
    unfold clipped. split; intros G.
    + assert (X : Arr.ltb (101 # 100) (Qabs (nth k normed 0%Q)) = true)
        by now apply ltb_lt.
      rewrite X. split; [reflexivity|].
      assert (existsb (fun c => Arr.ltb (101 # 100) (Qabs c)) normed = true)
        as Y by (apply existsb_exists; eexists; split;
                 [apply nth_In; exact Hk | exact X]).
      now rewrite Y in W.
    + assert (X : Arr.ltb (101 # 100) (Qabs (nth k normed 0%Q)) = false)
        by now apply ltb_ge.
      now rewrite X.
  - destruct (find_peaks_shape cfg (map clipped normed) N) as (tops & -> & T).
    cbn [fst snd]. apply Forall_forall. intros c Hc.
    apply in_map_iff in Hc. destruct Hc as (x & <- & Hx).
    rewrite Forall_forall in T, B. apply B, nth_In, T, Hx.
Qed.

Lemma corrupt_lags_never_detected_witness :
  let be := {| b_sqrt := qsqrt; b_div := Qdiv; b_eps := 1 # (2 ^ 23);
               b_cc_is_float := false;
               b_xcorr := fun _ _ _ k => if (k =? 0)%nat then 5%Q else 1%Q |} in
  exists o cc,
    pair_cc be [1; 1]%Q [1; 1; 1]%Q [2; 2]%Q 4 2 = (o, Ok cc) /\
    nth 0 cc 0%Q = 0%Q /\
    stdout o = ["Warning: cc > 1.0"%string].
Proof.
  cbn zeta.
  destruct (corrupt_lags_never_detected
              {| b_sqrt := qsqrt; b_div := Qdiv; b_eps := 1 # (2 ^ 23);
                 b_cc_is_float := false;
                 b_xcorr := fun _ _ _ k => if (k =? 0)%nat then 5%Q else 1%Q |}
              {| cc_threshold := 7 # 10; mad_threshold := 8;
                 combine_thresholds := true; use_cupy := false |}
              [1; 1]%Q [1; 1; 1]%Q [2; 2]%Q 4 2
              {| a_cols := 2; a_rows := [] |} [] [] [])
    as ((o & cc & E & L & V & _) & _).
  exists o, cc. split; [exact E|].
  apply (proj1 (V 0%nat ltac:(vm_compute; lia))). reflexivity.
Defined.

(** C3 fails on the code.  Candidates at lags 1 (|cc| = 0.9) and 3
    (|cc| = 0.8) of a sequence of 30 lags, with exclusion radius 5: the
    slice [x - 5 : x + 5] starts at a negative index, which counts from
    the end of the array, so it is empty and nothing is suppressed.  Both
    lags are returned although they are 2 samples apart. *)
Theorem exclusion_wraps_near_start :
  let cfg := {| cc_threshold := 7 # 10; mad_threshold := 8;
                combine_thresholds := true; use_cupy := false |} in
  let day_cc := ([0; 9 # 10; 0; 8 # 10] ++ repeat 0 26)%Q%list in
  candidates (map Qabs day_cc) (local_threshold cfg (daily_mad day_cc))
    = [1; 3]%nat /\
  fst (fst (find_peaks cfg day_cc 5)) = [1; 3]%nat /\
  Arr.slice_assign (repeat true 30) (1 - 5) (1 + 5) false = repeat true 30.
Proof. cbn zeta. split; [|split]; reflexivity. Qed.

(** The exclusion slice is half-open: a weaker peak exactly [distance]
    samples after a stronger one is not suppressed by it, and suppresses
    it in its own turn. *)
Lemma exclusion_at_exact_distance :
  let cfg := {| cc_threshold := 7 # 10; mad_threshold := 8;
                combine_thresholds := true; use_cupy := false |} in
  let day_cc :=
    (repeat 0 10 ++ [9 # 10] ++ repeat 0 4 ++ [8 # 10] ++ repeat 0 14)%Q%list in
  fst (fst (find_peaks cfg day_cc 5)) = [15%nat].
Proof. reflexivity. Qed.

(** ** Non-maximum suppression away from the start of the array *)

Lemma nth_upd {A : Type} (l : list A) (i k : nat) (x d : A) :
  nth k (Arr.upd l i x) d =
  if ((k =? i) && (i <? length l))%nat then x else nth k l d.
Proof.
  revert i k. induction l as [|y l IH]; intros i k.
  - cbn. rewrite andb_false_r. reflexivity.
  - destruct i as [|i], k as [|k]; cbn [Arr.upd nth length]; try reflexivity.
    rewrite IH. reflexivity.
Qed.

Lemma nth_fill (l : list bool) (lo hi : Z) (k : nat) :
  nth k (Arr.fill l lo hi false) false =
  if (lo <=? Z.of_nat k) && (Z.of_nat k <? hi) then false else nth k l false.
Proof.
  unfold Arr.fill.
  destruct (Nat.lt_ge_cases k (length l)) as [L|L].
  - rewrite (nth_map_in _ (combine (seq 0 (length l)) l) k (0%nat, false))
      by (rewrite length_combine, length_seq; lia).
    rewrite nth_combine by (rewrite ?length_seq; lia).
    cbn [fst snd]. now rewrite seq_nth by lia.
  - rewrite !nth_overflow; [now destruct (_ && _) | lia |].
    rewrite length_map, length_combine, length_seq. lia.
Qed.

Lemma exclude_mono (distance : nat) (peaks : list bool) (x y : nat) :
  nth y (exclude distance peaks x) false = true -> nth y peaks false = true.
Proof.
  unfold exclude, Arr.slice_assign.
  destruct (nth x peaks false) eqn:P; [|auto].
  rewrite nth_upd, nth_fill.
  destruct (y =? x)%nat eqn:E.
  - apply Nat.eqb_eq in E. subst y. now rewrite P.
  - cbn [andb]. destruct (_ && _); [discriminate | auto].
Qed.

Lemma exclude_clears (distance : nat) (peaks : list bool) (x y : nat) :
  (distance <= x)%nat -> nth x peaks false = true -> y <> x ->
  (x - distance <= y < x + distance)%nat ->
  nth y (exclude distance peaks x) false = false.
Proof.
  intros Hx P N R. unfold exclude, Arr.slice_assign. rewrite P.
  rewrite nth_upd, nth_fill.
  assert ((y =? x)%nat = false) as -> by (apply Nat.eqb_neq; exact N).
  cbn [andb]. unfold Py.slice_index.
  assert ((Z.of_nat x - Z.of_nat distance <? 0) = false) as ->
    by (apply Z.ltb_ge; lia).
  assert ((Z.of_nat x + Z.of_nat distance <? 0) = false) as ->
    by (apply Z.ltb_ge; lia).
  destruct (Nat.lt_ge_cases y (length peaks)) as [L|L].
  - assert ((Z.min (Z.of_nat x - Z.of_nat distance) (Z.of_nat (length peaks))
             <=? Z.of_nat y) = true) as -> by (apply Z.leb_le; lia).
    assert ((Z.of_nat y <?
             Z.min (Z.of_nat x + Z.of_nat distance) (Z.of_nat (length peaks)))
            = true) as -> by (apply Z.ltb_lt; lia).
    reflexivity.
  - rewrite (nth_overflow peaks) by exact L. now destruct (_ && _).
Qed.

Lemma fold_exclude_mono (distance : nat) (order : list nat)
  (peaks : list bool) (y : nat) :
  nth y (fold_left (exclude distance) order peaks) false = true ->
  nth y peaks false = true.
Proof.
  revert peaks. induction order as [|z order IH]; intros peaks H; [exact H|].
  cbn [fold_left] in H. apply IH in H. now apply exclude_mono in H.
Qed.

Lemma fold_exclude_separates (distance : nat) (order : list nat) :
  Forall (fun x => (distance <= x)%nat) order ->
  forall peaks x y,
    In x order ->
    nth x (fold_left (exclude distance) order peaks) false = true ->
    nth y (fold_left (exclude distance) order peaks) false = true ->
    y <> x ->
    ~ (x - distance <= y < x + distance)%nat.
Proof.
  induction 1 as [|z order Hz _ IH]; intros peaks x y Hin Px Py N R;
    [destruct Hin|].
  cbn [fold_left] in Px, Py. destruct Hin as [->|Hin].
  - apply fold_exclude_mono in Px, Py.
    pose proof (exclude_mono _ _ _ _ Px) as P0.
    rewrite (exclude_clears distance peaks x y Hz P0 N R) in Py. discriminate.
  - exact (IH _ x y Hin Px Py N R).
Qed.

Lemma in_insert_desc (abs_cc : list Q) (x z : nat) (l : list nat) :
  In z (insert_desc abs_cc x l) <-> z = x \/ In z l.
Proof.
  induction l as [|y l IH]; cbn [insert_desc].
  - cbn. intuition.
  - destruct (Arr.ltb _ _); cbn [In]; [rewrite IH|]; intuition.
Qed.

Lemma in_sort_desc (abs_cc : list Q) (z : nat) (l : list nat) :
  In z (sort_desc abs_cc l) <-> In z l.
Proof.
  induction l as [|x l IH]; [reflexivity|].
  cbn [sort_desc fold_right]. rewrite in_insert_desc.
  unfold sort_desc in IH. rewrite IH. cbn. intuition.
Qed.

Lemma scan_above (abs_cc : list Q) (thr : Q) (it : list nat) :
  forall x p peaks z,
    nth z (scan abs_cc thr it x p peaks) false = true ->
    nth z peaks false = true \/ (thr <= nth z abs_cc 0)%Q.
Proof.
  induction it as [|y it IH]; intros x p peaks z; cbn [scan].
  - destruct (x + 1 <? length abs_cc)%nat; [|auto].
    destruct (Arr.ltb (nth (x + 1) abs_cc 0%Q) thr) eqn:B; [auto|].
    destruct (Arr.ltb p _); [|auto].
    rewrite !nth_upd. apply ltb_ge in B.
    destruct ((z =? x + 1) && _)%nat eqn:E1.
    + apply andb_prop in E1. destruct E1 as (E1 & _).
      apply Nat.eqb_eq in E1. subst z. auto.
    + destruct ((z =? x) && _)%nat; [discriminate | auto].
  - assert (Resume :
      nth z (if Arr.ltb (nth y abs_cc 0%Q) thr then peaks
             else scan abs_cc thr it y (nth y abs_cc 0%Q)
                       (Arr.upd peaks y true)) false = true ->
      nth z peaks false = true \/ (thr <= nth z abs_cc 0)%Q).
    { destruct (Arr.ltb (nth y abs_cc 0%Q) thr) eqn:B; [auto|].
      intros H. apply IH in H. apply ltb_ge in B.
      destruct H as [H|H]; [|auto]. rewrite nth_upd in H.
      destruct ((z =? y) && _)%nat eqn:E1; [|auto].
      apply andb_prop in E1. destruct E1 as (E1 & _).
      apply Nat.eqb_eq in E1. subst z. auto. }
    destruct (x + 1 <? length abs_cc)%nat; [|exact Resume].
    destruct (Arr.ltb (nth (x + 1) abs_cc 0%Q) thr) eqn:B; [exact Resume|].
    intros H. apply IH in H. apply ltb_ge in B.
    destruct H as [H|H]; [|auto].
    destruct (Arr.ltb p _); [|auto].
    rewrite !nth_upd in H.
    destruct ((z =? x + 1) && _)%nat eqn:E1.
    + apply andb_prop in E1. destruct E1 as (E1 & _).
      apply Nat.eqb_eq in E1. subst z. auto.
    + destruct ((z =? x) && _)%nat; [discriminate | auto].
Qed.

Lemma reduce_runs_above (abs_cc : list Q) (thr : Q) (tops : list nat)
  (n z : nat) :
  nth z (reduce_runs abs_cc thr tops (repeat false n)) false = true ->
  (thr <= nth z abs_cc 0)%Q.
Proof.
  assert (F : nth z (repeat false n) false = false).
  { destruct (Nat.lt_ge_cases z n) as [L|L].
    - now rewrite nth_repeat_lt.
    - rewrite nth_overflow; [reflexivity | now rewrite repeat_length]. }
  unfold reduce_runs. destruct tops as [|x it]; [congruence|].
  destruct (Arr.ltb (nth x abs_cc 0%Q) thr) eqn:B; [congruence|].
  intros H. apply scan_above in H. destruct H as [H|H]; [|exact H].
  rewrite nth_upd in H. apply ltb_ge in B.
  destruct ((z =? x) && _)%nat eqn:E1; [|congruence].
  apply andb_prop in E1. destruct E1 as (E1 & _).
  apply Nat.eqb_eq in E1. now subst z.
Qed.

(** X3.  When no lag among the first [distance] ones reaches the
    threshold, the slices of the exclusion loop start at non-negative
    indices, and any two lags that [find_peaks] returns are more than
    [distance] samples apart. *)
Lemma exclusion_separates (cfg : config) (day_cc : list Q)
  (distance x y : nat) :
  (forall z, (z < distance)%nat ->
     (Qabs (nth z day_cc 0%Q) < local_threshold cfg (daily_mad day_cc))%Q) ->
  In x (fst (fst (find_peaks cfg day_cc distance))) ->
  In y (fst (fst (find_peaks cfg day_cc distance))) ->
  (x < y)%nat ->
  (distance < y - x)%nat.
Proof.
  intros Quiet. unfold find_peaks. cbn [fst].
  set (abs_cc := map Qabs day_cc).
  set (thr := local_threshold cfg (daily_mad day_cc)).
  set (peaks := reduce_runs abs_cc thr _ _).
  set (order := sort_desc abs_cc (Arr.where_ peaks)).
  intros Hx Hy L. apply where_spec in Hx, Hy.
  assert (Far : Forall (fun z => (distance <= z)%nat) order).
  { apply Forall_forall. intros z Hz. apply in_sort_desc, where_spec in Hz.
    apply reduce_runs_above in Hz.
    destruct (Nat.lt_ge_cases z distance) as [C|C]; [|exact C].
    specialize (Quiet z C). fold thr in Quiet. unfold abs_cc in Hz.
    destruct (Nat.lt_ge_cases z (length day_cc)) as [B|B].
    - rewrite (nth_map_in Qabs day_cc z 0%Q) in Hz by exact B. lra.
    - rewrite nth_overflow in Hz by (rewrite length_map; exact B).
      rewrite nth_overflow in Quiet by exact B. change (Qabs 0) with 0%Q in Quiet.
      lra. }
  assert (In_order : forall z,
            nth z (fold_left (exclude distance) order peaks) false = true ->
            In z order).
  { intros z Hz. apply fold_exclude_mono in Hz.
    apply in_sort_desc, where_spec, Hz. }
  pose proof (fold_exclude_separates distance order Far peaks x y
                (In_order x Hx) Hx Hy ltac:(lia)) as Sx.
  pose proof (fold_exclude_separates distance order Far peaks y x
                (In_order y Hy) Hy Hx ltac:(lia)) as Sy.
  rewrite Forall_forall in Far.
  pose proof (Far x (In_order x Hx)). pose proof (Far y (In_order y Hy)).
  lia.
Qed.

(** ** Slices of the work lists *)

Lemma firstn_min_length {A : Type} (l : list A) (n : nat) :
  firstn (Nat.min n (length l)) l = firstn n l.
Proof.
  destruct (Nat.le_ge_cases n (length l)) as [H|H].
  - now rewrite Nat.min_l.
  - rewrite Nat.min_r by exact H. now rewrite !firstn_all2 by lia.
Qed.

Lemma py_slice_window {A : Type} (l : list A) (a n : Z) :
  0 <= a -> 0 <= n ->
  py_slice l a (a + n) = firstn (Z.to_nat n) (skipn (Z.to_nat a) l).
Proof.
  intros Ha Hn. unfold py_slice, Arr.slice, Py.slice_index.
  assert ((a <? 0) = false) as -> by (apply Z.ltb_ge; lia).
  assert ((a + n <? 0) = false) as -> by (apply Z.ltb_ge; lia).
  set (len := length l).
  destruct (Z.le_gt_cases a (Z.of_nat len)) as [H|H].
  - rewrite (Z.min_l a) by exact H.
    rewrite <- (firstn_min_length (skipn (Z.to_nat a) l) (Z.to_nat n)).
    rewrite length_skipn. f_equal. fold len. lia.
  - rewrite (Z.min_r a) by lia. rewrite Nat2Z.id.
    rewrite !skipn_all2 by (fold len; lia). now rewrite !firstn_nil.
Qed.

Lemma in_window {A : Type} (l : list A) (a n : nat) (x : A) :
  In x (firstn n (skipn a l)) <->
  exists k, (a <= k < a + n)%nat /\ nth_error l k = Some x.
Proof.
  split.
  - intros H. apply In_nth_error in H. destruct H as (k & H).
    assert (L : (k < n)%nat).
    { assert (k < length (firstn n (skipn a l)))%nat
        by (apply nth_error_Some; congruence).
      rewrite length_firstn in H0. lia. }
    rewrite nth_error_firstn in H.
    assert ((k <? n)%nat = true) as E by (apply Nat.ltb_lt; exact L).
    rewrite E in H. rewrite nth_error_skipn in H.
    exists (a + k)%nat. split; [lia | exact H].
  - intros (k & L & H). apply (nth_error_In _ (k - a)).
    rewrite nth_error_firstn.
    assert ((k - a <? n)%nat = true) as -> by (apply Nat.ltb_lt; lia).
    rewrite nth_error_skipn. replace (a + (k - a))%nat with k by lia.
    exact H.
Qed.

Lemma in_py_slice {A : Type} (l : list A) (a n : Z) (x : A) :
  0 <= a -> 0 <= n ->
  In x (py_slice l a (a + n)) <->
  exists k, a <= Z.of_nat k < a + n /\ nth_error l k = Some x.
Proof.
  intros Ha Hn. rewrite py_slice_window by assumption. rewrite in_window.
  split; intros (k & L & H); exists k; (split; [lia | exact H]).
Qed.

Lemma py_slice_head {A : Type} (l : list A) (a n : Z) :
  0 <= a < Z.of_nat (length l) -> 1 <= n ->
  exists x rest,
    py_slice l a (a + n) = x :: rest /\ nth_error l (Z.to_nat a) = Some x.
Proof.
  intros Ha Hn. rewrite py_slice_window by lia.
  destruct (skipn (Z.to_nat a) l) as [|x r] eqn:E.
  - apply (f_equal (@length A)) in E. rewrite length_skipn in E.
    cbn [length] in E. lia.
  - destruct (Z.to_nat n) as [|m] eqn:En; [lia|].
    exists x, (firstn m r). split; [reflexivity|].
    pose proof (nth_error_skipn (Z.to_nat a) l 0) as S.
    rewrite E, Nat.add_0_r in S. now rewrite <- S.
Qed.

Lemma filter_all {A : Type} (f : A -> bool) (l : list A) :
  (forall a, In a l -> f a = true) -> filter f l = l.
Proof.
  induction l as [|a l IH]; intros H; [reflexivity|].
  cbn [filter]. rewrite (H a) by now left.
  f_equal. apply IH. intros b Hb. apply H. now right.
Qed.

Lemma enumerate_in {A : Type} (l : list A) (i : nat) (a : A) :
  nth_error l i = Some a -> In (i, a) (enumerate l).
Proof.
  unfold enumerate. change i with (0 + i)%nat at 2. generalize 0%nat as s.
  revert i. induction l as [|x l IH]; intros [|i] s H; try discriminate.
  - injection H as ->. rewrite Nat.add_0_r. now left.
  - right. replace (s + S i)%nat with (S s + i)%nat by lia.
    apply IH. exact H.
Qed.

Lemma in_flat_map_enumerate {A B : Type} (names : list A)
  (f : A -> A -> list B) (x : B) :
  In x (flat_map (fun it => match nth_error names (fst it) with
                            | Some file => f file (snd it)
                            | None => []
                            end) (enumerate names)) <->
  exists t, In t names /\ In x (f t t).
Proof.
  rewrite in_flat_map. split.
  - intros ([i t] & Hit & Hx). apply in_enumerate in Hit.
    cbn [fst snd] in Hx. rewrite Hit in Hx.
    exists t. split; [now apply nth_error_In in Hit | exact Hx].
  - intros (t & Ht & Hx). apply In_nth_error in Ht. destruct Ht as (i & Hi).
    exists (i, t). split; [now apply enumerate_in|].
    cbn [fst snd]. now rewrite Hi.
Qed.

(** ** The orchestrator loop *)

Lemma slice_start_unique (l : list string) (a a' n n' : Z) :
  NoDup l ->
  0 <= a < Z.of_nat (length l) -> 0 <= a' < Z.of_nat (length l) ->
  1 <= n -> 1 <= n' ->
  py_slice l a (a + n) = py_slice l a' (a' + n') -> a = a'.
Proof.
  intros D Ha Ha' Hn Hn' E.
  destruct (py_slice_head l a n Ha Hn) as (x & r & E1 & N1).
  destruct (py_slice_head l a' n' Ha' Hn') as (x' & r' & E2 & N2).
  rewrite E1, E2 in E. injection E as -> _.
  rewrite <- N2 in N1.
  apply (proj1 (NoDup_nth_error l) D) in N1; [lia|].
  apply nth_error_Some. congruence.
Qed.

Lemma in_firstn {A : Type} (l : list A) (n : nat) (x : A) :
  In x (firstn n l) -> In x l.
Proof.
  revert n. induction l as [|a l IH]; intros [|n] H; try contradiction.
  destruct H as [H|H]; [now left | right; eauto].
Qed.

Lemma find_optimal_chunksize_range (chunk N : Z) :
  1 <= chunk -> 1 <= N < 2 ^ 53 ->
  exists c, find_optimal_chunksize chunk N = Ok c /\ 1 <= c <= chunk.
Proof.
  intros Hc HN. rewrite find_optimal_chunksize_pos by assumption.
  eexists. split; [reflexivity|].
  pose proof (ceil_div_spec N chunk ltac:(lia)) as S.
  set (n := ceil_div N chunk) in *.
  assert (1 <= n) as Hn by nia.
  pose proof (ceil_div_spec N n ltac:(lia)) as T.
  set (c := ceil_div N n) in *. nia.
Qed.

Lemma find_optimal_chunksize_zero (N : Z) :
  find_optimal_chunksize 0 N = Raise ZeroDivisionError.
Proof. reflexivity. Qed.

Section Recovery.

Variable cfg : config.
Variable readable : string -> bool.
Variable trace_len : string -> nat.
Variable hits : string -> string -> string -> list detection.
Variable oom : nat -> option nat.
Variable all_templates : list string.
Variable all_data : list string.

Hypothesis on_gpu : use_cupy cfg = true.
Hypothesis templates_distinct : NoDup all_templates.
Hypothesis data_distinct : NoDup all_data.
Hypothesis templates_readable :
  forall t, In t all_templates -> readable t = true.
Hypothesis few_data : Z.of_nat (length all_data) < 2 ^ 53.

Local Abbreviation n_data := (Z.of_nat (length all_data)).
Local Abbreviation n_templates := (Z.of_nat (length all_templates)).
Local Abbreviation everything :=
  (all_pair_lines readable hits all_templates all_data).
Local Abbreviation want_data := (chunk_at all_data).
Local Abbreviation want_templates := (chunk_at all_templates).
Local Abbreviation holds := (Inv readable hits all_templates all_data).
Local Abbreviation cached := (temp_inv readable all_templates all_data).
Local Abbreviation ends := (turn readable hits oom all_templates all_data).
Local Abbreviation measure := (fuel_of all_templates all_data).
Local Abbreviation finished := (complete readable hits all_templates all_data).

Lemma in_everything (x : detection) :
  In x everything <->
  exists t d, In t all_templates /\ In d all_data /\ readable d = true /\
              In x (hits t t d).
Proof.
  unfold all_pair_lines. rewrite in_flat_map. split.
  - intros (d & Hd & Hx). apply filter_In in Hd. apply in_flat_map in Hx.
    destruct Hx as (t & Ht & Hx). exists t, d. tauto.
  - intros (t & d & Ht & Hd & R & Hx). exists d.
    split; [apply filter_In; tauto|]. apply in_flat_map. eauto.
Qed.

Lemma read_templates (n t : Z) :
  0 <= t < n_templates -> 1 <= n ->
  read_bulk_data readable (want_templates n t) = Some (want_templates n t).
Proof.
  intros Ht Hn. unfold read_bulk_data. rewrite filter_all.
  - destruct (py_slice_head all_templates t n Ht Hn) as (x & r & E & _).
    unfold chunk_at. now rewrite E.
  - intros a Ha. apply templates_readable.
    apply in_py_slice in Ha; [|lia..]. destruct Ha as (k & _ & Ha).
    now apply nth_error_In in Ha.
Qed.

Lemma in_chunk_lines (n t : Z) (dst : list string) (x : detection) :
  In x (chunk_lines hits (want_templates n t) (want_templates n t) dst) <->
  exists tn dn, In tn (want_templates n t) /\ In dn dst /\ In x (hits tn tn dn).
Proof.
  unfold chunk_lines. rewrite in_flat_map. split.
  - intros (dn & Hd & Hx).
    apply (in_flat_map_enumerate _ (fun f tt => hits f tt dn)) in Hx.
    destruct Hx as (tn & Ht & Hx). eauto.
  - intros (tn & dn & Ht & Hd & Hx). exists dn. split; [exact Hd|].
    apply (in_flat_map_enumerate _ (fun f tt => hits f tt dn)). eauto.
Qed.

Lemma read_data_in (files dst : list string) (d : string) :
  read_bulk_data readable files = Some dst ->
  In d dst <-> In d files /\ readable d = true.
Proof.
  unfold read_bulk_data. intros E. rewrite <- filter_In.
  destruct (filter readable files); [discriminate|]. now injection E as <-.
Qed.

Lemma read_data_none (files : list string) (d : string) :
  read_bulk_data readable files = None -> In d files -> readable d = false.
Proof.
  unfold read_bulk_data. intros E H.
  destruct (readable d) eqn:R; [|reflexivity].
  assert (In d (filter readable files)) by (apply filter_In; tauto).
  destruct (filter readable files); [contradiction | discriminate].
Qed.

(** The state after the two loads (lines 113-146). *)
Lemma load_data_spec (s : state) :
  holds s ->
  exists tm cl,
    (tm = [] \/ tm = templates s) /\
    load_data readable trace_len all_data s =
      Build_state (N_MAX s) (di s) (ti s) (want_data (N_MAX s) (di s)) tm cl
        (Bound (read_bulk_data readable (want_data (N_MAX s) (di s))))
        (temp_st s) (n_detections s) (written s) (calls s).
Proof.
  intros I. unfold load_data. fold (chunk_at all_data (N_MAX s) (di s)).
  destruct (list_eq_dec string_dec (data s) (want_data (N_MAX s) (di s)))
    as [E|E].
  - exists (templates s), (cc_len s). split; [now right|].
    destruct (py_slice_head all_data (di s) (N_MAX s) (inv_di I) (inv_nmax I))
      as (x & r & Eh & _).
    destruct (inv_data I) as [N|(d0 & Hd0 & Ed & B)].
    + fold (chunk_at all_data (N_MAX s) (di s)) in Eh. congruence.
    + assert (d0 = di s) as H.
      { apply (slice_start_unique all_data d0 (di s) (N_MAX s) (N_MAX s));
          auto; try apply I. unfold chunk_at in *. congruence. }
      specialize (B H). rewrite <- E, <- B. now destruct s.
  - match goal with
    | |- context [Build_state _ _ _ _ ?tm ?cl _ _ _ _ _] => exists tm, cl
    end.
    split; [|reflexivity].
    destruct (read_bulk_data _ _); [|now right].
    destruct (negb _); [now left | now right].
Qed.

Lemma load_templates_spec (N d t : Z) (dat tm : list string) (cl : nat)
  (dst tst : binding (option (list string))) (nd : Z)
  (w : list detection) (c : nat) :
  1 <= N -> 0 <= t < n_templates ->
  read_bulk_data readable (want_data N d) <> None ->
  cached N d t tm tst ->
  load_templates readable all_templates
    (Build_state N d t dat tm cl dst tst nd w c) =
  (Build_state N d t dat (want_templates N t) cl dst
     (Bound (Some (want_templates N t))) nd w c, Ok tt).
Proof.
  intros HN Ht R C. unfold load_templates. cbn [templates ti N_MAX].
  fold (chunk_at all_templates N t). rewrite (read_templates N t Ht HN).
  destruct tm as [|t0 r]; [reflexivity|].
  destruct C as [C|(t0' & Ht0 & E & B)]; [discriminate|].
  unfold index.
  destruct (nth_error all_templates (Z.to_nat t)) as [x|] eqn:Ex;
    [|apply nth_error_None in Ex; lia].
  destruct (String.eqb t0 x) eqn:Q; cbn [negb]; [|reflexivity].
  apply String.eqb_eq in Q. subst x.
  destruct (py_slice_head all_templates t0' N Ht0 HN) as (y & r' & Eh & Ey).
  fold (chunk_at all_templates N t0') in Eh. rewrite <- E in Eh. injection Eh as <- <-.
  assert (t0' = t).
  { rewrite <- Ex in Ey.
    apply (proj1 (NoDup_nth_error all_templates) templates_distinct) in Ey;
      [lia|]. apply nth_error_Some. congruence. }
  subst t0'. destruct B as [(B & _)|[B|B]]; [|lia|destruct B as (? & [?|?]); [lia|contradiction]].
  rewrite B, E, (read_templates N t Ht HN). reflexivity.
Qed.

Lemma advance_turn (N d t : Z) (dat tm : list string) (cl : nat)
  (dst tst : binding (option (list string))) (nd : Z)
  (w : list detection) (c : nat) (s : state) :
  let s1 := Build_state N d t dat tm cl dst tst nd w c in
  1 <= N -> 0 <= d < n_data -> 0 <= t < n_templates ->
  measure s = measure s1 ->
  dat = want_data N d ->
  dst = Bound (read_bulk_data readable dat) ->
  (tm = want_templates N t /\ tst = Bound (Some tm) /\
   read_bulk_data readable (want_data N d) <> None) \/
  (read_bulk_data readable (want_data N d) = None /\ cached N d t tm tst) ->
  (forall x, In x w -> In x everything) ->
  (forall a b tn dn,
      nth_error all_templates a = Some tn ->
      nth_error all_data b = Some dn ->
      readable dn = true ->
      Z.of_nat b < d \/ (d <= Z.of_nat b < d + N /\ Z.of_nat a < t + N) ->
      incl (hits tn tn dn) w) ->
  ends s (if snd (advance all_templates all_data s1)
          then Stop (Returned (fst (advance all_templates all_data s1)))
          else Continue (fst (advance all_templates all_data s1))).
Proof.
  cbn zeta. intros HN Hd Ht F -> -> T Snd Cov. unfold advance.
  cbn [ti N_MAX di]. 
  destruct (t + N >=? n_templates) eqn:Et.
  - apply Z.geb_le in Et. destruct (d + N >=? n_data) eqn:Ed.
    + apply Z.geb_le in Ed. cbn [fst snd]. apply turn_return.
      intros x. cbn [written]. split; [apply Snd|].
      intros Hx. apply in_everything in Hx.
      destruct Hx as (tn & dn & Ht' & Hd' & R & Hx).
      apply In_nth_error in Ht', Hd'.
      destruct Ht' as (a & Ha). destruct Hd' as (b & Hb).
      apply (Cov a b tn dn Ha Hb R); [|exact Hx].
      assert (a < length all_templates)%nat by (apply nth_error_Some; congruence).
      assert (b < length all_data)%nat by (apply nth_error_Some; congruence).
      lia.
    + rewrite Z.geb_leb in Ed. apply Z.leb_gt in Ed. cbn [fst snd].
      apply turn_continue.
      * constructor; cbn [N_MAX di ti data templates data_st temp_st written].
        -- exact HN.
        -- lia.
        -- lia.
        -- right. exists d. split; [lia|]. split; [reflexivity|]. lia.
        -- destruct T as [(-> & -> & R)|(R & [->|(t0 & Ht0 & -> & C)])].
           ++ right. exists t. split; [lia|]. split; [reflexivity|]. left.
              rewrite read_templates by lia. split; [reflexivity|]. lia.
           ++ now left.
           ++ right. exists t0. split; [lia|]. split; [reflexivity|].
              destruct C as [(B & T0 & S0)|[(_ & _ & C)|(P & _)]].
              ** left. split; [exact B|]. split; [reflexivity | exact S0].
              ** contradiction.
              ** right. right. split; [exact P | now left].
        -- exact Snd.
        -- intros a b tn dn Ha Hb R Hr.
           apply (Cov a b tn dn Ha Hb R).
           assert (a < length all_templates)%nat
             by (apply nth_error_Some; congruence).
           lia.
      * rewrite F. unfold fuel_of. cbn [N_MAX di ti]. nia.
  - rewrite Z.geb_leb in Et. apply Z.leb_gt in Et. cbn [fst snd].
    apply turn_continue.
    + constructor; cbn [N_MAX di ti data templates data_st temp_st written].
      * exact HN.
      * lia.
      * lia.
      * right. exists d. split; [lia|]. split; [reflexivity|]. reflexivity.
      * destruct T as [(-> & -> & R)|(R & [->|(t0 & Ht0 & -> & C)])].
        -- right. exists t. split; [lia|]. split; [reflexivity|].
           right. left. split; [lia|]. split; [reflexivity | exact R].
        -- now left.
        -- right. exists t0. split; [lia|]. split; [reflexivity|].
           right. right. split; [|now right].
           destruct C as [(_ & T0 & S0)|[(_ & _ & C)|(P & _)]];
             [|contradiction | exact P].
           assert (t0 <> 0) by (intros Z0; specialize (S0 Z0); lia). lia.
      * exact Snd.
      * intros a b tn dn Ha Hb R Hr. apply (Cov a b tn dn Ha Hb R). lia.
    + rewrite F. unfold fuel_of. cbn [N_MAX di ti]. nia.
Qed.

Lemma iteration_turn (s : state) :
  holds s ->
  ends s (iteration cfg readable trace_len hits oom all_templates all_data s).
Proof.
  intros I. unfold iteration, try_body.
  destruct (load_data_spec s I) as (tm & cl & Htm & ->). cbn [data_st].
  pose proof (inv_nmax I) as HN. pose proof (inv_di I) as Hd.
  pose proof (inv_ti I) as Ht.
  assert (T : cached (N_MAX s) (di s) (ti s) tm (temp_st s)).
  { destruct Htm as [->| ->]; [now left | apply I]. }
  assert (Chunk : forall b dn,
            nth_error all_data b = Some dn ->
            di s <= Z.of_nat b < di s + N_MAX s ->
            In dn (want_data (N_MAX s) (di s))).
  { intros b dn Hb Lb. apply in_py_slice; [lia..|]. eauto. }
  destruct (read_bulk_data readable (want_data (N_MAX s) (di s)))
    as [dstl|] eqn:R.
  - rewrite load_templates_spec;
      [|exact HN | exact Ht | rewrite R; discriminate | exact T].
    unfold compute. cbn [temp_st templates calls].
    set (lines := chunk_lines hits _ _ dstl).
    assert (Sl : forall x, In x lines -> In x everything).
    { intros x Hx. apply in_chunk_lines in Hx.
      destruct Hx as (tn & dn & Hn & Hdn & Hx). apply in_everything.
      apply (read_data_in _ _ dn R) in Hdn. destruct Hdn as (Hdn & Rd).
      apply in_py_slice in Hn; [|lia..]. apply in_py_slice in Hdn; [|lia..].
      destruct Hn as (? & _ & Hn). destruct Hdn as (? & _ & Hdn).
      apply nth_error_In in Hn, Hdn. exists tn, dn. tauto. }
    destruct (oom (calls s)) as [k|] eqn:O.
    + unfold recover. rewrite on_gpu. cbn [N_MAX di data_st written].
      
      destruct (Z.eq_dec (N_MAX s) 1) as [E1|E1].
      * rewrite E1. change (1 - 1) with 0.
        rewrite find_optimal_chunksize_zero. apply turn_exhausted.
        rewrite O. discriminate.
      * destruct (find_optimal_chunksize_range (N_MAX s - 1) (n_data - di s))
          as (c & -> & Hc); [lia..|].
        assert ((c =? 0) = false) as -> by (apply Z.eqb_neq; lia).
        apply turn_continue.
        -- constructor;
             cbn [N_MAX di ti data templates data_st temp_st written].
           ++ lia.
           ++ exact Hd.
           ++ exact Ht.
           ++ now left.
           ++ now left.
           ++ intros x Hx. apply in_app_or in Hx. destruct Hx as [Hx|Hx].
              ** now apply (inv_sound I).
              ** apply Sl. eapply in_firstn; eauto.
           ++ intros a b tn dn Ha Hb Rd Hr. apply incl_appl.
              apply (inv_cover I a b tn dn Ha Hb Rd). lia.
        -- unfold fuel_of. cbn [N_MAX di ti].
           nia.
    + cbv beta iota zeta.
      cbn [N_MAX di ti data templates cc_len data_st temp_st n_detections
           written calls].
      apply advance_turn;
        [exact HN | exact Hd | exact Ht | reflexivity | reflexivity
        | exact (f_equal Bound (eq_sym R)) | | | ].
      * left. split; [reflexivity|]. split; [reflexivity|]. intros Q.
        change (read_bulk_data readable (want_data (N_MAX s) (di s)) = None)
          in Q.
        rewrite R in Q. discriminate.
      * intros x Hx. apply in_app_or in Hx. destruct Hx as [Hx|Hx];
          [now apply (inv_sound I) | now apply Sl].
      * intros a b tn dn Ha Hb Rd Hr.
        destruct (Z_lt_ge_dec (Z.of_nat b) (di s)) as [Lb|Lb];
          [apply incl_appl; apply (inv_cover I a b tn dn Ha Hb Rd); lia|].
        destruct (Z_lt_ge_dec (Z.of_nat a) (ti s)) as [La|La];
          [apply incl_appl; apply (inv_cover I a b tn dn Ha Hb Rd); lia|].
        apply incl_appr. intros x Hx. apply in_chunk_lines.
        exists tn, dn. split; [|split; [|exact Hx]].
        -- apply in_py_slice; [lia..|]. exists a. split; [lia | exact Ha].
        -- apply (read_data_in _ _ dn R). split; [|exact Rd].
           apply (Chunk b); [exact Hb | lia].
  - cbv beta iota zeta.
    apply advance_turn;
      [exact HN | exact Hd | exact Ht | reflexivity | reflexivity
      | exact (f_equal Bound (eq_sym R)) | | | ].
    + right. split; [exact R | exact T].
    + apply I.
    + intros a b tn dn Ha Hb Rd Hr.
      destruct (Z_lt_ge_dec (Z.of_nat b) (di s)) as [Lb|Lb];
        [apply (inv_cover I a b tn dn Ha Hb Rd); lia|].
      assert (In dn (want_data (N_MAX s) (di s))) as H
        by (apply (Chunk b); [exact Hb | lia]).
      pose proof (read_data_none _ dn R H). congruence.
Qed.

Lemma initial_inv (n_max : Z) :
  1 <= n_max -> all_templates <> [] -> all_data <> [] -> holds (initial n_max).
Proof.
  intros H Ht Hd. constructor; cbn.
  - exact H.
  - destruct all_data; [contradiction | cbn [length]; lia].
  - destruct all_templates; [contradiction | cbn [length]; lia].
  - now left.
  - now left.
  - contradiction.
  - intros a b t d _ _ _ Hr. lia.
Qed.

(** The [RECOVER] transition: what the handler does with an
    out-of-memory error that left the [try] body in state [s1]. *)
Lemma recover_shrinks (s1 : state) :
  2 <= N_MAX s1 -> 0 <= di s1 < n_data ->
  exists c s',
    find_optimal_chunksize (N_MAX s1 - 1) (n_data - di s1) = Ok c /\
    1 <= c < N_MAX s1 /\
    recover cfg all_data s1 OutOfMemoryError = Continue s' /\
    N_MAX s' = c /\ di s' = di s1 /\ ti s' = ti s1 /\
    data s' = [] /\ templates s' = [] /\ data_st s' = Unbound /\
    (data_st s1 <> Unbound -> temp_st s' = Unbound) /\
    written s' = written s1.
Proof.
  intros HN Hd. unfold recover. rewrite on_gpu.
  destruct (find_optimal_chunksize_range (N_MAX s1 - 1) (n_data - di s1))
    as (c & E & Hc); [lia..|].
  rewrite E. assert ((c =? 0) = false) as -> by (apply Z.eqb_neq; lia).
  exists c. destruct (data_st s1); eexists;
    (split; [reflexivity|]); (split; [lia|]); (split; [reflexivity|]);
    cbn; repeat split; congruence.
Qed.

Lemma recover_exhausted (s1 : state) :
  N_MAX s1 = 1 ->
  recover cfg all_data s1 OutOfMemoryError =
  Stop (Uncaught ZeroDivisionError (written s1)).
Proof.
  intros E. unfold recover. rewrite on_gpu, E. reflexivity.
Qed.

End Recovery.

Lemma try_body_raise (readable : string -> bool) (trace_len : string -> nat)
  (hits : string -> string -> string -> list detection)
  (oom : nat -> option nat) (all_templates all_data : list string)
  (s s1 : state) (e : exn) :
  try_body readable trace_len hits oom all_templates all_data s
    = (s1, Raise e) ->
  N_MAX s1 = N_MAX s /\ di s1 = di s /\ ti s1 = ti s.
Proof.
  unfold try_body, load_data, load_templates, compute, index.
  repeat match goal with
         | |- context [match ?x with _ => _ end] => destruct x eqn:?
         | H : context [match ?x with _ => _ end] |- _ => destruct x eqn:?
         end;
    cbn in *; intros E; try discriminate;
    repeat match goal with
           | H : (_, _) = (_, _) |- _ => injection H as ? ?
           end; subst; cbn in *; try discriminate; auto.
Qed.


Lemma try_body_oom (readable : string -> bool) (trace_len : string -> nat)
  (hits : string -> string -> string -> list detection)
  (oom : nat -> option nat) (all_templates all_data : list string)
  (s s1 : state) :
  try_body readable trace_len hits oom all_templates all_data s
    = (s1, Raise OutOfMemoryError) ->
  data_st s1 <> Unbound.
Proof.
  unfold try_body, load_data, load_templates, compute, index.
  repeat match goal with
         | |- context [match ?x with _ => _ end] => destruct x eqn:?
         | H : context [match ?x with _ => _ end] |- _ => destruct x eqn:?
         end;
    cbn in *; intros E; try discriminate;
    repeat match goal with
           | H : (_, _) = (_, _) |- _ => injection H as ? ?
           end; subst; cbn in *; try discriminate; congruence.
Qed.

(** The [RECOVER] transition as the loop takes it, on a device and for
    fewer than 2^53 day files: when the [try] body ends in an
    out-of-memory error, the handler replans the chunk size with
    [find_optimal_chunksize] on the capacity less one and the remaining
    day files, empties both caches, and the loop goes on at the same data
    and template pointers; when the chunk size is already 1 the run ends
    in the division of [find_optimal_chunksize], which nothing catches,
    so with exit status 1. *)
Lemma handler_replans_and_retries
  (cfg : config) (readable : string -> bool) (trace_len : string -> nat)
  (hits : string -> string -> string -> list detection)
  (oom : nat -> option nat) (all_templates all_data : list string)
  (s s1 : state) :
  use_cupy cfg = true ->
  Z.of_nat (length all_data) < 2 ^ 53 ->
  try_body readable trace_len hits oom all_templates all_data s
    = (s1, Raise OutOfMemoryError) ->
  0 <= di s < Z.of_nat (length all_data) ->
  let turn := iteration cfg readable trace_len hits oom
                        all_templates all_data in
  (2 <= N_MAX s ->
   exists c s',
     find_optimal_chunksize (N_MAX s - 1)
                            (Z.of_nat (length all_data) - di s) = Ok c /\
     1 <= c < N_MAX s /\
     turn s = Continue s' /\
     N_MAX s' = c /\ di s' = di s /\ ti s' = ti s /\
     data s' = [] /\ templates s' = [] /\
     data_st s' = Unbound /\ temp_st s' = Unbound /\
     written s' = written s1) /\
  (N_MAX s = 1 ->
   exists w,
     turn s = Stop (Uncaught ZeroDivisionError w) /\
     exit_status (Uncaught ZeroDivisionError w) = Some 1).
Proof.
  intros Gpu Few E Hd. cbn zeta.
  destruct (try_body_raise _ _ _ _ _ _ _ _ _ E) as (EN & Ed & Et).
  unfold iteration. rewrite E. split.
  - intros HN.
    destruct (recover_shrinks cfg all_data Gpu Few s1)
      as (c & s' & Ec & Hc & R & F1 & F2 & F3 & F4 & F5 & F6 & F7 & F8);
      [lia.. |].
    pose proof (try_body_oom _ _ _ _ _ _ _ _ E) as B.
    rewrite EN, Ed, Et in *. exists c, s'. auto 12.
  - intros HN. rewrite (recover_exhausted cfg all_data Gpu s1) by lia.
    eexists. split; reflexivity.
Qed.

(** A recovered run writes lines twice: the pairs that the larger chunk
    had already processed are processed again by the smaller chunks of
    the next row. *)
Lemma recovery_repeats_lines :
  let cfg := {| cc_threshold := 7 # 10; mad_threshold := 8;
                combine_thresholds := true; use_cupy := true |} in
  let oom := fun k : nat => if (k =? 1)%nat then Some 0%nat else None in
  let temps := ["a"; "b"; "c"; "d"; "e"]%string in
  let days := ["d1"; "d22"; "d333"; "d4444"; "d55555"]%string in
  let run := match_templates cfg 3 (fun _ => true) (fun _ => 10%nat)
                             one_line_per_pair in
  exists s0 s,
    run (fun _ => None) temps days 100%nat = Returned s0 /\
    run oom temps days 100%nat = Returned s /\
    N_MAX s0 = 3 /\ N_MAX s = 2 /\
    length (written s0) = 25%nat /\ length (written s) = 28%nat /\
    n_detections s0 = 25 /\ n_detections s = 28.
Proof.
  cbn zeta. do 2 eexists. split; [vm_compute; reflexivity|].
  split; [vm_compute; reflexivity|]. repeat split.
Qed.

(** Without room to shrink, the first failed call ends the run by the
    division in [find_optimal_chunksize], before the guarded
    [sys.exit(1)] is reached. *)
Lemma exhausted_capacity_raises :
  let cfg := {| cc_threshold := 7 # 10; mad_threshold := 8;
                combine_thresholds := true; use_cupy := true |} in
  match_templates cfg 1 (fun _ => true) (fun _ => 10%nat) one_line_per_pair
    (fun _ => Some 0%nat) ["a"]%string ["d1"]%string 10
  = Uncaught ZeroDivisionError [].
Proof. reflexivity. Qed.

(** The cosines of the reference back end at the quarters and at the
    sixths of a turn. *)
Example cos_turn_quarters_and_sixths :
  map (fun n => Qred (cos_turn 4 n)) (seq 0 4) = [1; 0; -1; 0]%Q /\
  map (fun n => Qred (cos_turn 6 n)) (seq 0 6)
    = [1; 1 # 2; - (1 # 2); -1; - (1 # 2); 1 # 2]%Q.
Proof. split; vm_compute; reflexivity. Qed.

(** C9.  The detections of a recovered run are not those of the run
    without failure.  One template, [1, 1], and two day files, six zeros
    and [0, 0, 1, 1], on a device with room for two traces, thresholds
    0.7 and 2 combined by AND.  Without failure the loop makes one call
    of [matrix_cc], on the chunk of both day files at transform length 6,
    and that call writes a detection for the second day at lag 2, with
    correlation 3/4.  When the first call runs out of memory the handler
    shrinks the chunk to one day file; the loop returns after two more
    calls, the second day is correlated on its own at transform length
    4, and neither call writes a line: the same pair reaches 1/2 only.
    The reversed template spectrum of line 146 multiplies the template
    by [cos(2 pi n / cc_len)], so the correlation of a pair depends on
    the chunk it is processed in. *)
Theorem oom_recovery_changes_detections :
  let cfg := {| cc_threshold := 7 # 10; mad_threshold := 2;
                combine_thresholds := true; use_cupy := true |} in
  let template := {| a_cols := 2; a_rows := [[1; 1]%Q] |} in
  let quiet := repeat 0%Q 6 in
  let day := [0; 0; 1; 1]%Q in
  let samples (f : string) := if String.eqb f "quiet" then 6%nat else 4%nat in
  let run (oom : nat -> option nat) :=
    match_templates cfg 2 (fun _ => true) samples (fun _ _ _ => []) oom
                    ["t"]%string ["quiet"; "day"]%string 10 in
  let found (o : io Z) :=
    map (fun x => (det_file x, det_start x, det_lag x, Qred (det_cc x)))
        (matches (fst o)) in
  (exists s,
     run (fun _ => None) = Returned s /\
     N_MAX s = 2 /\ calls s = 1%nat /\ cc_len s = 6%nat) /\
  (exists s,
     run (fun k => if (k =? 0)%nat then Some 0%nat else None) = Returned s /\
     N_MAX s = 1 /\ calls s = 3%nat /\ cc_len s = 4%nat) /\
  next_fast_len (list_max (map (@length Q) [quiet; day])) = 6%nat /\
  next_fast_len (list_max (map (@length Q) [day])) = 4%nat /\
  found (matrix_cc reference_backend cfg template [quiet; day]
                   ["t"%string] [0; 86400]%Q)
    = [("t"%string, 86400%Q, 2%nat, 3 # 4)] /\
  found (matrix_cc reference_backend cfg template [quiet]
                   ["t"%string] [0%Q]) = [] /\
  found (matrix_cc reference_backend cfg template [day]
                   ["t"%string] [86400%Q]) = [].
Proof.
  cbn zeta. split; [eexists; split; [vm_compute; reflexivity|auto]|].
  split; [eexists; split; [vm_compute; reflexivity|auto]|].
  repeat split; vm_compute; reflexivity.
Qed.

(** * Beyond the specification *)

(** ** PeakDetector: what is returned *)

Lemma filter_seq_sorted (f : nat -> bool) (a n : nat) :
  StronglySorted lt (filter f (seq a n)).
Proof.
  revert a. induction n as [|n IH]; intros a; [constructor|].
  cbn [seq filter]. destruct (f a); [|apply IH].
  constructor; [apply IH|].
  apply Forall_forall. intros x H. apply filter_In in H.
  destruct H as (H & _). apply in_seq in H. lia.
Qed.

Lemma nth_abs (day_cc : list Q) (x : nat) :
  nth x (map Qabs day_cc) 0%Q = Qabs (nth x day_cc 0%Q).
Proof.
  destruct (Nat.lt_ge_cases x (length day_cc)) as [L|L].
  - now apply nth_map_in.
  - rewrite !nth_overflow; [reflexivity | exact L | now rewrite length_map].
Qed.

Lemma candidates_above (abs_cc : list Q) (thr : Q) (x : nat) :
  In x (candidates abs_cc thr) <->
  (x < length abs_cc)%nat /\ (thr <= nth x abs_cc 0)%Q.
Proof.
  unfold candidates. rewrite where_spec. split.
  - intros H.
    destruct (Nat.lt_ge_cases x (length abs_cc)) as [L|L].
    + split; [exact L|].
      rewrite (nth_map_in _ abs_cc x 0%Q) in H by exact L.
      now apply Qle_bool_iff.
    + rewrite nth_overflow in H by (rewrite length_map; exact L).
      discriminate.
  - intros (L & H). rewrite (nth_map_in _ abs_cc x 0%Q) by exact L.
    now apply Qle_bool_iff.
Qed.

(** A returned lag is a lag of the sequence that reaches the threshold. *)
Lemma find_peaks_lag_above (cfg : config) (day_cc : list Q)
  (distance x : nat) :
  In x (fst (fst (find_peaks cfg day_cc distance))) ->
  (x < length day_cc)%nat /\
  (local_threshold cfg (daily_mad day_cc) <= Qabs (nth x day_cc 0))%Q.
Proof.
  unfold find_peaks. cbn [fst]. intros H.
  pose proof (where_bound _ _ H) as B.
  rewrite fold_exclude_length, reduce_runs_length, repeat_length in B.
  split; [exact B|].
  apply where_spec, fold_exclude_mono, reduce_runs_above in H.
  now rewrite nth_abs in H.
Qed.

(** X1.  The lags that [find_peaks] returns are in ascending order
    without repetition, each of them is a lag of the sequence, and the
    absolute correlation at each of them reaches the effective local
    threshold. *)
Theorem find_peaks_lags_ordered_above_threshold (cfg : config)
  (day_cc : list Q) (distance : nat) :
  let tops := fst (fst (find_peaks cfg day_cc distance)) in
  StronglySorted lt tops /\
  Forall (fun x => (x < length day_cc)%nat /\
                   (local_threshold cfg (daily_mad day_cc)
                    <= Qabs (nth x day_cc 0))%Q) tops.
Proof.
  cbn zeta. split.
  - unfold find_peaks. cbn [fst]. apply filter_seq_sorted.
  - apply Forall_forall. intros x H. now apply find_peaks_lag_above in H.
Qed.

(** *** Neither loop empties the flags *)

Lemma exclude_keeps_one (distance : nat) (peaks : list bool) (x : nat) :
  (exists z, nth z peaks false = true) ->
  exists z, nth z (exclude distance peaks x) false = true.
Proof.
  intros (z & Hz). unfold exclude. destruct (nth x peaks false) eqn:P.
  - exists x. rewrite nth_upd, Nat.eqb_refl. cbn [andb].
    unfold Arr.slice_assign. rewrite fill_length.
    destruct (x <? length peaks)%nat eqn:L; [reflexivity|].
    apply Nat.ltb_ge in L. rewrite nth_overflow in P by exact L. discriminate.
  - eauto.
Qed.

Lemma fold_exclude_keeps_one (distance : nat) (order : list nat)
  (peaks : list bool) :
  (exists z, nth z peaks false = true) ->
  exists z, nth z (fold_left (exclude distance) order peaks) false = true.
Proof.
  revert peaks. induction order as [|x order IH]; intros peaks H; [exact H|].
  cbn [fold_left]. apply IH. now apply exclude_keeps_one.
Qed.

Lemma upd_true_keeps_one (peaks : list bool) (y : nat) :
  (exists z, nth z peaks false = true) ->
  exists z, nth z (Arr.upd peaks y true) false = true.
Proof.
  intros (z & Hz). exists z. rewrite nth_upd.
  destruct ((z =? y) && _)%nat; [reflexivity | exact Hz].
Qed.

Lemma scan_keeps_one (abs_cc : list Q) (thr : Q) (it : list nat) :
  forall x p peaks,
    length peaks = length abs_cc ->
    (exists z, nth z peaks false = true) ->
    exists z, nth z (scan abs_cc thr it x p peaks) false = true.
Proof.
  induction it as [|y it IH]; intros x p peaks L H; cbn [scan].
  - destruct (x + 1 <? length abs_cc)%nat eqn:B; [|exact H].
    destruct (Arr.ltb (nth (x + 1) abs_cc 0%Q) thr); [exact H|].
    destruct (Arr.ltb p _); [|exact H].
    exists (x + 1)%nat. rewrite nth_upd, Nat.eqb_refl, upd_length, L, B.
    reflexivity.
  - assert (Resume :
      exists z,
        nth z (if Arr.ltb (nth y abs_cc 0%Q) thr then peaks
               else scan abs_cc thr it y (nth y abs_cc 0%Q)
                         (Arr.upd peaks y true)) false = true).
    { destruct (Arr.ltb (nth y abs_cc 0%Q) thr); [exact H|].
      apply IH; [now rewrite upd_length | now apply upd_true_keeps_one]. }
    destruct (x + 1 <? length abs_cc)%nat eqn:B; [|exact Resume].
    destruct (Arr.ltb (nth (x + 1) abs_cc 0%Q) thr); [exact Resume|].
    apply IH.
    + destruct (Arr.ltb p _); [now rewrite !upd_length | exact L].
    + destruct (Arr.ltb p _); [|exact H].
      exists (x + 1)%nat. rewrite nth_upd, Nat.eqb_refl, upd_length, L, B.
      reflexivity.
Qed.

Lemma reduce_runs_keeps_one (abs_cc : list Q) (thr : Q) :
  candidates abs_cc thr <> [] ->
  exists z,
    nth z (reduce_runs abs_cc thr (candidates abs_cc thr)
                       (repeat false (length abs_cc))) false = true.
Proof.
  intros H. unfold reduce_runs.
  destruct (candidates abs_cc thr) as [|x it] eqn:E; [contradiction|].
  assert (Hx : In x (candidates abs_cc thr)) by (rewrite E; now left).
  apply candidates_above in Hx. destruct Hx as (L & A).
  assert (Arr.ltb (nth x abs_cc 0%Q) thr = false) as ->
    by (apply ltb_ge; exact A).
  apply scan_keeps_one.
  - now rewrite upd_length, repeat_length.
  - exists x. rewrite nth_upd, Nat.eqb_refl, repeat_length.
    apply Nat.ltb_lt in L. now rewrite L.
Qed.

(** X2.  [find_peaks] returns at least one lag exactly when some lag of
    the sequence reaches the effective local threshold: the run
    reduction and the exclusion loop never clear the last flag. *)
Theorem find_peaks_reports_iff_candidate (cfg : config) (day_cc : list Q)
  (distance : nat) :
  fst (fst (find_peaks cfg day_cc distance)) <> [] <->
  exists x, (x < length day_cc)%nat /\
            (local_threshold cfg (daily_mad day_cc)
             <= Qabs (nth x day_cc 0))%Q.
Proof.
  split.
  - intros H.
    destruct (fst (fst (find_peaks cfg day_cc distance))) as [|x l] eqn:E;
      [contradiction|].
    exists x. apply (find_peaks_lag_above cfg day_cc distance).
    rewrite E. now left.
  - intros (x & L & A). unfold find_peaks. cbn [fst].
    set (abs_cc := map Qabs day_cc).
    set (thr := local_threshold cfg (daily_mad day_cc)).
    assert (C : candidates abs_cc thr <> []).
    { intros N.
      assert (In x (candidates abs_cc thr)) as I.
      { apply candidates_above. unfold abs_cc. rewrite length_map, nth_abs.
        tauto. }
      rewrite N in I. destruct I. }
    pose proof (reduce_runs_keeps_one abs_cc thr C) as K.
    unfold abs_cc in K at 3. rewrite length_map in K.
    apply (fold_exclude_keeps_one distance
             (sort_desc abs_cc (Arr.where_
                (reduce_runs abs_cc thr (candidates abs_cc thr)
                   (repeat false (length day_cc)))))) in K.
    destruct K as (z & K). apply where_spec in K.
    intros N. rewrite N in K. destruct K.
Qed.

Lemma exclusion_separates_witness :
  let cfg := {| cc_threshold := 7 # 10; mad_threshold := 8;
                combine_thresholds := true; use_cupy := false |} in
  let day_cc :=
    (repeat 0 10 ++ [9 # 10] ++ repeat 0 9 ++ [8 # 10] ++ repeat 0 9)%Q%list in
  fst (fst (find_peaks cfg day_cc 5)) = [10; 20]%nat /\
  (5 < 20 - 10)%nat.
Proof.
  cbn zeta. split; [reflexivity|].
  apply (exclusion_separates
           {| cc_threshold := 7 # 10; mad_threshold := 8;
              combine_thresholds := true; use_cupy := false |}
           (repeat 0 10 ++ [9 # 10] ++ repeat 0 9 ++ [8 # 10]
              ++ repeat 0 9)%Q%list 5 10 20).
  - intros z Hz.
    do 5 (destruct z as [|z]; [reflexivity|]). lia.
  - vm_compute. tauto.
  - vm_compute. tauto.
  - lia.
Defined.

(** ** PeakDetector: the run reduction *)

Lemma filter_seq_head (f : nat -> bool) (a n y : nat) (l : list nat) :
  filter f (seq a n) = y :: l ->
  (a <= y < a + n)%nat /\ f y = true /\
  (forall z, (a <= z < y)%nat -> f z = false) /\
  l = filter f (seq (y + 1) (a + n - (y + 1))).
Proof.
  revert a. induction n as [|n IH]; intros a; cbn [seq filter]; [discriminate|].
  destruct (f a) eqn:F.
  - intros E. injection E as <- <-. split; [lia|]. split; [exact F|].
    split; [intros; lia|]. f_equal. f_equal; lia.
  - intros E. apply IH in E. destruct E as (B & Fy & Lo & E).
    split; [lia|]. split; [exact Fy|]. split.
    + intros z Hz. destruct (Nat.eq_dec z a) as [->|N]; [exact F|].
      apply Lo. lia.
    + rewrite E. f_equal. f_equal. lia.
Qed.

Lemma filter_seq_nil (f : nat -> bool) (a n : nat) :
  filter f (seq a n) = [] -> forall z, (a <= z < a + n)%nat -> f z = false.
Proof.
  intros E z Hz. destruct (f z) eqn:F; [|reflexivity].
  assert (In z (filter f (seq a n))) as I
    by (apply filter_In; split; [apply in_seq; lia | exact F]).
  rewrite E in I. destruct I.
Qed.

Section RunSpec.

Variable abs_cc : list Q.
Variable thr : Q.

Local Abbreviation n := (length abs_cc).
Local Abbreviation at_ x := (nth x abs_cc 0%Q).
Local Abbreviation cand_of i :=
  (nth i (map (fun a => Qle_bool thr a) abs_cc) false).
Local Abbreviation cand := (fun i : nat => cand_of i).

Lemma cand_true (i : nat) :
  cand_of i = true <-> (i < n)%nat /\ (thr <= at_ i)%Q.
Proof. rewrite <- where_spec. apply candidates_above. Qed.

Lemma cand_false (i : nat) :
  (i < n)%nat -> cand_of i = false -> (at_ i < thr)%Q.
Proof.
  intros L H. destruct (Qlt_le_dec (at_ i) thr) as [C|C]; [exact C|].
  assert (cand_of i = true) as T by (apply cand_true; tauto).
  rewrite T in H. discriminate.
Qed.

(** The [while] loop at lag [x] of a run, with the iterator holding the
    candidates after [x], the running maximum [p] of the run so far,
    final flags before [x], the flag of a record at [x] and no flag
    after it: the loops end with the flags of the whole sequence. *)
Lemma scan_flags (it : list nat) :
  forall x p peaks,
    length peaks = n ->
    (x < n)%nat -> (thr <= at_ x)%Q ->
    it = filter cand (seq (x + 1) (n - (x + 1))) ->
    (forall w, (w <= x)%nat -> in_run abs_cc thr w x -> (at_ w <= p)%Q) ->
    (exists m, (m <= x)%nat /\ in_run abs_cc thr m x /\ (at_ m == p)%Q) ->
    (forall z, (z < x)%nat ->
               nth z peaks false = true <-> run_flag abs_cc thr z) ->
    (nth x peaks false = true <-> run_record abs_cc thr x) ->
    (forall z, (x < z)%nat -> nth z peaks false = false) ->
    forall z, nth z (scan abs_cc thr it x p peaks) false = true <->
              run_flag abs_cc thr z.
Proof.
  induction it as [|y it IH];
    intros x p peaks Len Lx Ax Eit Pmax Patt Before At After z.
  - (* no candidate after x *)
    assert (NoC : forall v, (x < v < n)%nat -> (at_ v < thr)%Q).
    { intros v Hv. apply cand_false; [lia|].
      apply (filter_seq_nil cand (x + 1) (n - (x + 1))); [now symmetry | lia]. }
    assert (Final : forall z,
              nth z peaks false = true <-> run_flag abs_cc thr z).
    { intros u. destruct (Nat.lt_trichotomy u x) as [C|[->|C]].
      - now apply Before.
      - rewrite At. unfold run_flag. split; [|tauto].
        intros R. split; [exact R|]. intros (L1 & L2).
        pose proof (NoC (x + 1)%nat ltac:(lia)). lra.
      - rewrite After by exact C. split; [discriminate|].
        intros ((L & A & _) & _). pose proof (NoC u ltac:(lia)). lra. }
    cbn [scan]. destruct (x + 1 <? n)%nat eqn:B; [|apply Final].
    apply Nat.ltb_lt in B. pose proof (NoC (x + 1)%nat ltac:(lia)) as Lo.
    assert (Arr.ltb (at_ (x + 1)) thr = true) as -> by (apply ltb_lt; exact Lo).
    apply Final.
  - pose proof (filter_seq_head cand _ _ _ _ (eq_sym Eit))
      as (By & Cy & Lo & Eit').
    apply cand_true in Cy. destruct Cy as (Ly & Ay).
    assert (Resume : forall u,
      ((x + 1 < n)%nat -> (at_ (x + 1) < thr)%Q) ->
      nth u (if Arr.ltb (at_ y) thr then peaks
             else scan abs_cc thr it y (at_ y) (Arr.upd peaks y true)) false
        = true <-> run_flag abs_cc thr u).
    { (* the run ends at x, and the next one starts at y *)
      intros u End.
      assert (Arr.ltb (at_ y) thr = false) as -> by (apply ltb_ge; exact Ay).
      assert (x + 1 < n)%nat as Lx1 by lia. specialize (End Lx1).
      assert (Gap : forall v, (x < v < y)%nat -> (at_ v < thr)%Q).
      { intros v Hv. apply cand_false; [lia|]. apply Lo. lia. }
      assert (x + 1 < y)%nat as Sep.
      { destruct (Nat.eq_dec y (x + 1)) as [->|N]; [lra | lia]. }
      assert (Start : forall w, (w < y)%nat -> ~ in_run abs_cc thr w y).
      { intros w Hw R.
        pose proof (R (Nat.max w (x + 1)) ltac:(lia)) as T.
        destruct (Nat.le_gt_cases w (x + 1)) as [C|C].
        - rewrite Nat.max_r in T by exact C. lra.
        - rewrite Nat.max_l in T by lia. pose proof (Gap w ltac:(lia)). lra. }
      apply IH; clear IH.
      - now rewrite upd_length.
      - exact Ly.
      - exact Ay.
      - rewrite Eit'. f_equal. f_equal. lia.
      - intros w Hw R. destruct (Nat.eq_dec w y) as [->|N]; [lra|].
        exfalso. apply (Start w); [lia | exact R].
      - exists y. split; [lia|]. split; [|reflexivity].
        intros v Hv. replace v with y by lia. exact Ay.
      - intros v Hv. rewrite nth_upd.
        assert ((v =? y)%nat = false) as -> by (apply Nat.eqb_neq; lia).
        cbn [andb]. destruct (Nat.lt_trichotomy v x) as [C|[->|C]].
        + now apply Before.
        + rewrite At. unfold run_flag. split; [|tauto].
          intros R. split; [exact R|]. intros (_ & L2). lra.
        + rewrite After by exact C. split; [discriminate|].
          intros ((_ & A & _) & _). pose proof (Gap v ltac:(lia)). lra.
      - rewrite nth_upd, Nat.eqb_refl, Len.
        assert ((y <? n)%nat = true) as -> by (apply Nat.ltb_lt; exact Ly).
        cbn [andb]. split; [|reflexivity]. intros _.
        split; [exact Ly|]. split; [exact Ay|].
        intros w Hw R. exfalso. apply (Start w Hw R).
      - intros v Hv. rewrite nth_upd.
        assert ((v =? y)%nat = false) as -> by (apply Nat.eqb_neq; lia).
        cbn [andb]. apply After. lia. }
    cbn [scan]. destruct (x + 1 <? n)%nat eqn:B.
    2:{ apply Resume. apply Nat.ltb_ge in B. intros; lia. }
    apply Nat.ltb_lt in B.
    destruct (Arr.ltb (at_ (x + 1)) thr) eqn:T.
    { apply Resume. intros _. now apply ltb_lt. }
    (* the run goes on at x + 1 *)
    apply ltb_ge in T.
    assert (y = x + 1)%nat as ->.
    { destruct (Nat.eq_dec y (x + 1)) as [E|N]; [exact E|].
      assert (cand_of (x + 1) = false) as F by (apply Lo; lia).
      pose proof (cand_false _ B F). lra. }
    clear Resume.
    assert (Rec1 : Arr.ltb p (at_ (x + 1)) = true <->
                   run_record abs_cc thr (x + 1)).
    { rewrite ltb_lt. split.
      - intros G. split; [exact B|]. split; [exact T|].
        intros w Hw R. apply Qle_lt_trans with p; [|exact G].
        apply Pmax; [lia|]. intros v Hv. apply R. lia.
      - intros (_ & _ & R). destruct Patt as (m & Hm & Rm & <-).
        apply R; [lia|]. intros v Hv.
        destruct (Nat.eq_dec v (x + 1)) as [->|N]; [exact T|].
        apply Rm. lia. }
    apply IH; clear IH.
    + destruct (Arr.ltb p _); [now rewrite !upd_length | exact Len].
    + exact B.
    + exact T.
    + rewrite Eit'. f_equal. f_equal. lia.
    + intros w Hw R.
      destruct (Arr.ltb p (at_ (x + 1))) eqn:G.
      * apply ltb_lt in G.
        destruct (Nat.eq_dec w (x + 1)) as [->|N]; [lra|].
        apply Qle_trans with p; [|lra].
        apply Pmax; [lia|]. intros v Hv. apply R. lia.
      * apply ltb_ge in G.
        destruct (Nat.eq_dec w (x + 1)) as [->|N]; [exact G|].
        apply Pmax; [lia|]. intros v Hv. apply R. lia.
    + destruct (Arr.ltb p (at_ (x + 1))) eqn:G.
      * exists (x + 1)%nat. split; [lia|]. split; [|reflexivity].
        intros v Hv. replace v with (x + 1)%nat by lia. exact T.
      * destruct Patt as (m & Hm & Rm & Em). exists m. split; [lia|].
        split; [|exact Em]. intros v Hv.
        destruct (Nat.eq_dec v (x + 1)) as [->|N]; [exact T|].
        apply Rm. lia.
    + intros v Hv.
      destruct (Nat.eq_dec v x) as [->|N].
      * (* the lag just left *)
        destruct (Arr.ltb p (at_ (x + 1))) eqn:G.
        -- rewrite !nth_upd.
           assert ((x =? x + 1)%nat = false) as -> by (apply Nat.eqb_neq; lia).
           rewrite Nat.eqb_refl, Len.
           assert ((x <? n)%nat = true) as -> by (apply Nat.ltb_lt; exact Lx).
           cbn [andb]. split; [discriminate|].
           intros (R & NF). exfalso. apply NF. split; [exact B|].
           destruct (proj1 Rec1 eq_refl) as (_ & _ & G').
           apply G'; [lia|]. intros u Hu.
           destruct (Nat.eq_dec u x) as [->|N]; [exact Ax|].
           replace u with (x + 1)%nat by lia. exact T.
        -- rewrite At. unfold run_flag. split; [|tauto].
           intros R. split; [exact R|]. intros (_ & L2).
           apply ltb_ge in G.
           assert (at_ x <= p)%Q.
           { apply Pmax; [lia|]. intros u Hu. replace u with x by lia.
             exact Ax. }
           (* x is a record, so p is the value at x *)
           destruct Patt as (m & Hm & Rm & Em).
           destruct R as (_ & _ & R).
           destruct (Nat.eq_dec m x) as [->|Nm]; [lra|].
           pose proof (R m ltac:(lia) Rm). lra.
      * assert (v < x)%nat as C by lia.
        destruct (Arr.ltb p (at_ (x + 1))).
        -- rewrite !nth_upd.
           assert ((v =? x + 1)%nat = false) as -> by (apply Nat.eqb_neq; lia).
           assert ((v =? x)%nat = false) as -> by (apply Nat.eqb_neq; lia).
           cbn [andb]. now apply Before.
        -- now apply Before.
    + destruct (Arr.ltb p (at_ (x + 1))) eqn:G.
      * rewrite nth_upd, Nat.eqb_refl, upd_length, Len.
        assert ((x + 1 <? n)%nat = true) as -> by (apply Nat.ltb_lt; exact B).
        cbn [andb]. split; [intros _; now apply Rec1 | reflexivity].
      * rewrite After by lia. split; [discriminate|].
        intros R. apply Rec1 in R. discriminate.
    + intros v Hv. destruct (Arr.ltb p (at_ (x + 1))).
      * rewrite !nth_upd.
        assert ((v =? x + 1)%nat = false) as -> by (apply Nat.eqb_neq; lia).
        assert ((v =? x)%nat = false) as -> by (apply Nat.eqb_neq; lia).
        cbn [andb]. apply After. lia.
      * apply After. lia.
Qed.

End RunSpec.

(** X4.  What lines 236-255 leave flagged.  A lag is flagged after the
    run reduction exactly when it reaches the threshold, is strictly
    greater in magnitude than every earlier lag of its run of
    consecutive lags above the threshold, and is not followed by a
    greater neighbour.  So the first maximum of every run is flagged,
    and a run that rises again after a dip keeps its earlier record as
    well: [peaks[x] = False] clears the lag just left, not the lag of
    the previous maximum. *)
Theorem run_reduction_flags (abs_cc : list Q) (thr : Q) (z : nat) :
  nth z (reduce_runs abs_cc thr (candidates abs_cc thr)
                     (repeat false (length abs_cc))) false = true <->
  run_flag abs_cc thr z.
Proof.
  assert (F : forall u n, nth u (repeat false n) false = false).
  { intros u n. destruct (Nat.lt_ge_cases u n) as [L|L].
    - now rewrite nth_repeat_lt.
    - rewrite nth_overflow; [reflexivity | now rewrite repeat_length]. }
  unfold candidates, Arr.where_. rewrite length_map.
  destruct (filter _ (seq 0 (length abs_cc))) as [|x it] eqn:E.
  - cbn [reduce_runs]. rewrite F. split; [discriminate|].
    intros ((L & A & _) & _).
    pose proof (filter_seq_nil _ _ _ E z ltac:(lia)) as C.
    pose proof (cand_false abs_cc thr z L C). lra.
  - pose proof (filter_seq_head _ _ _ _ _ E) as (Bx & Cx & Lo & Eit).
    apply cand_true in Cx. destruct Cx as (Lx & Ax).
    assert (Start : forall w, (w < x)%nat -> ~ in_run abs_cc thr w x).
    { intros w Hw R. pose proof (R w ltac:(lia)).
      pose proof (cand_false abs_cc thr w ltac:(lia) (Lo w ltac:(lia))). lra. }
    unfold reduce_runs.
    assert (Arr.ltb (nth x abs_cc 0%Q) thr = false) as ->
      by (apply ltb_ge; exact Ax).
    apply scan_flags.
    + now rewrite upd_length, repeat_length.
    + exact Lx.
    + exact Ax.
    + rewrite Eit. reflexivity.
    + intros w Hw R. destruct (Nat.eq_dec w x) as [->|N]; [lra|].
      exfalso. apply (Start w); [lia | exact R].
    + exists x. split; [lia|]. split; [|reflexivity].
      intros v Hv. replace v with x by lia. exact Ax.
    + intros v Hv. rewrite nth_upd.
      assert ((v =? x)%nat = false) as -> by (apply Nat.eqb_neq; lia).
      cbn [andb]. rewrite F. split; [discriminate|].
      intros ((L & A & _) & _).
      pose proof (cand_false abs_cc thr v L (Lo v ltac:(lia))). lra.
    + rewrite nth_upd, Nat.eqb_refl, repeat_length.
      assert ((x <? length abs_cc)%nat = true) as ->
        by (apply Nat.ltb_lt; exact Lx).
      cbn [andb]. split; [|reflexivity]. intros _.
      split; [exact Lx|]. split; [exact Ax|].
      intros w Hw R. exfalso. apply (Start w Hw R).
    + intros v Hv. rewrite nth_upd.
      assert ((v =? x)%nat = false) as -> by (apply Nat.eqb_neq; lia).
      cbn [andb]. apply F.
Qed.

(** ** Normalizer: the padding and the window sums at their edges *)

Lemma firstn_repeat {A : Type} (x : A) (k n : nat) :
  (k <= n)%nat -> firstn k (repeat x n) = repeat x k.
Proof.
  revert n. induction k as [|k IH]; intros [|n] H; try reflexivity; [lia|].
  cbn [repeat firstn]. f_equal. apply IH. lia.
Qed.

Lemma skipn_repeat {A : Type} (x : A) (k n : nat) :
  skipn k (repeat x n) = repeat x (n - k).
Proof.
  revert n. induction k as [|k IH]; intros [|n]; try reflexivity.
  cbn [repeat skipn]. apply IH.
Qed.

(** The two branches of [pad_zeros] write the same slice: the function
    over slices is the function over lists. *)
Lemma pad_zeros_by_slices (a : list Q) (M num : nat) (num2 : option nat) :
  Slices.pad_zeros a M num num2 = pad_zeros a M num num2.
Proof.
  unfold Slices.pad_zeros, pad_zeros.
  set (n2 := match num2 with None => num | Some n => n end).
  assert (S : forall stop,
            (match stop with
             | Some s => Z.to_nat (Py.slice_index (Z.of_nat (M + num + n2)) s)
             | None => (M + num + n2)%nat
             end = M + num)%nat ->
            Slices.set_slice (Arr.zeros (M + num + n2)) (Z.of_nat num) stop a =
            match a with
            | [x] => Ok (Arr.zeros num ++ repeat x M ++ Arr.zeros n2)
            | _ => if (length a =? M)%nat
                   then Ok (Arr.zeros num ++ a ++ Arr.zeros n2)
                   else Raise ValueError
            end).
  { intros stop Hi. unfold Slices.set_slice, Arr.zeros.
    rewrite (repeat_length 0%Q). rewrite Hi.
    unfold Py.slice_index.
    assert ((Z.of_nat num <? 0) = false) as -> by (apply Z.ltb_ge; lia).
    rewrite Z.min_l by lia. rewrite Nat2Z.id.
    replace (M + num - num)%nat with M by lia.
    rewrite firstn_repeat by lia. rewrite skipn_repeat.
    replace (M + num + n2 - (num + M))%nat with n2 by lia.
    destruct (length a =? M)%nat eqn:E.
    - apply Nat.eqb_eq in E. destruct a as [|x [|y a]]; try reflexivity.
      cbn [length] in E. subst M. reflexivity.
    - destruct a as [|x [|y a]]; reflexivity. }
  destruct (n2 =? 0)%nat eqn:Z2.
  - apply Nat.eqb_eq in Z2. apply S. lia.
  - apply Nat.eqb_neq in Z2. apply S. unfold Py.slice_index.
    assert ((- Z.of_nat n2 <? 0) = true) as -> by (apply Z.ltb_lt; lia).
    lia.
Qed.

(** X5.  [pad_zeros(a, M, num, num2)] on an array of [M] entries returns
    [num] zeros, the array, and [num2] zeros ([num] again when [num2] is
    not given), whichever of the two slice assignments runs: the end
    [-num2] of the slice counts from the end of the array, and the
    branch for [num2 = 0] avoids the empty slice [num:-0].  An array of
    another length, unless it is a single entry, raises ValueError. *)
Theorem pad_zeros_layout (a : list Q) (M num : nat) (num2 : option nat) :
  let n2 := match num2 with None => num | Some n => n end in
  (length a = M ->
   Slices.pad_zeros a M num num2 = Ok (Arr.zeros num ++ a ++ Arr.zeros n2)) /\
  (length a <> M -> length a <> 1%nat ->
   Slices.pad_zeros a M num num2 = Raise ValueError).
Proof.
  cbn zeta. rewrite pad_zeros_by_slices. unfold pad_zeros. split.
  - intros <-. destruct a as [|x [|y a]]; try reflexivity.
    now rewrite Nat.eqb_refl.
  - intros H1 H2. apply Nat.eqb_neq in H1. rewrite H1.
    destruct a as [|x [|y a]]; try reflexivity. now elim H2.
Qed.

Lemma dot_ones_l (l : list Q) :
  (Arr.dot (Arr.ones (length l)) l == fold_right Qplus 0 l)%Q.
Proof.
  unfold Arr.dot. rewrite sum_fold_right.
  induction l as [|x l IH]; [reflexivity|].
  cbn [length Arr.ones repeat combine map fold_right fst snd].
  unfold Arr.ones in IH. rewrite IH. ring.
Qed.

Lemma fold_right_Qplus_app (l1 l2 : list Q) :
  (fold_right Qplus 0 (l1 ++ l2) ==
   fold_right Qplus 0 l1 + fold_right Qplus 0 l2)%Q.
Proof.
  induction l1 as [|x l IH]; cbn [app fold_right]; [ring|].
  rewrite IH. ring.
Qed.

Lemma fold_right_Qplus_rev (l : list Q) :
  (fold_right Qplus 0 (rev l) == fold_right Qplus 0 l)%Q.
Proof.
  induction l as [|x l IH]; [reflexivity|].
  cbn [rev]. rewrite fold_right_Qplus_app, IH. cbn [fold_right]. ring.
Qed.

(** X6.  [window_sum] on data shorter than the window does not fail:
    [convolve] swaps its operands, so the window of ones is the array
    that the data slides over, and the result is [window_len -
    len(data)] copies of the sum of all the data. *)
Theorem window_sum_short_data (data : list Q) (n : nat) :
  (1 <= length data < n)%nat ->
  exists w,
    window_sum data n = Ok w /\
    length w = (n - length data)%nat /\
    forall k, (k < length w)%nat -> (nth k w 0 == Arr.sum data)%Q.
Proof.
  intros H. unfold window_sum, Arr.convolve_valid, Arr.ones.
  rewrite (repeat_length 1%Q n).
  assert ((length data <? n)%nat = true) as -> by (apply Nat.ltb_lt; lia).
  destruct n as [|n]; [lia|]. destruct data as [|x data]; [cbn in H; lia|].
  cbn [repeat]. set (d := x :: data) in *. set (ones := 1%Q :: repeat 1%Q n).
  assert (Lo : length ones = S n)
    by (unfold ones; cbn; now rewrite repeat_length).
  rewrite Lo.
  replace (S n - length d + 1)%nat with (S (S n - length d)) by lia.
  cbn [seq map tl]. eexists. split; [reflexivity|]. split.
  - now rewrite length_map, length_seq.
  - intros k Hk. rewrite length_map, length_seq in Hk.
    rewrite nth_map_seq by exact Hk.
    rewrite (slice_window ones (1 + k) (length d) 0%Q) by lia.
    assert (E : map (fun i => nth i ones 0%Q) (seq (1 + k) (length d))
                = Arr.ones (length (rev d))).
    { rewrite length_rev. unfold Arr.ones.
      assert (forall m s, (s + m <= S n)%nat ->
                map (fun i => nth i ones 0%Q) (seq s m) = repeat 1%Q m) as G.
      { induction m as [|m IH]; intros s' Hs; [reflexivity|].
        cbn [seq map repeat]. f_equal; [|apply IH; lia].
        change ones with (repeat 1%Q (S n)). apply nth_repeat_lt. lia. }
      apply G. lia. }
    rewrite E, dot_ones_l, fold_right_Qplus_rev, sum_fold_right. reflexivity.
Qed.

Lemma window_sum_short_data_witness :
  exists w,
    window_sum [3; 4]%Q 5 = Ok w /\
    length w = 3%nat /\
    forall k, (k < length w)%nat -> (nth k w 0 == Arr.sum [3; 4]%Q)%Q.
Proof. apply (window_sum_short_data [3; 4]%Q 5). simpl. lia. Defined.

(** ** Orchestrator: the capacity probe *)

Lemma probe_finds (alloc : Z -> bool) (k : Z) :
  forall (fuel : nat) (n : Z),
    n <= k + 1 ->
    (forall m, n <= m <= k -> alloc m = true) ->
    alloc (k + 1) = false ->
    (Z.to_nat (k + 1 - n) < fuel)%nat ->
    probe alloc fuel n = Some k.
Proof.
  induction fuel as [|fuel IH]; intros n Hn Ok_ Fail F; [lia|].
  cbn [probe]. destruct (Z.eq_dec n (k + 1)) as [->|N].
  - rewrite Fail. f_equal. lia.
  - rewrite Ok_ by lia.
    apply IH; [lia | intros; apply Ok_; lia | exact Fail | lia].
Qed.

Lemma probe_sound (alloc : Z -> bool) :
  forall (fuel : nat) (n k : Z),
    probe alloc fuel n = Some k ->
    n - 1 <= k /\ (forall m, n <= m <= k -> alloc m = true) /\
    alloc (k + 1) = false.
Proof.
  induction fuel as [|fuel IH]; intros n k; cbn [probe]; [discriminate|].
  destruct (alloc n) eqn:A.
  - intros H. apply IH in H. destruct H as (B & Ok_ & Fail).
    split; [lia|]. split; [|exact Fail].
    intros m Hm. destruct (Z.eq_dec m n) as [->|N]; [exact A|].
    apply Ok_. lia.
  - intros E. injection E as <-. split; [lia|]. split; [intros; lia|].
    now replace (n - 1 + 1) with n by lia.
Qed.

(** X7.  On a device and for a sample rate that is not negative,
    [estimate_gpu_capacity] returns the number [k] of allocations that
    succeeded before the first failure: when the
    arrays for 1 .. k traces are granted and the array for k + 1 traces
    is not, the loop ends after k + 1 turns with [N_MAX - 1 = k], and
    it returns nothing else. *)
Theorem probe_gpu_capacity_largest (cfg : config) (alloc : nat -> Z -> bool)
  (sample_rate : Q) (k : Z) :
  use_cupy cfg = true ->
  (0 <= sample_rate)%Q ->
  let cc_len :=
    next_fast_len (Z.to_nat (int_of_Q (sample_rate * 86400))) in
  0 <= k ->
  (forall m, 1 <= m <= k -> alloc cc_len m = true) ->
  alloc cc_len (k + 1) = false ->
  (forall fuel, (Z.to_nat k < fuel)%nat ->
     probe_gpu_capacity cfg alloc sample_rate fuel = Some k) /\
  (forall fuel k',
     probe_gpu_capacity cfg alloc sample_rate fuel = Some k' -> k' = k).
Proof.
  intros G _ cc_len Hk Ok_ Fail. unfold probe_gpu_capacity. rewrite G.
  cbn [negb]. fold cc_len. split.
  - intros fuel F. apply probe_finds; [lia | exact Ok_ | exact Fail | lia].
  - intros fuel k' E. apply probe_sound in E. destruct E as (B & Ok' & Fail').
    destruct (Z.lt_trichotomy k' k) as [C|[C|C]]; [|exact C|].
    + rewrite Ok_ in Fail' by lia. discriminate.
    + rewrite Ok' in Fail by lia. discriminate.
Qed.

Lemma probe_gpu_capacity_largest_witness :
  let cfg := {| cc_threshold := 7 # 10; mad_threshold := 8;
                combine_thresholds := true; use_cupy := true |} in
  let alloc := fun (_ : nat) (n : Z) => n <=? 3 in
  (forall fuel, (3 < fuel)%nat ->
     probe_gpu_capacity cfg alloc (1 # 100) fuel = Some 3) /\
  (forall fuel k',
     probe_gpu_capacity cfg alloc (1 # 100) fuel = Some k' -> k' = 3).
Proof.
  cbn zeta.
  apply (probe_gpu_capacity_largest
           {| cc_threshold := 7 # 10; mad_threshold := 8;
              combine_thresholds := true; use_cupy := true |}
           (fun (_ : nat) (n : Z) => n <=? 3) (1 # 100) 3).
  - reflexivity.
  - unfold Qle. simpl. lia.
  - lia.
  - intros m Hm. apply Z.leb_le. lia.
  - reflexivity.
Defined.

(** ** Orchestrator: every run ends *)

Section Pointers.

Variable readable : string -> bool.
Variable trace_len : string -> nat.
Variable hits : string -> string -> string -> list detection.
Variable oom : nat -> option nat.
Variable all_templates : list string.
Variable all_data : list string.

Local Abbreviation n_data := (Z.of_nat (length all_data)).
Local Abbreviation n_templates := (Z.of_nat (length all_templates)).

Lemma load_data_pointers (s : state) :
  same_pointers s (load_data readable trace_len all_data s).
Proof.
  unfold load_data, same_pointers.
  destruct (list_eq_dec _ _ _); cbn; auto.
Qed.

Lemma load_templates_pointers (s : state) :
  same_pointers s (fst (load_templates readable all_templates s)).
Proof.
  unfold load_templates, same_pointers.
  destruct (templates s); [|destruct (index _ _) as [t|]; [destruct (negb _)|]];
    try destruct (read_bulk_data _ _); cbn; auto.
Qed.

Lemma compute_pointers (s : state) (dst : list string) :
  same_pointers s (fst (compute hits oom s dst)).
Proof.
  unfold compute, same_pointers.
  destruct (temp_st s) as [|[tst|]]; [| destruct (oom _) |]; cbn; auto.
Qed.

Lemma advance_spec (s : state) :
  N_MAX (fst (advance all_templates all_data s)) = N_MAX s /\
  if ti s + N_MAX s >=? n_templates then
    if di s + N_MAX s >=? n_data
    then snd (advance all_templates all_data s) = true
    else snd (advance all_templates all_data s) = false /\
         di (fst (advance all_templates all_data s)) = di s + N_MAX s /\
         ti (fst (advance all_templates all_data s)) = 0
  else snd (advance all_templates all_data s) = false /\
       di (fst (advance all_templates all_data s)) = di s /\
       ti (fst (advance all_templates all_data s)) = ti s + N_MAX s.
Proof.
  unfold advance.
  destruct (ti s + N_MAX s >=? n_templates);
    [destruct (di s + N_MAX s >=? n_data)|]; cbn; auto.
Qed.

Lemma advance_keeps (s : state) :
  written (fst (advance all_templates all_data s)) = written s /\
  n_detections (fst (advance all_templates all_data s)) = n_detections s.
Proof.
  unfold advance.
  destruct (_ >=? _); [destruct (_ >=? _)|]; cbn; auto.
Qed.

(** A turn of the [try] body that ends normally has moved the pointers
    one chunk on. *)
Lemma try_body_ok (s s1 : state) (b : bool) :
  try_body readable trace_len hits oom all_templates all_data s
    = (s1, Ok b) ->
  N_MAX s1 = N_MAX s /\
  if ti s + N_MAX s >=? n_templates then
    if di s + N_MAX s >=? n_data
    then b = true
    else b = false /\ di s1 = di s + N_MAX s /\ ti s1 = 0
  else b = false /\ di s1 = di s /\ ti s1 = ti s + N_MAX s.
Proof.
  unfold try_body.
  pose proof (load_data_pointers s) as (A1 & A2 & A3).
  set (s0 := load_data readable trace_len all_data s) in *.
  assert (Adv : forall s2, same_pointers s0 s2 ->
            (fst (advance all_templates all_data s2),
             @Ok bool (snd (advance all_templates all_data s2))) = (s1, Ok b) ->
            N_MAX s1 = N_MAX s /\
            if ti s + N_MAX s >=? n_templates then
              if di s + N_MAX s >=? n_data
              then b = true
              else b = false /\ di s1 = di s + N_MAX s /\ ti s1 = 0
            else b = false /\ di s1 = di s /\ ti s1 = ti s + N_MAX s).
  { intros s2 (B1 & B2 & B3) E. injection E as <- <-.
    pose proof (advance_spec s2) as H.
    rewrite B1, B2, B3, A1, A2, A3 in H. exact H. }
  destruct (data_st s0) as [|[dst|]]; [discriminate | |].
  - pose proof (load_templates_pointers s0) as T.
    destruct (load_templates readable all_templates s0) as (s2 & [[]|e]);
      [|discriminate].
    cbn [fst] in T.
    pose proof (compute_pointers s2 dst) as C.
    destruct (compute hits oom s2 dst) as (s3 & [[]|e]); [|discriminate].
    cbn [fst] in C. apply Adv.
    destruct T as (? & ? & ?), C as (? & ? & ?). unfold same_pointers.
    repeat split; congruence.
  - apply Adv. unfold same_pointers. auto.
Qed.

End Pointers.

(** A turn after which the loop goes on keeps the pointers in range and
    decreases the measure: the pointers have moved on, or the chunk
    size has shrunk. *)
Lemma iteration_progress (cfg : config) (readable : string -> bool)
  (trace_len : string -> nat)
  (hits : string -> string -> string -> list detection)
  (oom : nat -> option nat) (all_templates all_data : list string)
  (s s' : state) :
  Z.of_nat (length all_data) < 2 ^ 53 ->
  in_range all_templates all_data s ->
  iteration cfg readable trace_len hits oom all_templates all_data s
    = Continue s' ->
  in_range all_templates all_data s' /\
  fuel_of all_templates all_data s' < fuel_of all_templates all_data s.
Proof.
  intros Few (HN & Hd & Ht). unfold iteration.
  destruct (try_body _ _ _ _ _ _ s) as (s1 & [b|e]) eqn:E.
  - apply try_body_ok in E. destruct E as (EN & E).
    destruct b; [discriminate|]. intros Q. injection Q as <-.
    unfold in_range, fuel_of. rewrite EN.
    destruct (ti s + N_MAX s >=? _) eqn:Ct.
    + destruct (di s + N_MAX s >=? _) eqn:Cd; [discriminate|].
      destruct E as (_ & -> & ->).
      rewrite Z.geb_leb in Cd. apply Z.leb_gt in Cd.
      split; [lia | nia].
    + destruct E as (_ & -> & ->).
      rewrite Z.geb_leb in Ct. apply Z.leb_gt in Ct.
      split; [lia | nia].
  - apply try_body_raise in E. destruct E as (EN & Ed & Et).
    unfold recover. destruct e; try discriminate.
    destruct (use_cupy cfg); [|discriminate].
    destruct (Z.eq_dec (N_MAX s1) 1) as [One|Many].
    + rewrite One. change (1 - 1) with 0.
      rewrite find_optimal_chunksize_zero. discriminate.
    + destruct (find_optimal_chunksize_range (N_MAX s1 - 1)
                  (Z.of_nat (length all_data) - di s1)) as (c & -> & Hc);
        [lia.. |].
      assert ((c =? 0) = false) as -> by (apply Z.eqb_neq; lia).
      intros Q.
      assert (N_MAX s' = c /\ di s' = di s1 /\ ti s' = ti s1) as (F1 & F2 & F3)
        by (destruct (data_st s1); injection Q as <-; cbn; auto).
      unfold in_range, fuel_of. rewrite F1, F2, F3, Ed, Et.
      split; [lia | nia].
Qed.

Lemma run_in_range (cfg : config) (readable : string -> bool)
  (trace_len : string -> nat)
  (hits : string -> string -> string -> list detection)
  (oom : nat -> option nat) (all_templates all_data : list string) :
  Z.of_nat (length all_data) < 2 ^ 53 ->
  forall (fuel : nat) (s : state),
    in_range all_templates all_data s ->
    fuel_of all_templates all_data s < Z.of_nat fuel ->
    run cfg readable trace_len hits oom all_templates all_data fuel s
      <> OutOfFuel.
Proof.
  intros Few. induction fuel as [|fuel IH]; intros s R F.
  - exfalso. destruct R as (? & ? & ?). unfold fuel_of in F. nia.
  - cbn [run].
    destruct (iteration _ _ _ _ _ _ _ s) as [s'|o] eqn:E.
    + apply iteration_progress in E; [|exact Few|exact R].
      destruct E as (R' & D). apply IH; [exact R' | lia].
    + unfold iteration in E.
      destruct (try_body _ _ _ _ _ _ s) as (s1 & [[]|e]); try discriminate.
      * injection E as <-. discriminate.
      * unfold recover in E. destruct e; try (injection E as <-; discriminate).
        destruct (use_cupy cfg); [|injection E as <-; discriminate].
        destruct (find_optimal_chunksize _ _) as [c|];
          [|injection E as <-; discriminate].
        destruct (c =? 0); [injection E as <-; discriminate|].
        destruct (data_st s1); discriminate.
Qed.

Lemma run_more (cfg : config) (readable : string -> bool)
  (trace_len : string -> nat)
  (hits : string -> string -> string -> list detection)
  (oom : nat -> option nat) (all_templates all_data : list string) :
  forall (fuel fuel' : nat) (s : state),
    run cfg readable trace_len hits oom all_templates all_data fuel s
      <> OutOfFuel ->
    (fuel <= fuel')%nat ->
    run cfg readable trace_len hits oom all_templates all_data fuel' s =
    run cfg readable trace_len hits oom all_templates all_data fuel s.
Proof.
  induction fuel as [|fuel IH]; intros fuel' s H L; [now elim H|].
  destruct fuel' as [|fuel']; [lia|]. cbn [run] in *.
  destruct (iteration _ _ _ _ _ _ _ s); [|reflexivity].
  apply IH; [exact H | lia].
Qed.

(** Lines 96-100 either raise or give a first chunk size of at least
    one. *)
Lemma first_chunk_size_ends (n_max n_t n_d : Z) :
  0 <= n_max -> 1 <= n_t -> 1 <= n_d < 2 ^ 53 ->
  (exists e, first_chunk_size n_max n_t n_d = Raise e) \/
  (exists c, first_chunk_size n_max n_t n_d = Ok c /\ 1 <= c).
Proof.
  intros H0 H1 H2. unfold first_chunk_size.
  assert (G : forall n, 0 <= n ->
            (exists e, find_optimal_chunksize n n_d = Raise e) \/
            (exists c, find_optimal_chunksize n n_d = Ok c /\ 1 <= c)).
  { intros n Hn. destruct (Z.eq_dec n 0) as [->|NZ].
    - left. rewrite find_optimal_chunksize_zero. eauto.
    - right. destruct (find_optimal_chunksize_range n n_d) as (c & E & Hc);
        [lia.. |]. exists c. split; [exact E | lia]. }
  destruct (n_t <? n_max); [|cbn [bind]; now apply G].
  destruct (Py.truediv (n_max * n_max) n_t) as [x|e] eqn:E;
    [|left; cbn [bind]; eauto].
  cbn [bind]. apply G, half_nonneg.
  apply (truediv_nonneg (n_max * n_max) n_t); [nia | lia | exact E].
Qed.

(** A capacity of at least one trace, whose square is below 2^53, gives
    a first chunk size of at least one. *)
Lemma first_chunk_size_pos (n_max n_t n_d : Z) :
  1 <= n_max < 2 ^ 26 -> 1 <= n_t -> 1 <= n_d < 2 ^ 53 ->
  exists c, first_chunk_size n_max n_t n_d = Ok c /\ 1 <= c.
Proof.
  intros H0 H1 H2. unfold first_chunk_size.
  assert (G : forall n, 1 <= n ->
            exists c, find_optimal_chunksize n n_d = Ok c /\ 1 <= c).
  { intros n Hn. destruct (find_optimal_chunksize_range n n_d) as (c & E & Hc);
      [lia.. |]. exists c. split; [exact E | lia]. }
  destruct (n_t <? n_max) eqn:L; [|cbn [bind]; apply G; lia].
  apply Z.ltb_lt in L.
  assert (Sq : n_max * n_max < 2 ^ 53).
  { change (2 ^ 53) with (2 * (2 ^ 26 * 2 ^ 26)).
    assert (0 < 2 ^ 26) by reflexivity. nia. }
  destruct (truediv_half_floor (n_max * n_max) n_t ltac:(nia) Sq)
    as (x & -> & Hx).
  cbn [bind]. apply G. rewrite Hx. apply Z.div_le_lower_bound; nia.
Qed.

(** X8.  [match_templates] always comes to an end: whatever the device
    capacity, whichever files cannot be read and whichever calls of
    [matrix_cc] run out of memory, and for fewer than 2^53 day files
    (below which the quotients of [find_optimal_chunksize] are exact),
    the [while True] loop is left after finitely many turns, by [break],
    by [sys.exit] or by an exception.  A turn that ends normally moves a
    pointer on, and a turn that ends in the handler shrinks the chunk
    size. *)
Theorem match_templates_ends (cfg : config) (gpu_capacity : Z)
  (readable : string -> bool) (trace_len : string -> nat)
  (hits : string -> string -> string -> list detection)
  (oom : nat -> option nat) (all_templates all_data : list string) :
  0 <= gpu_capacity ->
  Z.of_nat (length all_data) < 2 ^ 53 ->
  exists fuel0 o,
    o <> OutOfFuel /\
    forall fuel, (fuel0 <= fuel)%nat ->
      match_templates cfg gpu_capacity readable trace_len hits oom
                      all_templates all_data fuel = o.
Proof.
  intros Cap Few. unfold match_templates.
  destruct all_templates as [|t0 tl] eqn:ET;
    [exists 0%nat; eexists; split; [|reflexivity]; discriminate|].
  rewrite <- ET.
  destruct all_data as [|d0 dl] eqn:ED;
    [exists 0%nat; eexists; split; [|reflexivity]; discriminate|].
  rewrite <- ED in *.
  set (nt := Z.of_nat (length all_templates)).
  set (nd := Z.of_nat (length all_data)) in *.
  assert (Hnt : 1 <= nt) by (unfold nt; rewrite ET; cbn [length]; lia).
  assert (Hnd : 1 <= nd) by (unfold nd; rewrite ED; cbn [length]; lia).
  set (cap := estimate_gpu_capacity cfg gpu_capacity).
  assert (Hcap : 0 <= cap)
    by (unfold cap, estimate_gpu_capacity; destruct (use_cupy cfg); lia).
  destruct (first_chunk_size_ends cap nt nd Hcap Hnt ltac:(lia))
    as [(e & ->)|(c & -> & Hc)].
  - exists 0%nat. eexists. split; [|reflexivity]. discriminate.
  - assert (R : in_range all_templates all_data (initial c))
      by (unfold in_range; cbn; fold nt nd; lia).
    set (fuel0 := S (Z.to_nat (fuel_of all_templates all_data (initial c)))).
    pose proof (run_in_range cfg readable trace_len hits oom all_templates
                  all_data Few fuel0 (initial c) R ltac:(unfold fuel0; lia))
      as E.
    exists fuel0. eexists. split; [exact E|].
    intros fuel L. now apply run_more.
Qed.

Lemma match_templates_ends_witness :
  let cfg := {| cc_threshold := 7 # 10; mad_threshold := 8;
                combine_thresholds := true; use_cupy := true |} in
  exists fuel0 o,
    o <> OutOfFuel /\
    forall fuel, (fuel0 <= fuel)%nat ->
      match_templates cfg 3 (fun f => negb (String.eqb f "b"))
                      (fun _ => 10%nat) one_line_per_pair
                      (fun k : nat => if (k =? 1)%nat then Some 0%nat else None)
                      ["a"; "b"; "c"]%string ["d1"; "d22"]%string fuel = o.
Proof.
  cbn zeta.
  apply (match_templates_ends
           {| cc_threshold := 7 # 10; mad_threshold := 8;
              combine_thresholds := true; use_cupy := true |}
           3 (fun f => negb (String.eqb f "b")) (fun _ => 10%nat)
           one_line_per_pair
           (fun k : nat => if (k =? 1)%nat then Some 0%nat else None)
           ["a"; "b"; "c"]%string ["d1"; "d22"]%string).
  - lia.
  - reflexivity.
Defined.

(** ** Orchestrator: a run without allocation failure *)

Lemma flat_map_enumerate_names {A B : Type} (names : list A)
  (g : A -> A -> list B) :
  flat_map (fun it => match nth_error names (fst it) with
                      | Some file => g file (snd it)
                      | None => []
                      end) (enumerate names)
  = flat_map (fun t => g t t) names.
Proof.
  unfold enumerate.
  assert (G : forall pre l,
            flat_map (fun it => match nth_error (pre ++ l) (fst it) with
                                | Some file => g file (snd it)
                                | None => []
                                end) (combine (seq (length pre) (length l)) l)
            = flat_map (fun t => g t t) l).
  { intros pre l. revert pre. induction l as [|x l IH]; intros pre;
      [reflexivity|].
    cbn [length seq combine flat_map fst snd].
    rewrite nth_error_app2 by lia. rewrite Nat.sub_diag. cbn [nth_error].
    f_equal. specialize (IH (pre ++ [x])).
    rewrite <- app_assoc, length_app in IH. cbn [length app] in IH.
    rewrite Nat.add_1_r in IH. exact IH. }
  exact (G [] names).
Qed.

Lemma perm_flat_map_app {A B : Type} (f g : A -> list B) (l : list A) :
  Permutation (flat_map f l ++ flat_map g l)
              (flat_map (fun a => f a ++ g a) l).
Proof.
  induction l as [|a l IH]; [constructor|].
  cbn [flat_map]. rewrite <- app_assoc.
  rewrite (app_assoc (flat_map f l)).
  rewrite (Permutation_app_comm (flat_map f l) (g a)).
  rewrite <- app_assoc, <- app_assoc.
  apply Permutation_app_head, Permutation_app_head. exact IH.
Qed.

Lemma firstn_add_skipn {A : Type} (l : list A) (a b : nat) :
  firstn (a + b) l = firstn a l ++ firstn b (skipn a l).
Proof.
  revert l. induction a as [|a IH]; intros l; [reflexivity|].
  destruct l as [|x l]; [now rewrite !firstn_nil|].
  cbn [Nat.add firstn skipn app]. f_equal. apply IH.
Qed.

Lemma firstn_chunk (l : list string) (N p : Z) :
  0 <= p -> 0 <= N ->
  firstn (Z.to_nat (p + N)) l = firstn (Z.to_nat p) l ++ chunk_at l N p.
Proof.
  intros Hp HN. unfold chunk_at. rewrite py_slice_window by assumption.
  rewrite Z2Nat.inj_add by assumption. apply firstn_add_skipn.
Qed.

Section ExactlyOnce.

Variable cfg : config.
Variable readable : string -> bool.
Variable trace_len : string -> nat.
Variable hits : string -> string -> string -> list detection.
Variable all_templates : list string.
Variable all_data : list string.

Hypothesis templates_distinct : NoDup all_templates.
Hypothesis data_distinct : NoDup all_data.
Hypothesis templates_readable :
  forall t, In t all_templates -> readable t = true.
Hypothesis few_data : Z.of_nat (length all_data) < 2 ^ 53.

Local Abbreviation free := (fun _ : nat => @None nat).
Local Abbreviation n_data := (Z.of_nat (length all_data)).
Local Abbreviation n_templates := (Z.of_nat (length all_templates)).
Local Abbreviation holds := (Inv readable hits all_templates all_data).
Local Abbreviation lines_of temps days :=
  (all_pair_lines readable hits temps days).

Lemma lines_of_temps_app (days t1 t2 : list string) :
  Permutation (lines_of t1 days ++ lines_of t2 days)
              (lines_of (t1 ++ t2) days).
Proof.
  unfold all_pair_lines.
  rewrite perm_flat_map_app. apply Permutation_refl'.
  apply flat_map_ext. intros d. now rewrite flat_map_app.
Qed.

Lemma lines_of_days_app (d1 d2 temps : list string) :
  lines_of temps (d1 ++ d2) = lines_of temps d1 ++ lines_of temps d2.
Proof. unfold all_pair_lines. now rewrite filter_app, flat_map_app. Qed.

Lemma lines_of_no_temps (days : list string) : lines_of [] days = [].
Proof. unfold all_pair_lines. apply flat_map_nil. reflexivity. Qed.

(** The lines of one call of [matrix_cc] on a chunk of readable
    templates are those of the pairs of the two chunks. *)
Lemma chunk_lines_read (N d t : Z) :
  match read_bulk_data readable (chunk_at all_data N d) with
  | Some l => chunk_lines hits (chunk_at all_templates N t)
                          (chunk_at all_templates N t) l
  | None => []
  end = lines_of (chunk_at all_templates N t) (chunk_at all_data N d).
Proof.
  unfold read_bulk_data, all_pair_lines.
  destruct (filter readable (chunk_at all_data N d)) as [|x l] eqn:E;
    [reflexivity|].
  unfold chunk_lines. apply flat_map_ext. intros dn.
  apply (flat_map_enumerate_names _ (fun f tt => hits f tt dn)).
Qed.

(** A turn without allocation failure, from a state that satisfies the
    loop invariant: the lines of the current pair of chunks are written
    and counted, and the pointers move on. *)
Lemma try_body_free (s : state) :
  holds s ->
  let lines := lines_of (chunk_at all_templates (N_MAX s) (ti s))
                        (chunk_at all_data (N_MAX s) (di s)) in
  exists s2,
    same_pointers s s2 /\
    written s2 = written s ++ lines /\
    n_detections s2 = n_detections s + Z.of_nat (length lines) /\
    try_body readable trace_len hits free all_templates all_data s =
      (fst (advance all_templates all_data s2),
       Ok (snd (advance all_templates all_data s2))).
Proof.
  intros I. cbn zeta. unfold try_body.
  destruct (load_data_spec readable trace_len hits all_templates all_data
              data_distinct s I) as (tm & cl & Htm & ->).
  cbn [data_st].
  pose proof (inv_nmax I) as HN. pose proof (inv_di I) as Hd.
  pose proof (inv_ti I) as Ht.
  assert (T : temp_inv readable all_templates all_data
                (N_MAX s) (di s) (ti s) tm (temp_st s)).
  { destruct Htm as [->| ->]; [now left | apply I]. }
  rewrite <- (chunk_lines_read (N_MAX s) (di s) (ti s)).
  destruct (read_bulk_data readable (chunk_at all_data (N_MAX s) (di s)))
    as [dstl|] eqn:R.
  - rewrite (load_templates_spec readable all_templates all_data
               templates_distinct templates_readable);
      [|exact HN | exact Ht | rewrite R; discriminate | exact T].
    unfold compute. cbn [temp_st templates calls].
    eexists. split; [|split; [|split; [|reflexivity]]];
      [unfold same_pointers; cbn; auto | reflexivity | reflexivity].
  - eexists. split; [|split; [|split; [|reflexivity]]].
    + unfold same_pointers; cbn; auto.
    + cbn. now rewrite app_nil_r.
    + cbn. lia.
Qed.

Lemma step_lines (N d t : Z) (w : list detection) :
  1 <= N -> 0 <= d -> 0 <= t ->
  Permutation w (lines_behind readable hits all_templates all_data N d t) ->
  Permutation
    (w ++ lines_of (chunk_at all_templates N t) (chunk_at all_data N d))
    (lines_of all_templates (firstn (Z.to_nat d) all_data) ++
     lines_of (firstn (Z.to_nat (t + N)) all_templates)
              (chunk_at all_data N d)).
Proof.
  intros HN Hd Ht P. rewrite P. unfold lines_behind.
  rewrite <- app_assoc. apply Permutation_app_head.
  rewrite (firstn_chunk all_templates N t) by lia.
  apply lines_of_temps_app.
Qed.

Lemma run_logged_once (fuel : nat) (s : state) :
  holds s -> logged_once readable hits all_templates all_data s ->
  fuel_of all_templates all_data s < Z.of_nat fuel ->
  exists s',
    run cfg readable trace_len hits free all_templates all_data fuel s
      = Returned s' /\
    Permutation (written s') (lines_of all_templates all_data) /\
    n_detections s' = Z.of_nat (length (written s')).
Proof.
  revert s. induction fuel as [|fuel IH]; intros s I (P & C) F.
  - exfalso. unfold fuel_of in F.
    pose proof (inv_nmax I). pose proof (inv_di I). pose proof (inv_ti I).
    nia.
  - pose proof (inv_nmax I) as HN. pose proof (inv_di I) as Hd.
    pose proof (inv_ti I) as Ht.
    destruct (try_body_free s I) as (s2 & (E1 & E2 & E3) & W & D & E).
    (* the handler is not reached, so the back end does not matter *)
    set (cfgT := {| cc_threshold := cc_threshold cfg;
                    mad_threshold := mad_threshold cfg;
                    combine_thresholds := combine_thresholds cfg;
                    use_cupy := true |}).
    pose proof (iteration_turn cfgT readable trace_len hits free
                  all_templates all_data eq_refl templates_distinct
                  data_distinct templates_readable few_data s I) as T.
    cbn [run]. unfold iteration in *. rewrite E in *.
    pose proof (advance_spec all_templates all_data s2) as (AN & A).
    pose proof (advance_keeps all_templates all_data s2) as (KW & KN).
    pose proof (step_lines (N_MAX s) (di s) (ti s) (written s)
                  ltac:(lia) ltac:(lia) ltac:(lia) P) as S.
    rewrite <- W in S.
    assert (Cnt : n_detections s2 = Z.of_nat (length (written s2))).
    { rewrite D, W, length_app, C. lia. }
    rewrite E1, E2, E3 in A.
    destruct (ti s + N_MAX s >=? n_templates) eqn:Ct.
    + apply Z.geb_le in Ct.
      rewrite (firstn_all2 (n := Z.to_nat (ti s + N_MAX s)) all_templates)
        in S by lia.
      rewrite <- lines_of_days_app, <- firstn_chunk in S by lia.
      destruct (di s + N_MAX s >=? n_data) eqn:Cd.
      * apply Z.geb_le in Cd. rewrite A.
        rewrite (firstn_all2 (n := Z.to_nat (di s + N_MAX s)) all_data)
          in S by lia.
        eexists. split; [reflexivity|]. rewrite KW, KN. auto.
      * rewrite Z.geb_leb in Cd. apply Z.leb_gt in Cd.
        destruct A as (Ab & Ad & At). rewrite Ab in T |- *.
        inversion T as [s' I' F' Q| |]. subst s'. clear T.
        apply IH; [exact I' | | lia].
        split; [|now rewrite KW, KN].
        rewrite KW, AN, Ad, At, E1. unfold lines_behind.
        change (Z.to_nat 0) with 0%nat. cbn [firstn].
        rewrite lines_of_no_temps, app_nil_r. exact S.
    + rewrite Z.geb_leb in Ct. apply Z.leb_gt in Ct.
      destruct A as (Ab & Ad & At). rewrite Ab in T |- *.
      inversion T as [s' I' F' Q| |]. subst s'. clear T.
      apply IH; [exact I' | | lia].
      split; [|now rewrite KW, KN].
      rewrite KW, AN, Ad, At, E1. exact S.
Qed.

End ExactlyOnce.

(** X9.  A run in which no call of [matrix_cc] fails, on distinct and
    readable template files and distinct day files, with or without a
    device: [match_templates] returns, the match files hold the lines of
    every pair of a template and a readable day file exactly once (the
    log is a rearrangement of the lines of all pairs), and the number
    of detections that the run reports is the number of lines
    written.  The capacity is below 2^26 and there are fewer than 2^53
    day files, so that the quotients of lines 98 and 72-75 are exact. *)
Theorem undisturbed_run_writes_each_line_once
  (cfg : config) (gpu_capacity : Z) (readable : string -> bool)
  (trace_len : string -> nat)
  (hits : string -> string -> string -> list detection)
  (all_templates all_data : list string) :
  1 <= estimate_gpu_capacity cfg gpu_capacity < 2 ^ 26 ->
  Z.of_nat (length all_data) < 2 ^ 53 ->
  NoDup all_templates ->
  NoDup all_data ->
  (forall t, In t all_templates -> readable t = true) ->
  all_templates <> [] ->
  exists fuel s,
    match_templates cfg gpu_capacity readable trace_len hits
                    (fun _ => None) all_templates all_data fuel
      = Returned s /\
    Permutation (written s)
                (all_pair_lines readable hits all_templates all_data) /\
    n_detections s = Z.of_nat (length (written s)).
Proof.
  intros Cap Few Dt Dd Rt Nt. unfold match_templates.
  destruct all_templates as [|t0 tl] eqn:ET; [contradiction|].
  rewrite <- ET in *.
  destruct all_data as [|d0 dl] eqn:ED.
  - exists 0%nat, (initial 0). split; [reflexivity|].
    split; [constructor | reflexivity].
  - rewrite <- ED in *.
    set (nt := Z.of_nat (length all_templates)).
    set (nd := Z.of_nat (length all_data)) in *.
    assert (Hnt : 1 <= nt) by (unfold nt; rewrite ET; cbn [length]; lia).
    assert (Hnd : 1 <= nd) by (unfold nd; rewrite ED; cbn [length]; lia).
    destruct (first_chunk_size_pos _ nt nd Cap Hnt ltac:(lia))
      as (c & -> & Hc).
    assert (NoData : all_data <> []) by (rewrite ED; discriminate).
    pose proof (initial_inv readable hits all_templates all_data
                  Dt Dd Rt Few c ltac:(lia) Nt NoData) as I.
    set (fuel := S (Z.to_nat (fuel_of all_templates all_data (initial c)))).
    destruct (run_logged_once cfg readable trace_len hits all_templates
                all_data Dt Dd Rt Few fuel (initial c) I)
      as (s & E & P & C).
    + split; [|reflexivity]. cbn [written initial N_MAX di ti].
      unfold lines_behind. change (Z.to_nat 0) with 0%nat. cbn [firstn].
      rewrite lines_of_no_temps. constructor.
    + unfold fuel. lia.
    + exists fuel, s. auto.
Qed.

Lemma undisturbed_run_writes_each_line_once_witness :
  let cfg := {| cc_threshold := 7 # 10; mad_threshold := 8;
                combine_thresholds := true; use_cupy := false |} in
  let temps := ["a"; "b"; "c"]%string in
  let days := ["d1"; "d22"; "d333"]%string in
  exists fuel s,
    match_templates cfg 0 (fun _ => true) (fun _ => 10%nat)
                    one_line_per_pair (fun _ => None) temps days fuel
      = Returned s /\
    Permutation (written s)
                (all_pair_lines (fun _ => true) one_line_per_pair
                                temps days) /\
    n_detections s = Z.of_nat (length (written s)).
Proof.
  cbn zeta.
  apply (undisturbed_run_writes_each_line_once
           {| cc_threshold := 7 # 10; mad_threshold := 8;
              combine_thresholds := true; use_cupy := false |}
           0 (fun _ => true) (fun _ => 10%nat) one_line_per_pair
           ["a"; "b"; "c"]%string ["d1"; "d22"; "d333"]%string).
  - cbn. split; [lia | reflexivity].
  - reflexivity.
  - repeat (constructor; [cbn; intuition discriminate|]). constructor.
  - repeat (constructor; [cbn; intuition discriminate|]). constructor.
  - intros t _. reflexivity.
  - discriminate.
Defined.

(** ** Orchestrator: what stops a run at its start *)

Lemma first_chunk_readable (readable : string -> bool) (d0 : string)
  (dl : list string) (c : Z) :
  1 <= c -> readable d0 = true ->
  exists rest1 rest2,
    py_slice (d0 :: dl) 0 (0 + c) = d0 :: rest1 /\
    read_bulk_data readable (d0 :: rest1) = Some (d0 :: rest2).
Proof.
  intros Hc R.
  destruct (py_slice_head (d0 :: dl) 0 c) as (x & r & E & Hx);
    [cbn [length]; lia | lia |].
  cbn in Hx. injection Hx as <-. rewrite E.
  exists r, (filter readable r). split; [reflexivity|].
  unfold read_bulk_data. cbn [filter]. now rewrite R.
Qed.

(** X10.  When [read_trace] can read none of the template files (the
    record header that [sampling_rate] asks of the first one before the
    loop is taken as read, as in the whole model) and the first day
    file can be read, [match_templates] ends in its first turn with an
    AttributeError that nothing catches: [read_bulk_data] returns
    [(None, None)] for the templates and line 140 asks [None] for its
    shape; the handler re-raises what is not an out-of-memory error.
    Nothing has been written by then.  The capacity is below 2^26 and
    there are fewer than 2^53 day files, so that the loop is reached. *)
Theorem unreadable_templates_raise (cfg : config) (gpu_capacity : Z)
  (readable : string -> bool) (trace_len : string -> nat)
  (hits : string -> string -> string -> list detection)
  (oom : nat -> option nat) (all_templates : list string)
  (d0 : string) (dl : list string) (fuel : nat) :
  1 <= estimate_gpu_capacity cfg gpu_capacity < 2 ^ 26 ->
  Z.of_nat (length (d0 :: dl)) < 2 ^ 53 ->
  all_templates <> [] ->
  (forall t, In t all_templates -> readable t = false) ->
  readable d0 = true ->
  match_templates cfg gpu_capacity readable trace_len hits oom
                  all_templates (d0 :: dl) (S fuel)
  = Uncaught AttributeError [].
Proof.
  intros Cap Few Nt Un Rd. unfold match_templates.
  destruct all_templates as [|t0 tl] eqn:ET; [contradiction|].
  rewrite <- ET in *.
  set (nt := Z.of_nat (length all_templates)).
  set (nd := Z.of_nat (length (d0 :: dl))) in *.
  assert (Hnt : 1 <= nt) by (unfold nt; rewrite ET; cbn [length]; lia).
  assert (Hnd : 1 <= nd) by (unfold nd; cbn [length]; lia).
  destruct (first_chunk_size_pos _ nt nd Cap Hnt ltac:(lia))
    as (c & -> & Hc).
  cbn [run]. unfold iteration, try_body, load_data.
  cbn [initial N_MAX di ti data templates cc_len data_st temp_st
       n_detections written calls].
  destruct (first_chunk_readable readable d0 dl c ltac:(lia) Rd)
    as (r1 & r2 & E1 & E2).
  rewrite E1. destruct (list_eq_dec string_dec [] (d0 :: r1)) as [Q|_];
    [discriminate|].
  rewrite E2. cbn [data_st]. unfold load_templates.
  cbn [templates ti N_MAX].
  assert (read_bulk_data readable (py_slice all_templates 0 (0 + c)) = None)
    as ->.
  { unfold read_bulk_data.
    destruct (filter readable _) as [|x l] eqn:F; [reflexivity|].
    assert (In x (filter readable (py_slice all_templates 0 (0 + c)))) as H
      by (rewrite F; now left).
    apply filter_In in H. destruct H as (H & R).
    apply in_py_slice in H; [|lia..]. destruct H as (k & _ & H).
    apply nth_error_In in H. rewrite (Un x H) in R. discriminate. }
  destruct (negb _); reflexivity.
Qed.

Lemma unreadable_templates_raise_witness :
  let cfg := {| cc_threshold := 7 # 10; mad_threshold := 8;
                combine_thresholds := true; use_cupy := false |} in
  match_templates cfg 0 (fun f => String.eqb f "d1") (fun _ => 10%nat)
                  one_line_per_pair (fun _ => None)
                  ["a"; "b"]%string ["d1"; "d22"]%string 5
  = Uncaught AttributeError [].
Proof.
  cbn zeta.
  apply (unreadable_templates_raise
           {| cc_threshold := 7 # 10; mad_threshold := 8;
              combine_thresholds := true; use_cupy := false |}
           0 (fun f => String.eqb f "d1") (fun _ => 10%nat)
           one_line_per_pair (fun _ => None)
           ["a"; "b"]%string "d1"%string ["d22"]%string 4).
  - cbn. split; [lia | reflexivity].
  - reflexivity.
  - discriminate.
  - intros t [<-|[<-|[]]]; reflexivity.
  - reflexivity.
Defined.

(** X11.  On a device that does not grant the array for a single trace,
    [estimate_gpu_capacity] returns 0, and [match_templates] then ends
    before its loop with a ZeroDivisionError that nothing catches:
    [find_optimal_chunksize] divides by the capacity.  No trace has
    been read and nothing has been written by then. *)
Theorem no_device_memory_raises (cfg : config) (alloc : nat -> Z -> bool)
  (sample_rate : Q) (readable : string -> bool) (trace_len : string -> nat)
  (hits : string -> string -> string -> list detection)
  (oom : nat -> option nat) (all_templates all_data : list string)
  (pfuel fuel : nat) :
  use_cupy cfg = true ->
  (0 <= sample_rate)%Q ->
  alloc (next_fast_len (Z.to_nat (int_of_Q (sample_rate * 86400)))) 1
    = false ->
  all_templates <> [] -> all_data <> [] ->
  probe_gpu_capacity cfg alloc sample_rate (S pfuel) = Some 0 /\
  match_templates cfg 0 readable trace_len hits oom
                  all_templates all_data fuel
  = Uncaught ZeroDivisionError [].
Proof.
  intros G _ A Nt Nd. split.
  - unfold probe_gpu_capacity. rewrite G. cbn [negb probe]. now rewrite A.
  - unfold match_templates, estimate_gpu_capacity, first_chunk_size.
    rewrite G.
    destruct all_templates as [|t0 tl]; [contradiction|].
    destruct all_data as [|d0 dl]; [contradiction|].
    assert ((Z.of_nat (length (t0 :: tl)) <? 0) = false) as ->
      by (apply Z.ltb_ge; lia).
    cbn [bind]. now rewrite find_optimal_chunksize_zero.
Qed.

Lemma no_device_memory_raises_witness :
  let cfg := {| cc_threshold := 7 # 10; mad_threshold := 8;
                combine_thresholds := true; use_cupy := true |} in
  probe_gpu_capacity cfg (fun _ _ => false) (1 # 100) 1 = Some 0 /\
  match_templates cfg 0 (fun _ => true) (fun _ => 10%nat)
                  one_line_per_pair (fun _ => None)
                  ["a"]%string ["d1"]%string 3
  = Uncaught ZeroDivisionError [].
Proof.
  cbn zeta.
  apply (no_device_memory_raises
           {| cc_threshold := 7 # 10; mad_threshold := 8;
              combine_thresholds := true; use_cupy := true |}
           (fun _ _ => false) (1 # 100) (fun _ => true) (fun _ => 10%nat)
           one_line_per_pair (fun _ => None)
           ["a"]%string ["d1"]%string 0 3);
    [reflexivity | unfold Qle; simpl; lia | reflexivity | discriminate
    | discriminate].
Defined.

(** ** DataHandler: what a chunk of files becomes *)

Lemma mapM_map {A B : Type} (f : A -> result B) (g : A -> B) (l : list A) :
  (forall a, In a l -> f a = Ok (g a)) -> mapM f l = Ok (map g l).
Proof.
  induction l as [|a l IH]; intros H; [reflexivity|].
  cbn [mapM map]. rewrite (H a) by now left.
  rewrite IH by (intros b Hb; apply H; now right). reflexivity.
Qed.

Lemma read_all_length (read_trace : string -> option DataHandler.trace)
  (filter_trace : DataHandler.trace -> DataHandler.trace)
  (files : list string) (bandpass : bool) :
  (length (DataHandler.read_all read_trace filter_trace files bandpass)
   <= length files)%nat.
Proof.
  unfold DataHandler.read_all. destruct bandpass.
  - induction files as [|f files IH]; [cbn; lia|].
    cbn [map flat_map]. rewrite length_app.
    unfold DataHandler.read_and_filter_trace at 1.
    destruct (read_trace f); cbn [option_map length]; cbn [length] in *; lia.
  - induction files as [|f files IH]; [cbn; lia|].
    cbn [map flat_map]. rewrite length_app.
    destruct (read_trace f); cbn [length] in *; lia.
Qed.

(** X12.  [read_bulk_data] with [method='make_equal_length'], for traces
    whose header count is the number of their samples: the result is
    one array with a row per file that could be read, in the order of
    the files; the number of columns is the length of the longest
    trace, and every row is its trace followed by zeros.  The files that
    could not be read leave no row, so the array can have fewer rows
    than there are file names. *)
Theorem make_equal_length_pads
  (read_trace : string -> option DataHandler.trace)
  (filter_trace : DataHandler.trace -> DataHandler.trace)
  (files : list string) (bandpass : bool) :
  let traces := DataHandler.read_all read_trace filter_trace files bandpass in
  let max_len := list_max (map DataHandler.npts traces) in
  traces <> [] ->
  Forall (fun tr => DataHandler.npts tr = length (DataHandler.tr_data tr))
         traces ->
  exists rows,
    DataHandler.read_bulk_data read_trace filter_trace files
                               "make_equal_length" bandpass
      = Ok (Some (DataHandler.Matrix {| a_cols := max_len; a_rows := rows |},
                  map DataHandler.starttime traces)) /\
    rows = map (fun tr =>
                  DataHandler.tr_data tr
                  ++ Arr.zeros (max_len - length (DataHandler.tr_data tr)))
               traces /\
    Forall (fun r => length r = max_len) rows /\
    (length rows <= length files)%nat.
Proof.
  cbn zeta. intros Ne Hdr. unfold DataHandler.read_bulk_data.
  set (traces := DataHandler.read_all read_trace filter_trace files bandpass)
    in *.
  set (max_len := list_max (map DataHandler.npts traces)).
  assert (Fit : forall tr, In tr traces ->
                  (length (DataHandler.tr_data tr) <= max_len)%nat).
  { intros tr H. rewrite Forall_forall in Hdr. rewrite <- (Hdr tr H).
    apply list_max_ge, in_map, H. }
  destruct traces as [|t0 tl] eqn:E; [contradiction|]. rewrite <- E in *.
  cbn [String.eqb Ascii.eqb Bool.eqb andb].
  rewrite (mapM_map _ (fun tr =>
             DataHandler.tr_data tr
             ++ Arr.zeros (max_len - length (DataHandler.tr_data tr)))).
  - cbn [bind]. eexists. split; [reflexivity|]. split; [reflexivity|]. split.
    + apply Forall_forall. intros r Hr. apply in_map_iff in Hr.
      destruct Hr as (tr & <- & Htr). rewrite length_app.
      unfold Arr.zeros. rewrite (repeat_length 0%Q).
      specialize (Fit tr Htr). lia.
    + rewrite length_map. apply read_all_length.
  - intros tr Htr. unfold DataHandler.fill_row.
    assert ((length (DataHandler.tr_data tr) <=? max_len)%nat = true) as ->
      by (apply Nat.leb_le, Fit, Htr).
    reflexivity.
Qed.

Lemma make_equal_length_pads_witness :
  exists rows,
    DataHandler.read_bulk_data sample_read (fun tr => tr)
                               ["a"; "missing"; "b"]%string
                               "make_equal_length" false
      = Ok (Some (DataHandler.Matrix {| a_cols := 2; a_rows := rows |},
                  [0; 10]%Q)) /\
    rows = [[1; 2]; [3; 0]]%Q /\
    Forall (fun r => length r = 2%nat) rows /\
    (length rows <= 3)%nat.
Proof.
  apply (make_equal_length_pads sample_read (fun tr => tr)
           ["a"; "missing"; "b"]%string false).
  - discriminate.
  - repeat constructor.
Defined.

(** ** SpectralCorrelator: the chunks it is given *)

Lemma for_data_all_short (be : backend) (cfg : config) (templates : array2)
  (temp_files : list string) (t_data : list Q) (cc_len : nat)
  (traces : list (nat * list Q)) (n : Z) :
  Forall (fun jd => (length (snd jd) < a_cols templates)%nat) traces ->
  for_data (trace_body be cfg templates temp_files t_data cc_len) traces n
  = ret n.
Proof.
  revert n. induction traces as [|[j d] traces IH]; intros n H;
    [reflexivity|].
  inversion H as [|? ? Hd Ht]; subst. cbn [for_data]. unfold trace_body at 1.
  cbn [snd] in Hd. apply Nat.ltb_lt in Hd. rewrite Hd.
  unfold iobind, ret at 1. rewrite IH by exact Ht. reflexivity.
Qed.

(** X14.  When every trace of the chunk is shorter than the templates,
    [matrix_cc] returns 0 and writes no line, whatever the templates,
    file names and start times are.  The message 'data traces must be
    longer than templates' is printed only when the template length
    also exceeds the transform length [next_fast_len(max M)]; between
    the two lengths every trace is skipped without a word. *)
Theorem matrix_cc_all_short (be : backend) (cfg : config)
  (templates : array2) (data : list (list Q))
  (temp_files : list string) (t_data : list Q) :
  data <> [] ->
  Forall (fun d => (length d < a_cols templates)%nat) data ->
  matrix_cc be cfg templates data temp_files t_data =
  ({| matches := [];
      stdout :=
        if (next_fast_len (list_max (map (@length Q) data))
            <? a_cols templates)%nat
        then ["data traces must be longer than templates"%string]
        else [] |}, Ok 0).
Proof.
  intros Ne Short. unfold matrix_cc.
  destruct data as [|d0 data']; [contradiction|].
  destruct (_ <? _)%nat; [reflexivity|].
  apply for_data_all_short. apply Forall_forall. intros [j d] H.
  cbn [snd]. apply in_enumerate, nth_error_In in H.
  rewrite Forall_forall in Short. now apply Short.
Qed.

Lemma matrix_cc_all_short_witness :
  let cfg := {| cc_threshold := 7 # 10; mad_threshold := 8;
                combine_thresholds := true; use_cupy := false |} in
  matrix_cc reference_backend cfg
            {| a_cols := 8; a_rows := [repeat 1%Q 8] |}
            [repeat 1%Q 7] ["t"%string] [0%Q]
    = ({| matches := []; stdout := [] |}, Ok 0) /\
  matrix_cc reference_backend cfg
            {| a_cols := 9; a_rows := [repeat 1%Q 9] |}
            [repeat 1%Q 7] ["t"%string] [0%Q]
    = ({| matches := [];
          stdout := ["data traces must be longer than templates"%string] |},
       Ok 0).
Proof.
  cbn zeta. split.
  - apply (matrix_cc_all_short reference_backend
             {| cc_threshold := 7 # 10; mad_threshold := 8;
                combine_thresholds := true; use_cupy := false |}
             {| a_cols := 8; a_rows := [repeat 1%Q 8] |}
             [repeat 1%Q 7] ["t"%string] [0%Q]).
    + discriminate.
    + repeat constructor.
  - apply (matrix_cc_all_short reference_backend
             {| cc_threshold := 7 # 10; mad_threshold := 8;
                combine_thresholds := true; use_cupy := false |}
             {| a_cols := 9; a_rows := [repeat 1%Q 9] |}
             [repeat 1%Q 7] ["t"%string] [0%Q]).
    + discriminate.
    + repeat constructor.
Defined.

Lemma mapM_fill_row (max_len : nat) (traces : list DataHandler.trace)
  (rows : list (list Q)) :
  mapM (fun tr => DataHandler.fill_row max_len (DataHandler.tr_data tr))
       traces = Ok rows ->
  Forall (fun r => length r = max_len) rows /\ length rows = length traces.
Proof.
  revert rows. induction traces as [|tr traces IH]; intros rows; cbn [mapM].
  - intros E. injection E as <-. split; [constructor | reflexivity].
  - unfold DataHandler.fill_row at 1.
    destruct (length (DataHandler.tr_data tr) <=? max_len)%nat eqn:L;
      [|discriminate].
    destruct (mapM _ traces) as [rs|]; [|discriminate].
    intros E. injection E as <-. destruct (IH rs eq_refl) as (F & Len).
    split; [|cbn [length]; lia].
    constructor; [|exact F]. rewrite length_app. unfold Arr.zeros.
    rewrite (repeat_length 0%Q). apply Nat.leb_le in L. lia.
Qed.

Lemma read_all_readable (read_trace : string -> option DataHandler.trace)
  (filter_trace : DataHandler.trace -> DataHandler.trace)
  (files : list string) :
  Forall (fun f => read_trace f <> None) files ->
  length (DataHandler.read_all read_trace filter_trace files false)
  = length files.
Proof.
  unfold DataHandler.read_all. induction 1 as [|f files Hf _ IH];
    [reflexivity|].
  cbn [map flat_map]. rewrite length_app.
  destruct (read_trace f); [|congruence]. cbn [length] in *. lia.
Qed.

(** X15.  The arrays that [match_templates] hands to [matrix_cc] are
    arrays that [matrix_cc] accepts.  When every template file can be
    read (as [process_matches] reads the header of the file once more),
    the template array that [read_bulk_data] builds with
    'make_equal_length' has one row for every file name, and on this
    array, the data arrays and start times that [read_bulk_data] builds
    with 'assume_equal_length', and the names of the template files,
    [matrix_cc] raises nothing (no index out of range, no shape
    mismatch) and returns the number of lines that it wrote, provided
    the templates have a sample. *)
Theorem matrix_cc_accepts_bulk_data (be : backend) (cfg : config)
  (read_trace : string -> option DataHandler.trace)
  (filter_trace : DataHandler.trace -> DataHandler.trace)
  (template_files data_files : list string)
  (temp_st : array2) (t_temp : list Q)
  (data_st : list (list Q)) (t_data : list Q) :
  Forall (fun f => read_trace f <> None) template_files ->
  DataHandler.read_bulk_data read_trace filter_trace template_files
                             "make_equal_length" false
    = Ok (Some (DataHandler.Matrix temp_st, t_temp)) ->
  DataHandler.read_bulk_data read_trace filter_trace data_files
                             "assume_equal_length" true
    = Ok (Some (DataHandler.Arrays data_st, t_data)) ->
  (1 <= a_cols temp_st)%nat ->
  length (a_rows temp_st) = length template_files /\
  exists o n,
    matrix_cc be cfg temp_st data_st template_files t_data = (o, Ok n) /\
    n = Z.of_nat (length (matches o)).
Proof.
  unfold DataHandler.read_bulk_data. intros Readable Et Ed Npos.
  pose proof (read_all_readable read_trace filter_trace template_files
                                Readable) as Lt.
  destruct (DataHandler.read_all read_trace filter_trace template_files false)
    as [|t0 tl] eqn:Rt; [discriminate|]. rewrite <- Rt in *.
  cbn [String.eqb Ascii.eqb Bool.eqb andb] in Et.
  destruct (mapM _ _) as [rows|] eqn:Rows; [|discriminate].
  cbn [bind] in Et. injection Et as <- _.
  apply mapM_fill_row in Rows. destruct Rows as (Shape & Len).
  split; [cbn [a_rows]; lia|].
  destruct (DataHandler.read_all read_trace filter_trace data_files true)
    as [|d0 dl] eqn:Rd; [discriminate|]. rewrite <- Rd in *.
  cbn [String.eqb Ascii.eqb Bool.eqb andb] in Ed. injection Ed as <- <-.
  destruct (matrix_cc_lines be cfg
              {| a_cols := list_max (map DataHandler.npts
                   (DataHandler.read_all read_trace filter_trace
                      template_files false));
                 a_rows := rows |}
              (map DataHandler.tr_data
                 (DataHandler.read_all read_trace filter_trace
                    data_files true))
              template_files
              (map DataHandler.starttime
                 (DataHandler.read_all read_trace filter_trace
                    data_files true)))
    as (o & n & E & C & _).
  - exact Shape.
  - cbn [a_rows]. lia.
  - now rewrite !length_map.
  - exact Npos.
  - rewrite Rd. discriminate.
  - exists o, n. auto.
Qed.

Lemma matrix_cc_accepts_bulk_data_witness :
  let cfg := {| cc_threshold := 7 # 10; mad_threshold := 8;
                combine_thresholds := true; use_cupy := false |} in
  length [[1; 2]; [3; 0]]%Q = length ["a"; "b"]%string /\
  exists o n,
    matrix_cc reference_backend cfg
              {| a_cols := 2; a_rows := [[1; 2]; [3; 0]]%Q |}
              [[0; 1; 2; 0; 0]%Q] ["a"; "b"]%string [86400%Q]
      = (o, Ok n) /\
    n = Z.of_nat (length (matches o)).
Proof.
  cbn zeta.
  apply (matrix_cc_accepts_bulk_data reference_backend
           {| cc_threshold := 7 # 10; mad_threshold := 8;
              combine_thresholds := true; use_cupy := false |}
           sample_read (fun tr => tr)
           ["a"; "b"]%string ["day"]%string
           {| a_cols := 2; a_rows := [[1; 2]; [3; 0]]%Q |} [0; 10]%Q
           [[0; 1; 2; 0; 0]%Q] [86400%Q]).
  - repeat constructor; discriminate.
  - reflexivity.
  - reflexivity.
  - simpl. lia.
Defined.

(** ** DataHandler: the day files of a channel *)

Lemma first_match_spec (day_matches : Z -> string -> bool)
  (d_files : list string) (date : Z) (f : string) :
  In f (DataHandler.first_match day_matches d_files date) ->
  In f d_files /\ day_matches date f = true.
Proof.
  unfold DataHandler.first_match.
  destruct (find _ d_files) as [g|] eqn:E; [|intros []].
  intros [<-|[]]. now apply find_some in E.
Qed.

Lemma first_match_length (day_matches : Z -> string -> bool)
  (d_files : list string) (date : Z) :
  (length (DataHandler.first_match day_matches d_files date) <= 1)%nat.
Proof. unfold DataHandler.first_match. destruct (find _ _); cbn; lia. Qed.

Lemma flat_map_length_le {A B : Type} (f : A -> list B) (l : list A) :
  (forall a, (length (f a) <= 1)%nat) ->
  (length (flat_map f l) <= length l)%nat.
Proof.
  intros H. induction l as [|a l IH]; [cbn; lia|].
  cbn [flat_map length]. rewrite length_app. specialize (H a). lia.
Qed.

(** X21.  [prepare_data_list] returns at most one file per requested
    day, the first of the listing that matches the day, in the order of
    the days; every file it returns is in the listing and matches a day
    between [start] and [end]; and when no file name matches the
    patterns of two days, no file is returned twice.  A start after the
    end gives the empty list. *)
Theorem prepare_data_list_one_per_day (day_matches : Z -> string -> bool)
  (d_files : list string) (start stop : Z) :
  let files :=
    DataHandler.prepare_data_list day_matches d_files start stop in
  Z.of_nat (length files) <= Z.max 0 (stop - start + 1) /\
  (forall f, In f files ->
     In f d_files /\
     exists day, start <= day <= stop /\ day_matches day f = true) /\
  ((forall f d1 d2, day_matches d1 f = true -> day_matches d2 f = true ->
                    d1 = d2) ->
   NoDup files).
Proof.
  cbn zeta. unfold DataHandler.prepare_data_list.
  set (n := Z.to_nat (stop - start + 1)). split; [|split].
  - pose proof (flat_map_length_le
                  (DataHandler.first_match day_matches d_files)
                  (map (fun i => start + Z.of_nat i) (seq 0 n))
                  (first_match_length day_matches d_files)) as L.
    rewrite length_map, length_seq in L. lia.
  - intros f Hf. apply in_flat_map in Hf. destruct Hf as (day & Hd & Hf).
    apply first_match_spec in Hf. destruct Hf as (Hf & M).
    split; [exact Hf|]. exists day. split; [|exact M].
    apply in_map_iff in Hd. destruct Hd as (i & <- & Hi).
    apply in_seq in Hi. lia.
  - intros Inj. generalize 0%nat as s. induction n as [|n IH]; intros s.
    + constructor.
    + cbn [seq map flat_map]. apply NoDup_app.
      * unfold DataHandler.first_match.
        destruct (find _ _); repeat constructor. intros [].
      * apply IH.
      * intros f H1 H2. apply first_match_spec in H1.
        apply in_flat_map in H2. destruct H2 as (day & Hd & H2).
        apply first_match_spec in H2.
        pose proof (Inj f _ _ (proj2 H1) (proj2 H2)) as E.
        apply in_map_iff in Hd. destruct Hd as (i & Ei & Hi).
        apply in_seq in Hi. lia.
Qed.

(** ** common.py: chunks *)

Lemma chunks_loop_spec {A : Type} (N : nat) :
  (1 <= N)%nat ->
  forall (fuel : nat) (data : list A),
    (length data < fuel)%nat ->
    let cs := chunks_loop fuel data N in
    concat cs = data /\
    Forall (fun c => (1 <= length c <= N)%nat) cs /\
    (forall i, (S i < length cs)%nat -> length (nth i cs []) = N) /\
    Z.of_nat N * (Z.of_nat (length cs) - 1) < Z.of_nat (length data)
      <= Z.of_nat N * Z.of_nat (length cs).
Proof.
  intros HN. induction fuel as [|fuel IH]; intros data F; [lia|].
  cbn zeta. cbn [chunks_loop].
  destruct (firstn N data) as [|x c] eqn:E.
  - assert (data = []) as ->.
    { destruct data; [reflexivity|]. destruct N; [lia | discriminate]. }
    cbn. repeat split; try constructor; intros; lia.
  - assert (Lc : length (x :: c) = Nat.min N (length data))
      by (rewrite <- E; apply length_firstn).
    assert (Ls : length (skipn N data) = (length data - N)%nat)
      by apply length_skipn.
    assert (Ld : (1 <= length data)%nat)
      by (destruct data; [now rewrite firstn_nil in E | cbn; lia]).
    destruct (IH (skipn N data)) as (C & Fa & Full & Cnt).
    { rewrite Ls. cbn [length] in Lc. lia. }
    cbn zeta in *. set (cs := chunks_loop fuel (skipn N data) N) in *.
    split; [|split; [|split]].
    + cbn [concat]. rewrite C, <- E. apply firstn_skipn.
    + constructor; [cbv beta; lia | exact Fa].
    + intros [|i] Hi; cbn [nth length] in *.
      * destruct cs as [|c1 cs']; [cbn in Hi; lia|].
        (* a further chunk exists, so the data did not run out *)
        assert (length (skipn N data) <> 0)%nat.
        { intros Z. apply length_zero_iff_nil in Z.
          assert (concat (c1 :: cs') = []) as K by congruence.
          inversion Fa as [|? ? F1 _]; subst.
          cbn [concat] in K. apply app_eq_nil in K. destruct K as (-> & _).
          cbn in F1. lia. }
        lia.
      * apply Full. lia.
    + cbn [length]. rewrite Ls in Cnt. cbn [length] in Lc.
      destruct (Nat.le_gt_cases (length data) N) as [Le|Gt].
      * (* the last chunk *)
        assert (cs = []) as ->.
        { destruct cs as [|c1 cs']; [reflexivity|].
          inversion Fa as [|? ? F1 _]; subst.
          assert (length (concat (c1 :: cs')) = 0)%nat as K
            by (rewrite C, Ls; lia).
          cbn [concat] in K. rewrite length_app in K. lia. }
        cbn [length]. lia.
      * nia.
Qed.

Lemma chunks_loop_more {A : Type} (N : nat) :
  (1 <= N)%nat ->
  forall (fuel fuel' : nat) (data : list A),
    (length data < fuel)%nat -> (fuel <= fuel')%nat ->
    chunks_loop fuel' data N = chunks_loop fuel data N.
Proof.
  intros HN. induction fuel as [|fuel IH]; intros fuel' data F L; [lia|].
  destruct fuel' as [|fuel']; [lia|]. cbn [chunks_loop].
  destruct (firstn N data) as [|x c] eqn:E; [reflexivity|].
  f_equal. apply IH; [|lia]. rewrite length_skipn.
  assert (1 <= length data)%nat
    by (destruct data; [now rewrite firstn_nil in E | cbn; lia]).
  lia.
Qed.

(** A split into chunks of [N >= 1] items: nothing is lost or reordered,
    every chunk but the last is full, and there are ceil(len / N)
    chunks. *)
Lemma chunks_spec {A : Type} (data : list A) (N : Z) :
  1 <= N ->
  exists cs,
    chunks data N = Ok cs /\
    (forall fuel, (length data < fuel)%nat ->
                  chunks_loop fuel data (Z.to_nat N) = cs) /\
    concat cs = data /\
    Forall (fun c => 1 <= Z.of_nat (length c) <= N) cs /\
    (forall i, (S i < length cs)%nat ->
               Z.of_nat (length (nth i cs [])) = N) /\
    Z.of_nat (length cs) = ceil_div (Z.of_nat (length data)) N.
Proof.
  intros HN. unfold chunks.
  assert ((N <? 0) = false) as -> by (apply Z.ltb_ge; lia).
  eexists. split; [reflexivity|].
  assert (Hn : (1 <= Z.to_nat N)%nat) by lia.
  destruct (chunks_loop_spec (Z.to_nat N) Hn (S (length data)) data
              (Nat.lt_succ_diag_r _)) as (C & Fa & Full & Cnt).
  cbn zeta in *. split; [|split; [|split; [|split]]].
  - intros fuel F. apply chunks_loop_more; [exact Hn | lia | lia].
  - exact C.
  - eapply Forall_impl; [|exact Fa]. cbv beta. intros c Hc. lia.
  - intros i Hi. rewrite (Full i Hi). lia.
  - symmetry. apply ceil_div_unique; [lia|]. rewrite Z2Nat.id in Cnt by lia.
    exact Cnt.
Qed.

(** X16.  [chunks(data, N)] with [N >= 1]: the loop ends after as many
    turns as there are chunks, the chunks put end to end are the data,
    in order; every chunk holds between 1 and [N] items and every chunk
    but the last holds [N]; and there are ceil(len(data) / N) chunks. *)
Theorem chunks_partition {A : Type} (data : list A) (N : Z) :
  1 <= N ->
  exists cs,
    chunks data N = Ok cs /\
    (forall fuel, (length data < fuel)%nat ->
                  chunks_loop fuel data (Z.to_nat N) = cs) /\
    concat cs = data /\
    Forall (fun c => 1 <= Z.of_nat (length c) <= N) cs /\
    (forall i, (S i < length cs)%nat ->
               Z.of_nat (length (nth i cs [])) = N) /\
    Z.of_nat (length cs) = ceil_div (Z.of_nat (length data)) N.
Proof.
  intros HN. destruct (chunks_spec data N HN) as (cs & H). now exists cs.
Qed.

Lemma chunks_partition_witness :
  exists cs,
    chunks [1; 2; 3; 4; 5]%nat 2 = Ok cs /\
    (forall fuel, (5 < fuel)%nat ->
                  chunks_loop fuel [1; 2; 3; 4; 5]%nat 2 = cs) /\
    concat cs = [1; 2; 3; 4; 5]%nat /\
    Forall (fun c => 1 <= Z.of_nat (length c) <= 2) cs /\
    (forall i, (S i < length cs)%nat -> Z.of_nat (length (nth i cs [])) = 2) /\
    Z.of_nat (length cs) = ceil_div 5 2.
Proof. apply (chunks_partition [1; 2; 3; 4; 5]%nat 2). lia. Defined.

Lemma map_fst_combine {A B : Type} (a : list A) (b : list B) :
  (length a <= length b)%nat -> map fst (combine a b) = a.
Proof.
  revert b. induction a as [|x a IH]; intros [|y b] H; cbn in *;
    try reflexivity; [lia|]. f_equal. apply IH. lia.
Qed.

Lemma map_snd_combine {A B : Type} (a : list A) (b : list B) :
  map snd (combine a b) = firstn (length a) b.
Proof.
  revert b. induction a as [|x a IH]; intros [|y b]; cbn; try reflexivity.
  f_equal. apply IH.
Qed.

(** ** match_templates.py: the work of the devices *)

(** X17.  With one device per GPU ([len(cuda_devices) = n_gpu], as the
    configuration is validated) and fewer than 2^53 GPUs and template
    groups, so that the double quotient of line 50 has the ceiling of
    the exact one, the split of the template groups over the devices
    loses no group: there are at most [n_gpu] chunks, so [zip] drops
    none; the chunks put end to end are the groups, in order; the
    chunks go to the first devices of the list; and no device gets more
    than ceil(groups / n_gpu) groups. *)
Theorem assign_devices_covers {A : Type} (template_groups : list A)
  (n_gpu : Z) (cuda_devices : list Z) :
  1 <= n_gpu < 2 ^ 53 ->
  Z.of_nat (length cuda_devices) = n_gpu ->
  Z.of_nat (length template_groups) < 2 ^ 53 ->
  exists work,
    assign_devices template_groups n_gpu cuda_devices = Ok work /\
    concat (map fst work) = template_groups /\
    map snd work = firstn (length work) cuda_devices /\
    Forall (fun w => Z.of_nat (length (fst w))
                     <= ceil_div (Z.of_nat (length template_groups)) n_gpu)
           work.
Proof.
  intros Hn Hdev Few. unfold assign_devices.
  set (g := Z.of_nat (length template_groups)) in *.
  destruct (truediv_ceil g n_gpu ltac:(unfold g; lia) ltac:(lia))
    as (x & -> & Cx).
  cbn [bind]. cbv zeta. rewrite Cx.
  pose proof (ceil_div_spec g n_gpu ltac:(lia)) as Sz.
  set (chunksize := ceil_div g n_gpu) in *.
  destruct (Z.eq_dec g 0) as [G0|G1].
  - assert (chunksize = 0) as E0 by (clearbody chunksize g; nia).
    rewrite E0. assert (template_groups = []) as ->
      by (apply length_zero_iff_nil; unfold g in G0; lia).
    exists []. cbn. repeat split; constructor.
  - assert (1 <= g) by (unfold g in *; lia).
    assert (1 <= chunksize) by (clearbody chunksize g; nia).
    destruct (chunks_spec template_groups chunksize ltac:(lia))
      as (cs & -> & _ & C & Fa & _ & Cnt).
    cbn [bind]. eexists. split; [reflexivity|].
    pose proof (ceil_div_spec g chunksize ltac:(lia)) as Sc.
    fold g in Cnt. rewrite <- Cnt in Sc.
    assert (Lc : (length cs <= length cuda_devices)%nat) by nia.
    rewrite map_fst_combine by exact Lc.
    split; [exact C|]. split.
    + rewrite map_snd_combine, length_combine. f_equal. lia.
    + apply Forall_forall. intros [c dev] Hw. cbn [fst].
      apply in_combine_l in Hw. rewrite Forall_forall in Fa.
      specialize (Fa c Hw). cbv beta in Fa. lia.
Qed.

Lemma assign_devices_covers_witness :
  exists work,
    assign_devices ["g1"; "g2"; "g3"; "g4"; "g5"]%string 3 [0; 1; 2] = Ok work /\
    concat (map fst work) = ["g1"; "g2"; "g3"; "g4"; "g5"]%string /\
    map snd work = firstn (length work) [0; 1; 2] /\
    Forall (fun w => Z.of_nat (length (fst w)) <= ceil_div 5 3) work.
Proof.
  apply (assign_devices_covers ["g1"; "g2"; "g3"; "g4"; "g5"]%string 3
           [0; 1; 2]);
    [split; [lia | reflexivity] | reflexivity | reflexivity].
Defined.

(** ** match_templates.py: sorting and grouping *)

Lemma insert_asc_perm (t : Z) (l : list Z) :
  Permutation (insert_asc t l) (t :: l).
Proof.
  induction l as [|x l IH]; cbn [insert_asc]; [reflexivity|].
  destruct (t <=? x); [reflexivity|].
  rewrite IH. apply perm_swap.
Qed.

Lemma sort_asc_perm (l : list Z) : Permutation (sort_asc l) l.
Proof.
  induction l as [|x l IH]; [reflexivity|].
  cbn [sort_asc fold_right]. rewrite insert_asc_perm.
  now apply perm_skip.
Qed.

Lemma insert_asc_sorted (t : Z) (l : list Z) :
  StronglySorted Z.le l -> StronglySorted Z.le (insert_asc t l).
Proof.
  induction 1 as [|x l S IH F]; cbn [insert_asc].
  - repeat constructor.
  - destruct (t <=? x) eqn:E.
    + apply Z.leb_le in E. constructor; [now constructor|].
      constructor; [exact E|]. eapply Forall_impl; [|exact F].
      cbv beta. intros; lia.
    + apply Z.leb_gt in E. constructor; [exact IH|].
      apply Forall_forall. intros y Hy.
      apply (Permutation_in _ (insert_asc_perm t l)) in Hy.
      destruct Hy as [<-|Hy]; [lia|].
      rewrite Forall_forall in F. now apply F.
Qed.

Lemma sort_asc_sorted (l : list Z) : StronglySorted Z.le (sort_asc l).
Proof.
  induction l as [|x l IH]; [constructor|].
  cbn [sort_asc fold_right]. now apply insert_asc_sorted.
Qed.

Lemma sorted_nodup_strict (l : list Z) :
  StronglySorted Z.le l -> NoDup l -> StronglySorted Z.lt l.
Proof.
  induction 1 as [|x l S IH F]; intros D; [constructor|].
  inversion D as [|? ? Nx Dl]; subst.
  constructor; [now apply IH|].
  apply Forall_forall. intros y Hy. rewrite Forall_forall in F.
  specialize (F y Hy).
  assert (x <> y) by (intros ->; contradiction). lia.
Qed.

(** The loop of [sort_unique]: the list holds each time seen so far
    once. *)
Lemma unique_loop (times out : list Z) :
  NoDup out ->
  let r := fold_left (fun out t => if existsb (Z.eqb t) out then out
                                   else out ++ [t]) times out in
  NoDup r /\ forall t, In t r <-> In t out \/ In t times.
Proof.
  revert out. induction times as [|x times IH]; intros out D; cbn zeta.
  - cbn [fold_left]. split; [exact D|]. cbn. tauto.
  - cbn [fold_left]. destruct (existsb (Z.eqb x) out) eqn:E.
    + destruct (IH out D) as (D' & I'). split; [exact D'|].
      intros t. rewrite I'. cbn [In]. split; [tauto|].
      intros [H|[<-|H]]; auto. left.
      apply existsb_exists in E. destruct E as (y & Hy & Q).
      apply Z.eqb_eq in Q. now subst y.
    + destruct (IH (out ++ [x])) as (D' & I').
      { apply NoDup_app; [exact D | repeat constructor; intros [] |].
        intros y Hy [Q|[]]. subst y.
        assert (existsb (Z.eqb x) out = true) as T
          by (apply existsb_exists; exists x; split;
              [exact Hy | apply Z.eqb_refl]).
        congruence. }
      split; [exact D'|]. intros t. rewrite I', in_app_iff. cbn [In]. tauto.
Qed.

(** X18.  [sort_unique(times)] returns the times of its argument in
    strictly increasing order: sorted, without repetition, and with
    exactly the elements of the argument. *)
Theorem sort_unique_sorted_set (times : list Z) :
  StronglySorted Z.lt (sort_unique times) /\
  forall t, In t (sort_unique times) <-> In t times.
Proof.
  unfold sort_unique.
  destruct (unique_loop times [] (NoDup_nil Z)) as (D & I). cbn zeta in *.
  set (list_out := fold_left _ times []) in *. split.
  - apply sorted_nodup_strict; [apply sort_asc_sorted|].
    apply (Permutation_NoDup (l := list_out)); [|exact D].
    symmetry. apply sort_asc_perm.
  - intros t. split; intros H.
    + apply (Permutation_in _ (sort_asc_perm list_out)) in H.
      apply I in H. destruct H as [[]|H]. exact H.
    + apply (Permutation_in _ (Permutation_sym (sort_asc_perm list_out))).
      apply I. now right.
Qed.

Lemma split_nonempty (sep : ascii) (s : string) : Str.split sep s <> [].
Proof.
  destruct s as [|c s]; cbn [Str.split]; [discriminate|].
  destruct (Ascii.eqb c sep); [discriminate|].
  destruct (Str.split sep s); discriminate.
Qed.

(** Joining the pieces of a name gives the name back. *)
Lemma join_split (sep : ascii) (s : string) :
  Str.join sep (Str.split sep s) = s.
Proof.
  induction s as [|c s IH]; [reflexivity|]. cbn [Str.split].
  destruct (Ascii.eqb c sep) eqn:E.
  - apply Ascii.eqb_eq in E. subst c.
    pose proof (split_nonempty sep s) as N.
    destruct (Str.split sep s) as [|p ps]; [contradiction|].
    cbn [Str.join] in *. cbn [append]. now rewrite IH.
  - pose proof (split_nonempty sep s) as N.
    destruct (Str.split sep s) as [|p ps]; [contradiction|].
    destruct ps as [|q ps]; cbn [Str.join] in *; cbn [append]; now rewrite IH.
Qed.

Lemma flat_map_ext_in {A B : Type} (f g : A -> list B) (l : list A) :
  (forall a, In a l -> f a = g a) -> flat_map f l = flat_map g l.
Proof.
  induction l as [|a l IH]; intros H; [reflexivity|].
  cbn [flat_map]. rewrite (H a) by now left.
  f_equal. apply IH. intros b Hb. apply H. now right.
Qed.

(** The classes of a key, taken in an order that names every key once,
    rearrange the list. *)
Lemma partition_by_key {A : Type} (key : A -> string) (keys : list string)
  (l : list A) :
  NoDup keys ->
  (forall x, In x l -> In (key x) keys) ->
  Permutation
    (flat_map (fun k => filter (fun x => String.eqb (key x) k) l) keys) l.
Proof.
  intros D. induction l as [|x l IH]; intros Cov.
  - rewrite flat_map_nil by reflexivity. constructor.
  - destruct (in_split (key x) keys (Cov x (or_introl eq_refl)))
      as (k1 & k2 & E).
    rewrite E in D. pose proof (NoDup_remove_2 _ _ _ D) as Nx.
    assert (Other : forall k, In k (k1 ++ k2) ->
              filter (fun y => String.eqb (key y) k) (x :: l)
              = filter (fun y => String.eqb (key y) k) l).
    { intros k Hk. cbn [filter].
      destruct (String.eqb (key x) k) eqn:Q; [|reflexivity].
      apply String.eqb_eq in Q. subst k. contradiction. }
    specialize (IH (fun y Hy => Cov y (or_intror Hy))).
    rewrite E in IH |- *. rewrite flat_map_app in IH |- *.
    cbn [flat_map] in IH |- *.
    rewrite (flat_map_ext_in _
               (fun k => filter (fun y => String.eqb (key y) k) l) k1)
      by (intros k Hk; apply Other, in_or_app; now left).
    rewrite (flat_map_ext_in _
               (fun k => filter (fun y => String.eqb (key y) k) l) k2)
      by (intros k Hk; apply Other, in_or_app; now right).
    cbn [filter]. rewrite String.eqb_refl.
    cbn [app]. rewrite <- Permutation_middle. now apply perm_skip.
Qed.

Lemma concat_flat_map {A B : Type} (f : A -> list (list B)) (l : list A) :
  concat (flat_map f l) = flat_map (fun a => concat (f a)) l.
Proof.
  induction l as [|a l IH]; [reflexivity|].
  cbn [flat_map]. now rewrite concat_app, IH.
Qed.

Lemma map_of_flat_map {A B C : Type} (g : B -> C) (f : A -> list B)
  (l : list A) :
  flat_map (fun a => map g (f a)) l = map g (flat_map f l).
Proof.
  induction l as [|a l IH]; [reflexivity|].
  cbn [flat_map]. now rewrite map_app, IH.
Qed.

Lemma perm_flat_map_ext {A B : Type} (f g : A -> list B) (l : list A) :
  (forall a, Permutation (f a) (g a)) ->
  Permutation (flat_map f l) (flat_map g l).
Proof.
  intros H. induction l as [|a l IH]; [constructor|].
  cbn [flat_map]. now apply Permutation_app.
Qed.

Section GroupingProofs.

Variable set_order : list string -> list string.
Hypothesis set_order_nodup : forall l, NoDup (set_order l).
Hypothesis set_order_in : forall l x, In x (set_order l) <-> In x l.

Variable template_files : list string.
Variable k : nat.
Hypothesis some_file : template_files <> [].
Hypothesis three_parts : (3 <= k)%nat.
Hypothesis same_parts :
  Forall (fun f => length (Str.split "_" f) = k) template_files.

Local Abbreviation rows := (map (Str.split "_") template_files).
Local Abbreviation groups :=
  (flat_map
     (fun cha =>
        map (fun temp_len =>
               map (Str.join "_") (select 2 temp_len (select 0 cha rows)))
            (set_order (column 2 (select 0 cha rows))))
     (set_order (column 0 rows))).

Lemma rows_parts (r : list string) : In r rows -> length r = k.
Proof.
  intros Hr. apply in_map_iff in Hr. destruct Hr as (f & <- & Hf).
  rewrite Forall_forall in same_parts. now apply same_parts.
Qed.

Lemma group_by_channel_length_ok :
  group_by_channel_length set_order template_files = Ok groups.
Proof.
  unfold group_by_channel_length.
  pose proof rows_parts as P.
  destruct rows as [|r0 rs] eqn:E.
  - apply map_eq_nil in E. contradiction.
  - assert (forallb (fun r => (length r =? length r0)%nat) (r0 :: rs) = true)
      as ->.
    { apply forallb_forall. intros r Hr.
      rewrite (P r Hr), (P r0) by now left. apply Nat.eqb_refl. }
    cbn [negb]. rewrite (P r0) by now left.
    assert ((k <? 3)%nat = false) as ->
      by (apply Nat.ltb_ge; exact three_parts).
    reflexivity.
Qed.

Lemma group_shape (g : list string) :
  In g groups ->
  exists cha len,
    g = map (Str.join "_") (select 2 len (select 0 cha rows)).
Proof.
  intros Hg. apply in_flat_map in Hg. destruct Hg as (cha & _ & Hg).
  apply in_map_iff in Hg. destruct Hg as (len & <- & _). eauto.
Qed.

Lemma in_class (cha len f : string) :
  In f (map (Str.join "_") (select 2 len (select 0 cha rows))) ->
  In f template_files /\
  nth 0 (Str.split "_" f) EmptyString = cha /\
  nth 2 (Str.split "_" f) EmptyString = len.
Proof.
  intros Hf. apply in_map_iff in Hf. destruct Hf as (r & <- & Hr).
  unfold select in Hr. apply filter_In in Hr. destruct Hr as (Hr & E2).
  apply filter_In in Hr. destruct Hr as (Hr & E0).
  apply in_map_iff in Hr. destruct Hr as (f & <- & Hf).
  rewrite join_split. apply String.eqb_eq in E0, E2. auto.
Qed.

Lemma groups_partition : Permutation (concat groups) template_files.
Proof.
  rewrite concat_flat_map.
  rewrite (perm_flat_map_ext _
             (fun cha => map (Str.join "_") (select 0 cha rows))).
  - rewrite map_of_flat_map.
    transitivity (map (Str.join "_") rows).
    + apply Permutation_map.
      apply (partition_by_key (fun r => nth 0 r EmptyString)).
      * apply set_order_nodup.
      * intros r Hr. apply set_order_in. unfold column.
        now apply (in_map (fun r => nth 0 r EmptyString)).
    + assert (map (Str.join "_") rows = template_files) as ->; [|reflexivity].
      rewrite map_map. rewrite (map_ext _ (fun f => f)) by apply join_split.
      apply map_id.
  - intros cha. rewrite <- flat_map_concat_map, map_of_flat_map.
    apply Permutation_map.
    apply (partition_by_key (fun r => nth 2 r EmptyString)).
    + apply set_order_nodup.
    + intros r Hr. apply set_order_in. unfold column.
      now apply (in_map (fun r => nth 2 r EmptyString)).
Qed.

Lemma groups_nonempty : Forall (fun g => g <> []) groups.
Proof.
  apply Forall_forall. intros g Hg.
  apply in_flat_map in Hg. destruct Hg as (cha & _ & Hg).
  apply in_map_iff in Hg. destruct Hg as (len & <- & Hl).
  apply (proj1 (set_order_in _ _)) in Hl. unfold column in Hl.
  apply in_map_iff in Hl. destruct Hl as (r & <- & Hr).
  intros N. apply map_eq_nil in N.
  assert (In r (select 2 (nth 2 r EmptyString) (select 0 cha rows))) as I.
  { unfold select at 1. apply filter_In. split; [exact Hr|].
    apply String.eqb_refl. }
  rewrite N in I. destruct I.
Qed.

End GroupingProofs.

(** X19.  [group_by_channel_length] on names that all have the same
    number, at least three, of parts between underscores: whatever the
    order in which the two sets are iterated, every name is in exactly
    one group (the groups put end to end are a rearrangement of the
    names, which come back unchanged from the split and the join), and
    no group is empty. *)
Theorem group_by_channel_length_partition
  (set_order : list string -> list string)
  (template_files : list string) (k : nat) :
  (forall l, NoDup (set_order l)) ->
  (forall l x, In x (set_order l) <-> In x l) ->
  template_files <> [] ->
  (3 <= k)%nat ->
  Forall (fun f => length (Str.split "_" f) = k) template_files ->
  exists groups,
    group_by_channel_length set_order template_files = Ok groups /\
    Permutation (concat groups) template_files /\
    Forall (fun g => g <> []) groups.
Proof.
  intros D I Ne Hk Parts. eexists. split; [|split].
  - now apply (group_by_channel_length_ok set_order template_files k).
  - now apply groups_partition.
  - now apply groups_nonempty.
Qed.

Lemma group_by_channel_length_partition_witness :
  let files := ["A_x_10"; "B_y_10"; "A_z_20"; "A_w_10"]%string in
  exists groups,
    group_by_channel_length (nodup string_dec) files = Ok groups /\
    Permutation (concat groups) files /\
    Forall (fun g => g <> []) groups.
Proof.
  cbn zeta.
  apply (group_by_channel_length_partition (nodup string_dec)
           ["A_x_10"; "B_y_10"; "A_z_20"; "A_w_10"]%string 3).
  - intros l. apply NoDup_nodup.
  - intros l x. apply nodup_In.
  - discriminate.
  - lia.
  - repeat constructor.
Defined.

(** X20.  The groups of [group_by_channel_length] are the classes of
    names with the same channel (first part) and the same length (third
    part): two names of the groups are in the same group exactly when
    both parts agree.  So the channel that [match_templates] reads off
    the first name of a group, [all_templates[0].split('_')[0]], is the
    channel of every template of the group. *)
Theorem groups_share_channel_and_length
  (set_order : list string -> list string)
  (template_files : list string) (k : nat) :
  (forall l, NoDup (set_order l)) ->
  (forall l x, In x (set_order l) <-> In x l) ->
  template_files <> [] ->
  (3 <= k)%nat ->
  Forall (fun f => length (Str.split "_" f) = k) template_files ->
  exists groups,
    group_by_channel_length set_order template_files = Ok groups /\
    (forall g1 g2 f1 f2,
       In g1 groups -> In g2 groups -> In f1 g1 -> In f2 g2 ->
       (g1 = g2 <->
        nth 0 (Str.split "_" f1) EmptyString
          = nth 0 (Str.split "_" f2) EmptyString /\
        nth 2 (Str.split "_" f1) EmptyString
          = nth 2 (Str.split "_" f2) EmptyString))
    /\
    (forall g, In g groups ->
       exists id, waveform_id g = Ok id /\
                  forall f, In f g ->
                            nth 0 (Str.split "_" f) EmptyString = id).
Proof.
  intros D I Ne Hk Parts. eexists. split; [|split].
  - now apply (group_by_channel_length_ok set_order template_files k).
  - intros g1 g2 f1 f2 H1 H2 F1 F2.
    apply group_shape in H1, H2.
    destruct H1 as (c1 & l1 & ->), H2 as (c2 & l2 & ->).
    pose proof (in_class _ _ _ _ F1) as (_ & A1 & B1).
    pose proof (in_class _ _ _ _ F2) as (_ & A2 & B2).
    split.
    + intros E. rewrite <- E in F2.
      pose proof (in_class _ _ _ _ F2) as (_ & A3 & B3). split; congruence.
    + intros (A & B). congruence.
  - intros g Hg. pose proof (group_shape _ _ _ Hg) as (c & l & E).
    pose proof (groups_nonempty set_order I template_files) as N.
    rewrite Forall_forall in N. specialize (N g Hg).
    destruct g as [|f0 g']; [contradiction|].
    exists (nth 0 (Str.split "_" f0) EmptyString). split; [reflexivity|].
    intros f Hf. rewrite E in Hf.
    assert (In f0 (f0 :: g')) as H0 by now left. rewrite E in H0.
    pose proof (in_class _ _ _ _ Hf) as (_ & A1 & _).
    pose proof (in_class _ _ _ _ H0) as (_ & A2 & _). congruence.
Qed.

Lemma groups_share_channel_and_length_witness :
  let files := ["A_x_10"; "B_y_10"; "A_z_20"; "A_w_10"]%string in
  exists groups,
    group_by_channel_length (nodup string_dec) files = Ok groups /\
    (forall g1 g2 f1 f2,
       In g1 groups -> In g2 groups -> In f1 g1 -> In f2 g2 ->
       (g1 = g2 <->
        nth 0 (Str.split "_" f1) EmptyString
          = nth 0 (Str.split "_" f2) EmptyString /\
        nth 2 (Str.split "_" f1) EmptyString
          = nth 2 (Str.split "_" f2) EmptyString))
    /\
    (forall g, In g groups ->
       exists id, waveform_id g = Ok id /\
                  forall f, In f g ->
                            nth 0 (Str.split "_" f) EmptyString = id).
Proof.
  cbn zeta.
  apply (groups_share_channel_and_length (nodup string_dec)
           ["A_x_10"; "B_y_10"; "A_z_20"; "A_w_10"]%string 3).
  - intros l. apply NoDup_nodup.
  - intros l x. apply nodup_In.
  - discriminate.
  - lia.
  - repeat constructor.
Defined.
